(** * fancy-mini: the concurrency decorators and the page navigator

    A shallow embedding of
      - [src/lib/decorator/noConcurrent.js]: the template behind
        [noConcurrent], [mergingStep], [singleAisle] and [makeMutex];
      - [src/lib/navigate/Navigator.js]: the navigator that keeps an unbounded
        logical history on top of the host's depth-capped page stack.

    Part I holds the definitions, Part II the lemmas and theorems. *)

From Stdlib Require Import ZArith List String Bool Lia.
Import ListNotations.

Set Implicit Arguments.

(* ################################################################# *)
(** * Part I.a  The decorator template [_noConcurrentTplt] *)

Module NoConcurrent.

(** The [mode] string of the template; [unknown] stands for every string the
    [switch] does not list (its [default:] arm). *)
Inductive Mode := discard | merge | wait | unknown.

(** A call of the decorated function is named by the caller it belongs to. *)
Definition Caller := nat.

(** One entry of [statusControl.listeners].  [handler] is the [resolve]
    function of the promise the parked caller awaits, so it is named by that
    caller. *)
Record Listener := { block : bool; handler : Caller }.

(** [namespace[mutexStore][mutexId]]. *)
Record StatusControl := { running : bool; listeners : list Listener }.

(** The value the record is created with on first use. *)
Definition fresh : StatusControl := {| running := false; listeners := [] |}.

(** [handleRunFinish]: the [while] loop takes listeners off the front of the
    queue and calls their handlers; it returns at the first blocking one,
    leaving [running] as it is, and clears [running] when the queue runs dry.
    The result lists the listeners whose handler was called, in call order. *)
Fixpoint handleRunFinish_loop (r : bool) (ls : list Listener)
  : list Listener * StatusControl :=
  match ls with
  | [] => ([], {| running := false; listeners := [] |})
  | listener :: rest =>
      if block listener
      then ([listener], {| running := r; listeners := rest |})
      else let (called, sc) := handleRunFinish_loop r rest in
           (listener :: called, sc)
  end.

Definition handleRunFinish (sc : StatusControl) : list Listener * StatusControl :=
  handleRunFinish_loop (running sc) (listeners sc).

(** The listener a parked caller leaves in the queue, and the mode that
    leaves it there. *)
Definition parked (b : bool) (c : Caller) : Listener := {| block := b; handler := c |}.

Definition parking (b : bool) : Mode := if b then wait else merge.

(** The number of blocking listeners in a list. *)
Definition blocking (ls : list Listener) : nat := List.length (filter block ls).

Section Template.

(** Results of the wrapped operation are opaque to the template. *)
Variable value : Type.
Variable undefined : value.

(** How a promise ends. *)
Inductive Settled := Fulfilled (v : value) | Rejected (e : value).

(** What [oriFunc.apply(this, arguments)] hands back: a promise, given here
    with the way it is going to settle, or (sync usage) a plain value. *)
Inductive Res := Promise (s : Settled) | NotPromise (v : value).

(** [resolve(res)], the call [listener.handler(res)]: a promise resolved with
    a promise follows it, a promise resolved with a plain value is fulfilled
    with it. *)
Definition resolve (res : Res) : Settled :=
  match res with
  | Promise s => s
  | NotPromise v => Fulfilled v
  end.

(** The parameters bound by [makeNoConcurrent] / [makeMutex], and the wrapped
    function: [oriFunc c] is what the operation returns when it is applied on
    behalf of caller [c].  The function always returns, as an [async]
    function does: one that throws when it is applied is not covered. *)
Variable discardRes : value.
Variable oriFunc : Caller -> Res.

(** What can be seen from outside. *)
Inductive Obs :=
| Invoked (c : Caller)               (* oriFunc applied for caller c *)
| Settles (c : Caller) (s : Settled) (* the promise caller c holds settles *)
| SyncUsage (c : Caller).            (* console.error: sync usage *)

(** A continuation waiting in the microtask queue: the listener whose handler
    was called, and the way its promise settled. *)
Definition Job := (Listener * Settled)%type.

Record State := {
  statusControl : StatusControl;
  inflight : list Caller;   (* invocations whose promise has not settled yet *)
  jobs : list Job;          (* continuations of resolved listeners, oldest first *)
  log : list Obs
}.

Definition init : State :=
  {| statusControl := fresh; inflight := []; jobs := []; log := [] |}.

(** [handleRunFinish(res)] inside the running system: every handler call
    queues the continuation of the parked caller. *)
Definition finish (res : Res) (st : State) : State :=
  let (called, sc) := handleRunFinish (statusControl st) in
  {| statusControl := sc;
     inflight := inflight st;
     jobs := jobs st ++ map (fun l => (l, resolve res)) called;
     log := log st |}.

(** From "operation starts" to [return res]: take the lock, apply [oriFunc];
    a promise is left in flight (its [then]/[catch] runs [handleRunFinish]
    when it settles), anything else is reported and finished at once.  The
    caller's promise follows [res]. *)
Definition start (c : Caller) (st : State) : State :=
  let sc := {| running := true; listeners := listeners (statusControl st) |} in
  match oriFunc c with
  | Promise _ =>
      {| statusControl := sc;
         inflight := inflight st ++ [c];
         jobs := jobs st;
         log := log st ++ [Invoked c] |}
  | NotPromise v =>
      finish (NotPromise v)
        {| statusControl := sc;
           inflight := inflight st;
           jobs := jobs st;
           log := log st ++ [Invoked c; SyncUsage c; Settles c (Fulfilled v)] |}
  end.

Definition push (l : Listener) (st : State) : State :=
  {| statusControl := {| running := running (statusControl st);
                         listeners := listeners (statusControl st) ++ [l] |};
     inflight := inflight st;
     jobs := jobs st;
     log := log st |}.

Definition say (o : Obs) (st : State) : State :=
  {| statusControl := statusControl st;
     inflight := inflight st;
     jobs := jobs st;
     log := log st ++ [o] |}.

(** [descriptor.value], from its entry to its first suspension. *)
Definition call (mode : Mode) (c : Caller) (st : State) : State :=
  if running (statusControl st) then
    match mode with
    | discard => say (Settles c (Fulfilled discardRes)) st
    | merge => push (parked false c) st
    | wait => push (parked true c) st
    | unknown => say (Settles c (Fulfilled undefined)) st
    end
  else start c st.

(** [descriptor.value] resumed after its [await]: a merge caller returns
    [lastRes] (or rethrows), a wait caller leaves the [switch] and starts the
    operation; if the awaited promise was rejected the [await] throws and the
    function is left there. *)
Definition resume (j : Job) (st : State) : State :=
  let (l, s) := j in
  if block l then
    match s with
    | Fulfilled _ => start (handler l) st
    | Rejected e => say (Settles (handler l) (Rejected e)) st
    end
  else say (Settles (handler l) s) st.

Fixpoint remove_first (c : Caller) (cs : list Caller) : list Caller :=
  match cs with
  | [] => []
  | x :: xs => if Nat.eqb x c then xs else x :: remove_first c xs
  end.

(** The promise of the invocation made for [c] settles and its [then] or
    [catch] callback runs [handleRunFinish(res)]. *)
Definition settle (c : Caller) (st : State) : State :=
  if existsb (Nat.eqb c) (inflight st) then
    match oriFunc c with
    | Promise s =>
        finish (Promise s)
          {| statusControl := statusControl st;
             inflight := remove_first c (inflight st);
             jobs := jobs st;
             log := log st ++ [Settles c s] |}
    | NotPromise _ => st
    end
  else st.

(** The runtime runs the oldest queued continuation. *)
Definition tick (st : State) : State :=
  match jobs st with
  | [] => st
  | j :: rest =>
      resume j {| statusControl := statusControl st;
                  inflight := inflight st;
                  jobs := rest;
                  log := log st |}
  end.

(** What the single thread of control does next. *)
Inductive Event :=
| Call (mode : Mode) (c : Caller)
| Settle (c : Caller)
| Tick.

Definition step (st : State) (ev : Event) : State :=
  match ev with
  | Call mode c => call mode c st
  | Settle c => settle c st
  | Tick => tick st
  end.

Definition run (evs : list Event) (st : State) : State :=
  fold_left step evs st.

(** The callers the operation was applied for, in order of application. *)
Fixpoint invocations (l : list Obs) : list Caller :=
  match l with
  | [] => []
  | Invoked c :: l' => c :: invocations l'
  | _ :: l' => invocations l'
  end.

(** The way caller [c]'s promise settled, if it has. *)
Fixpoint settledWith (c : Caller) (l : list Obs) : option Settled :=
  match l with
  | [] => None
  | Settles c' s :: l' => if Nat.eqb c' c then Some s else settledWith c l'
  | _ :: l' => settledWith c l'
  end.

(** The lock is held, nothing is in flight and no continuation is queued:
    nobody is left to release the lock. *)
Definition Orphaned (st : State) : Prop :=
  running (statusControl st) = true /\ inflight st = [] /\ jobs st = [].

(** At most one holder: an invocation in flight, or a blocking listener that
    was handed the lock and has not resumed yet; and a free lock has no queue. *)
Definition blockingJobs (js : list Job) : nat := blocking (map fst js).

Definition Exclusive (st : State) : Prop :=
  (running (statusControl st) = false ->
   listeners (statusControl st) = [] /\ inflight st = [] /\ blockingJobs (jobs st) = 0)
  /\ List.length (inflight st) + blockingJobs (jobs st) <= 1.

(** ** Names for further statements *)

(** The callers of the [Call] events of a schedule, in order. *)
Definition callsOf (evs : list Event) : list Caller :=
  flat_map (fun ev => match ev with Call _ c => [c] | _ => [] end) evs.

(** Whether a schedule holds a call in [wait] mode. *)
Definition usesWait (evs : list Event) : bool :=
  existsb (fun ev => match ev with Call wait _ => true | _ => false end) evs.

(** What a call that finds the lock held returns at once, in the modes that
    do not park it: [discardRes], or nothing after the [default:] arm. *)
Definition turnedAway (mode : Mode) : value :=
  match mode with
  | unknown => undefined
  | _ => discardRes
  end.

(** Nothing is held, queued or pending. *)
Definition Idle (st : State) : Prop :=
  statusControl st = fresh /\ inflight st = [] /\ jobs st = [].

(** The lock is held exactly while one invocation is in flight, and nothing
    blocking is queued or about to resume. *)
Definition HeldWhileRunning (st : State) : Prop :=
  blocking (listeners (statusControl st)) = 0
  /\ blockingJobs (jobs st) = 0
  /\ (running (statusControl st) = true ->
      exists c s, inflight st = [c] /\ oriFunc c = Promise s)
  /\ (running (statusControl st) = false ->
      listeners (statusControl st) = [] /\ inflight st = []).

End Template.

Arguments Invoked {value} c.
Arguments SyncUsage {value} c.
Arguments init {value}.

End NoConcurrent.

(* ################################################################# *)
(** * Part I.b  The host platform, as the navigator sees it *)

(** The platform's primitives ([wx.navigateTo], [wx.redirectTo],
    [wx.navigateBack], [getCurrentPages]) are not code of the repository.
    They are played by a small host: a page stack on which an open pushes, a
    replace swaps the top and a back pops, and a script that says which of
    the coming calls the platform refuses, and with which message.  The host
    does not play the page-teardown notifications of the pages it closes,
    nor the platform closing the top page on a user's back: a notification
    is handled where a statement runs [onPageUnload]. *)

Module Wx.

(** A live page instance, as [getCurrentPages()] lists it.  A field the
    instance does not carry is the empty string. *)
Record Page := { route : string; __route__ : string }.

(** The result the promisified primitives deliver. *)
Record WxRes := { succeeded : bool; errMsg : string }.

Inductive OS := ios | android.

(** The host: the live page stack, newest last, and a script of injected
    failures.  Every physical call takes the head of the script: [Some msg]
    makes the call fail with [errMsg = msg] and leaves the stack alone;
    [None], or a script that has run out, lets the call succeed. *)
Record Host := {
  pages : list Page;
  faults : list (option string);
  os : OS
}.

Definition pageOf (url : string) : Page := {| route := url; __route__ := url |}.

Definition ok (api : string) : WxRes :=
  {| succeeded := true; errMsg := (api ++ ":ok")%string |}.

Definition failed (msg : string) : WxRes :=
  {| succeeded := false; errMsg := msg |}.

(** The host after a call that failed, and after a call that went through. *)
Definition spent (h : Host) : Host :=
  {| pages := pages h; faults := tl (faults h); os := os h |}.

Definition moved (effect : list Page -> list Page) (h : Host) : Host :=
  {| pages := effect (pages h); faults := tl (faults h); os := os h |}.

(** One physical call: it takes the head of the script, then either fails
    or applies its effect to the stack. *)
Definition physical (api : string) (effect : list Page -> list Page) (h : Host)
  : WxRes * Host :=
  match hd None (faults h) with
  | Some msg => (failed msg, spent h)
  | None => (ok api, moved effect h)
  end.

(** The effects of the three primitives on the stack. *)
Definition pushed (url : string) (ps : list Page) : list Page := ps ++ [pageOf url].

Definition swapped (url : string) (ps : list Page) : list Page :=
  removelast ps ++ [pageOf url].

Definition popped (delta : Z) (ps : list Page) : list Page :=
  firstn (Z.to_nat (Z.max 1 (Z.of_nat (List.length ps) - delta))) ps.

(** [wx.navigateTo]: a new page on top. *)
Definition navigateTo (url : string) : Host -> WxRes * Host :=
  physical "navigateTo" (pushed url).

(** [wx.redirectTo]: the top page is closed and the new one takes its place. *)
Definition redirectTo (url : string) : Host -> WxRes * Host :=
  physical "redirectTo" (swapped url).

(** [wx.navigateBack]: [delta] pages are closed, the first page stays. *)
Definition navigateBack (delta : Z) : Host -> WxRes * Host :=
  physical "navigateBack" (popped delta).

(** [wx.reLaunch] and [wx.switchTab]: every page leaves the stack and the
    new page (the tab page) is the only one left. *)
Definition relaunched (url : string) (ps : list Page) : list Page := [pageOf url].

Definition reLaunch (url : string) : Host -> WxRes * Host :=
  physical "reLaunch" (relaunched url).

Definition switchTab (url : string) : Host -> WxRes * Host :=
  physical "switchTab" (relaunched url).

End Wx.

(* ################################################################# *)
(** * Part I.c  The history store, as the navigator uses it *)

Module History.

(** A logical entry. *)
Record Route := {
  url : string;
  tainted : bool;
  savedPage : option Wx.Page
}.

(** The object literal [{url: u}]. *)
Definition mkRoute (u : string) : Route :=
  {| url := u; tainted := false; savedPage := None |}.

Record BackOpts := { delta : Z }.

(** [History.js] is imported by [Navigator.js] but is not among the sources.
    The operations [Navigator.js] calls on its [History] object are taken as
    an interface; [open] is handed the live page stack, which it may read to
    take a snapshot. *)
Class Store (H : Type) := {
  open : Route -> list Wx.Page -> H -> H;
  replace : Route -> H -> H;
  savePage : Z -> Wx.Page -> H -> H;
  back : BackOpts -> H -> Route * H;
  length : H -> Z
}.

(** Modelled from the spec: what section 4.2 says about the length of the
    history, for the [History.js] that is not among the sources.  [open]
    "appends a new logical entry", [replace] "overwrites the top logical
    entry with a new one; does not change length", [savePage] "records a
    snapshot". *)
Class Laws (H : Type) {HS : Store H} : Prop := {
  length_open : forall r ps h, length (open r ps h) = (length h + 1)%Z;
  length_replace : forall r h, length (replace r h) = length h;
  length_savePage : forall i p h, length (savePage i p h) = length h
}.
Arguments Laws H {HS}.

(** Modelled from the spec: the store of [History.js], which is not among
    the sources, is "an ordered sequence of Route, index 0 = app root" of
    "length >= 1 at all times"; it is kept here as the entries below the top
    and the top entry. *)
Record Routes := { below : list Route; top : Route }.

Definition routes (h : Routes) : list Route := below h ++ [top h].

Definition ofList (l : list Route) (otherwise : Routes) : Routes :=
  match rev l with
  | t :: b => {| below := rev b; top := t |}
  | [] => otherwise
  end.

(** Modelled from the spec: [savePage] "records a snapshot at a given logical
    index if eligible (guards against out-of-range or already-final
    indices)"; an entry that already holds a snapshot is left alone. *)
Fixpoint saveAt (i : nat) (p : Wx.Page) (l : list Route) {struct l} : list Route :=
  match l, i with
  | [], _ => []
  | r :: l', O =>
      match savedPage r with
      | Some _ => r :: l'
      | None => {| url := url r; tainted := tainted r; savedPage := Some p |} :: l'
      end
  | r :: l', S i' => r :: saveAt i' p l'
  end.

Definition routes_savePage (i : Z) (p : Wx.Page) (h : Routes) : Routes :=
  if (i <? 0)%Z then h else ofList (saveAt (Z.to_nat i) p (routes h)) h.

(** Modelled from the spec: [open] "appends a new logical entry.  Before
    appending, if the store's length has reached the correction level, saves
    a physical snapshot of the entry that is about to become vulnerable to
    eviction (the one two slots below the new top)". *)
Definition routes_open (correctLevel : Z) (r : Route) (ps : list Wx.Page)
  (h : Routes) : Routes :=
  let n := Z.of_nat (List.length (routes h)) in
  let h' :=
    if (correctLevel <=? n)%Z then
      match nth_error ps (Z.to_nat (n - 2)) with
      | Some p => routes_savePage (n - 2) p h
      | None => h
      end
    else h in
  {| below := routes h'; top := r |}.

(** Modelled from the spec: [replace] "overwrites the top logical entry with
    a new one; does not change length". *)
Definition routes_replace (r : Route) (h : Routes) : Routes :=
  {| below := below h; top := r |}.

(** Modelled from the spec: [back] "pops [delta] entries (minimum 1, never
    popping past index 0) and returns the new top entry". *)
Definition routes_back (opts : BackOpts) (h : Routes) : Route * Routes :=
  let n := Z.of_nat (List.length (routes h)) in
  let keep := Z.max 1 (n - Z.max 1 (delta opts)) in
  let h' := ofList (firstn (Z.to_nat keep) (routes h)) h in
  (top h', h').

Definition routes_length (h : Routes) : Z := Z.of_nat (List.length (routes h)).

Definition RoutesStore (correctLevel : Z) : Store Routes :=
  {| open := routes_open correctLevel;
     replace := routes_replace;
     savePage := routes_savePage;
     back := routes_back;
     length := routes_length |}.

(** [new History({routes: [{url:''}]})]. *)
Definition initial : Routes := {| below := []; top := mkRoute EmptyString |}.

End History.

(* ################################################################# *)
(** * Part I.d  The navigator *)

Module Navigator.

Import History.

Definition NAV_BUSY_REMAIN : Z := 300.

(** [String.prototype.includes]. *)
Definition includes (sub s : string) : bool :=
  match String.index 0 sub s with
  | Some _ => true
  | None => false
  end.

(** [a || b] on strings: the empty string is falsy. *)
Definition orElse (a b : string) : string :=
  match a with
  | EmptyString => b
  | _ => a
  end.

(** The [extraParams] object; [{_forcedRefresh: true}] is the only one built. *)
Definition ExtraParams := list (string * string).
Definition _forcedRefresh : option ExtraParams := Some [("_forcedRefresh", "true")]%string.

(** The helpers imported from [operationKit], which is not among the sources:
    they are taken as given. *)
Class OperationKit := {
  toAbsolutePath : string -> string -> string;
  appendUrlParam : string -> option ExtraParams -> string
}.

(** What the application's restore handler reports: [undefined] (or anything
    falsy), or an object with a [succeeded] field. *)
Inductive Restored := NoReport | Report (succeeded : bool).

(** What calling the restore handler does. *)
Inductive HandlerResult :=
| Returns (r : Restored)          (* a plain value *)
| ReturnsPromise (r : Restored)   (* a promise that is fulfilled with r *)
| ReturnsRejected (e : string)    (* a promise that is rejected with e *)
| Raises (e : string).            (* the handler throws e *)

(** [Navigator._config] ([oriNavOverrides] is played by the host). *)
Record Config := {
  enableCurtain : bool;
  curtainPage : string;
  enableTaintedRestore : bool;
  pageRestoreHandler : option (Route -> string -> HandlerResult);
  MAX_LEVEL : Z
}.

(** What a call does to the outside, in order. *)
Inductive Event :=
| HistoryOpen (r : Route)
| HistoryReplace (r : Route)
| HistorySavePage (index : Z) (p : Wx.Page)
| HistoryBack (opts : BackOpts)
| WxNavigateTo (u : string) (r : Wx.WxRes)
| WxRedirectTo (u : string) (r : Wx.WxRes)
| WxNavigateBack (d : Z) (r : Wx.WxRes)
| Delay (ms : Z)
| PageRestoreHandler (r : Route) (context : string).

(** What an [async] function can be rejected with. *)
Inductive Thrown :=
| Failure (r : Wx.WxRes)       (* [throw openRes]; a rejected physical call *)
| HandlerError (e : string)    (* raised by the restore handler *)
| TypeError                    (* a property read on [undefined] *)
| OutOfFuel.                   (* the retry loop was cut short: see [_secretOpen] *)

Inductive Outcome (A : Type) :=
| Ok (a : A)
| Throw (e : Thrown).
Arguments Throw {A} e.

Section WithHistory.

Context {H : Type} {HS : Store H} {OK : OperationKit}.

(** The static fields of [Navigator], the host, and the private lock the
    [noConcurrent] decorator keeps for [_finishActiveUnload]. *)
Record World := {
  _config : Config;
  _history : H;
  _activeUnload : bool;
  host : Wx.Host;
  finishLock : NoConcurrent.State unit;
  trace : list Event
}.

(** ** A state and error monad: [await] is sequencing. *)

Definition M (A : Type) := World -> Outcome A * World.

Definition ret {A} (a : A) : M A := fun w => (Ok a, w).

Definition throw {A} (e : Thrown) : M A := fun w => (Throw e, w).

Definition bind {A B} (m : M A) (k : A -> M B) : M B :=
  fun w =>
    match m w with
    | (Ok a, w') => k a w'
    | (Throw e, w') => (Throw e, w')
    end.

Notation "x <- m ;; k" := (bind m (fun x => k))
  (at level 61, m at next level, right associativity).
Notation "m ;; k" := (bind m (fun _ => k))
  (at level 61, right associativity).

(** Writes to one field of the world. *)
Definition logging (es : list Event) (w : World) : World :=
  {| _config := _config w; _history := _history w;
     _activeUnload := _activeUnload w; host := host w;
     finishLock := finishLock w; trace := trace w ++ es |}.

Definition withHistory (h : H) (w : World) : World :=
  {| _config := _config w; _history := h;
     _activeUnload := _activeUnload w; host := host w;
     finishLock := finishLock w; trace := trace w |}.

Definition withActiveUnload (b : bool) (w : World) : World :=
  {| _config := _config w; _history := _history w;
     _activeUnload := b; host := host w;
     finishLock := finishLock w; trace := trace w |}.

Definition withHost (h : Wx.Host) (w : World) : World :=
  {| _config := _config w; _history := _history w;
     _activeUnload := _activeUnload w; host := h;
     finishLock := finishLock w; trace := trace w |}.

Definition withFinishLock (l : NoConcurrent.State unit) (w : World) : World :=
  {| _config := _config w; _history := _history w;
     _activeUnload := _activeUnload w; host := host w;
     finishLock := l; trace := trace w |}.

Definition emit (e : Event) : M unit := fun w => (Ok tt, logging [e] w).

Definition setHistory (h : H) : M unit := fun w => (Ok tt, withHistory h w).

Definition setActiveUnload (b : bool) : M unit :=
  fun w => (Ok tt, withActiveUnload b w).

Definition setHost (h : Wx.Host) : M unit := fun w => (Ok tt, withHost h w).

Definition setFinishLock (l : NoConcurrent.State unit) : M unit :=
  fun w => (Ok tt, withFinishLock l w).

Definition config : M Config := fun w => (Ok (_config w), w).

Definition getCurrentPages : M (list Wx.Page) := fun w => (Ok (Wx.pages (host w)), w).

Definition delay (ms : Z) : M unit := emit (Delay ms).

(** A call that is not awaited: the caller does not see how it ends.  The
    model runs it to its end before the caller goes on. *)
Definition detached {A} (m : M A) : M unit :=
  fun w => (Ok tt, snd (m w)).

(** ** The history object *)

Definition history_open (r : Route) : M unit :=
  fun w => (emit (HistoryOpen r) ;;
            setHistory (open r (Wx.pages (host w)) (_history w))) w.

Definition history_replace (r : Route) : M unit :=
  fun w => (emit (HistoryReplace r) ;; setHistory (replace r (_history w))) w.

Definition history_savePage (index : Z) (p : Wx.Page) : M unit :=
  fun w => (emit (HistorySavePage index p) ;;
            setHistory (savePage index p (_history w))) w.

Definition history_back (opts : BackOpts) : M Route :=
  fun w => let (target, h) := back opts (_history w) in
           (emit (HistoryBack opts) ;; setHistory h ;; ret target) w.

Definition history_length : M Z := fun w => (Ok (length (_history w)), w).

(** ** The promisified primitives *)

(** Modelled from the spec: [customWxPromisify] lives in [wxPromise.js], which
    is not among the sources.  It is the "callback-to-promise adapter" around
    the raw primitives, whose results are [{succeeded, errMsg}]: with
    [dealFail] a failed call resolves to its result, without it the promise
    is rejected with it. *)
Definition customWxPromisify (dealFail : bool) (ev : Wx.WxRes -> Event)
  (api : Wx.Host -> Wx.WxRes * Wx.Host) : M Wx.WxRes :=
  fun w =>
    let (r, h) := api (host w) in
    (setHost h ;; emit (ev r) ;;
     if Wx.succeeded r || dealFail then ret r else throw (Failure r)) w.

Definition wxPromise := customWxPromisify false.
Definition wxResolve := customWxPromisify true.

(** ** The physical operations *)

Definition _secretReplace (route : Route) (extraParams : option ExtraParams) : M unit :=
  setActiveUnload true ;;
  let u := appendUrlParam (url route) extraParams in
  wxPromise (WxRedirectTo u) (Wx.redirectTo u) ;;
  delay NAV_BUSY_REMAIN.

Definition _secretBack (opts : BackOpts) : M unit :=
  setActiveUnload true ;;
  wxPromise (WxNavigateBack (delta opts)) (Wx.navigateBack (delta opts)) ;;
  fun w => delay (match Wx.os (host w) with
                  | Wx.ios => NAV_BUSY_REMAIN * 3
                  | Wx.android => NAV_BUSY_REMAIN
                  end) w.

(** [_secretOpen] calls itself after a failed attempt.  Every attempt takes
    one entry off the host's script of failures, so the number of attempts is
    bounded by the length of that script plus one; [fuel] counts the attempts
    still allowed. *)
Fixpoint _secretOpen_loop (fuel : nat) (route : Route)
  (retryAfter retryTimeout : Z) (extraParams : option ExtraParams) : M unit :=
  match fuel with
  | O => throw OutOfFuel
  | S fuel' =>
      let u := appendUrlParam (url route) extraParams in
      openRes <- wxResolve (WxNavigateTo u) (Wx.navigateTo u) ;;
      if Wx.succeeded openRes then
        delay NAV_BUSY_REMAIN
      else if includes "limit exceed" (Wx.errMsg openRes) then
        curPages <- getCurrentPages ;;
        cfg <- config ;;
        if (MAX_LEVEL cfg <=? Z.of_nat (List.length curPages))%Z then
          _secretReplace route extraParams
        else if (retryAfter <? retryTimeout)%Z then
          delay retryAfter ;;
          _secretOpen_loop fuel' route (retryAfter * 2) retryTimeout extraParams
        else
          throw (Failure openRes)
      else
        throw (Failure openRes)
  end.

Definition _secretOpen (route : Route) (retryAfter retryTimeout : Z)
  (extraParams : option ExtraParams) : M unit :=
  fun w =>
    _secretOpen_loop (S (List.length (Wx.faults (host w))))
      route retryAfter retryTimeout extraParams w.

(** The defaults of [_secretOpen]'s option object. *)
Definition retryAfter_default : Z := NAV_BUSY_REMAIN.
Definition retryTimeout_default : Z := 2000.

(** ** Restoring page data *)

(** [res && res.succeeded]. *)
Definition reportsSuccess (r : Restored) : bool :=
  match r with
  | NoReport => false
  | Report b => b
  end.

Definition _doTaintedRestore (route : Route) : M unit :=
  cfg <- config ;;
  res <- match pageRestoreHandler cfg with
         | None => ret NoReport
         | Some handler =>
             emit (PageRestoreHandler route "tainted") ;;
             match handler route "tainted"%string with
             | Returns r => ret r
             | ReturnsPromise r => ret r
             | ReturnsRejected e => throw (HandlerError e)
             | Raises e => throw (HandlerError e)
             end
         end ;;
  if reportsSuccess res then ret tt
  else _secretReplace route _forcedRefresh.

Definition _doLostRestore (route : Route) : M unit :=
  cfg <- config ;;
  match pageRestoreHandler cfg with
  | None => ret tt
  | Some handler =>
      emit (PageRestoreHandler route "unloaded") ;;
      match handler route "unloaded"%string with
      | Raises e => throw (HandlerError e)
      | _ => ret tt
      end
  end.

(** ** Going back *)

Definition _doBack (opts : BackOpts) (sysBack : bool) : M unit :=
  targetRoute <- history_back opts ;;
  curPages <- getCurrentPages ;;
  let curLength := (Z.of_nat (List.length curPages) - (if sysBack then 1 else 0))%Z in
  cfg <- config ;;
  hisLength <- history_length ;;
  let targetCurtain := enableCurtain cfg && (hisLength =? MAX_LEVEL cfg - 1)%Z in
  let targetTainted := enableTaintedRestore cfg && tainted targetRoute in
  if (hisLength <? curLength)%Z then
    _secretBack {| delta := curLength - hisLength |} ;;
    if targetCurtain then
      _secretReplace targetRoute _forcedRefresh ;;
      _doLostRestore targetRoute
    else if targetTainted then
      _doTaintedRestore targetRoute
    else ret tt
  else if (hisLength =? curLength)%Z then
    if negb sysBack || targetCurtain then
      _secretReplace targetRoute _forcedRefresh ;;
      _doLostRestore targetRoute
    else if targetTainted then
      _doTaintedRestore targetRoute
    else ret tt
  else
    (if sysBack
     then _secretOpen targetRoute retryAfter_default retryTimeout_default _forcedRefresh
     else _secretReplace targetRoute _forcedRefresh) ;;
    _doLostRestore targetRoute.

Definition navigateBack (opts : BackOpts) : M Wx.WxRes :=
  _doBack opts false ;;
  ret {| Wx.succeeded := true; Wx.errMsg := "ok" |}.

(** ** Opening and replacing *)

(** [navigateTo], [redirectTo] and [navigateBack] are the functions as they
    are written.  Their decorators stay outside: [supportWXCallback] is not
    among the sources, and [makeMutex] is the template of Part I.a in
    [discard] mode, which runs the function when the lock is free. *)

(** [curPages[curPages.length-1]], and the read of [curPage.route]. *)
Definition curPageRoute (curPages : list Wx.Page) : M (Wx.Page * string) :=
  match rev curPages with
  | curPage :: _ => ret (curPage, orElse (Wx.route curPage) (Wx.__route__ curPage))
  | [] => throw TypeError
  end.

Definition navigateTo (route : Route) : M Wx.WxRes :=
  curPages <- getCurrentPages ;;
  cur <- curPageRoute curPages ;;
  let (curPage, curRoute) := cur in
  history_open (mkRoute (toAbsolutePath (url route) curRoute)) ;;
  cfg <- config ;;
  let n := Z.of_nat (List.length curPages) in
  (if enableCurtain cfg && (n =? MAX_LEVEL cfg - 1)%Z then
     len <- history_length ;;
     history_savePage (len - 2) curPage ;;
     _secretReplace (mkRoute (curtainPage cfg)) None ;;
     _secretOpen route retryAfter_default retryTimeout_default None
   else if (n <? MAX_LEVEL cfg)%Z then
     _secretOpen route retryAfter_default retryTimeout_default None
   else
     len <- history_length ;;
     history_savePage (len - 2) curPage ;;
     _secretReplace route None) ;;
  ret {| Wx.succeeded := true; Wx.errMsg := "ok" |}.

Definition redirectTo (route : Route) : M Wx.WxRes :=
  curPages <- getCurrentPages ;;
  cur <- curPageRoute curPages ;;
  history_replace (mkRoute (toAbsolutePath (url route) (snd cur))) ;;
  _secretReplace route None ;;
  ret {| Wx.succeeded := true; Wx.errMsg := "ok" |}.

(** ** Page teardown *)

(** The body of [_finishActiveUnload] is an [async] function: applied, it
    returns a promise, which is fulfilled once [delay(300)] has elapsed and
    the flag has been cleared. *)
Definition finishActiveUnload_oriFunc (c : NoConcurrent.Caller)
  : NoConcurrent.Res unit :=
  NoConcurrent.Promise (NoConcurrent.Fulfilled tt).

(** [_finishActiveUnload] as decorated by [noConcurrent], that is the
    template in [discard] mode with [discardRes] undefined and a lock of its
    own.  A body that is started stays in flight, waiting for its delay. *)
Definition _finishActiveUnload : M unit :=
  fun w =>
    let c := List.length (NoConcurrent.log (finishLock w)) in
    setFinishLock
      (NoConcurrent.call tt tt finishActiveUnload_oriFunc
         NoConcurrent.discard c (finishLock w)) w.

(** The delayed clears that are scheduled and have not run. *)
Definition scheduledClears (w : World) : list NoConcurrent.Caller :=
  NoConcurrent.inflight (finishLock w).

(** [delay(300)] elapses for the body started for [c]: the flag is cleared,
    the body returns, and the decorator releases the lock. *)
Definition delayElapsed (c : NoConcurrent.Caller) : M unit :=
  fun w =>
    if existsb (Nat.eqb c) (scheduledClears w) then
      (setActiveUnload false ;;
       setFinishLock
         (NoConcurrent.settle finishActiveUnload_oriFunc c (finishLock w))) w
    else (Ok tt, w).

Definition onPageUnload : M unit :=
  fun w =>
    if _activeUnload w then detached _finishActiveUnload w
    else detached (_doBack {| delta := 1 |} true) w.

(** ** Names for what the statements below talk about *)

(** The entry [navigateTo] and [redirectTo] write for [route] when [curPage]
    is the top page. *)
Definition entry (route : Route) (curPage : Wx.Page) : Route :=
  mkRoute (toAbsolutePath (url route)
             (orElse (Wx.route curPage) (Wx.__route__ curPage))).

(** What [_doBack] compares: the target [history.back] returns, the world
    once the history is popped, the logical length [L] after the pop and the
    physical length [P], one less for a system back. *)
Definition backTarget (opts : BackOpts) (w : World) : Route :=
  fst (back opts (_history w)).

Definition afterHistoryBack (opts : BackOpts) (w : World) : World :=
  withHistory (snd (back opts (_history w))) (logging [HistoryBack opts] w).

Definition logicalLength (opts : BackOpts) (w : World) : Z :=
  length (snd (back opts (_history w))).

Definition physicalLength (sysBack : bool) (w : World) : Z :=
  (Z.of_nat (List.length (Wx.pages (host w))) - (if sysBack then 1 else 0))%Z.

Definition targetCurtain (opts : BackOpts) (w : World) : bool :=
  enableCurtain (_config w)
  && (logicalLength opts w =? MAX_LEVEL (_config w) - 1)%Z.

Definition targetTainted (opts : BackOpts) (w : World) : bool :=
  enableTaintedRestore (_config w) && tainted (backTarget opts w).

(** A burst of teardown notifications. *)
Fixpoint teardowns (n : nat) (w : World) : World :=
  match n with
  | O => w
  | S n' => teardowns n' (snd (onPageUnload w))
  end.

(** The pops a trace holds. *)
Fixpoint pops (es : list Event) : list Z :=
  match es with
  | [] => []
  | WxNavigateBack d _ :: es' => d :: pops es'
  | _ :: es' => pops es'
  end.

(** The events of opening, replacing and restoring: no pop among them and
    nothing that touches the history. *)
Definition isForward (e : Event) : bool :=
  match e with
  | WxNavigateTo _ _ | WxRedirectTo _ _ | Delay _ | PageRestoreHandler _ _ => true
  | _ => false
  end.

(** A computation that leaves the history and the configuration alone, does
    not close the last page, and only adds forward events to the trace. *)
Definition Forward {A} (m : M A) : Prop :=
  forall w,
    _history (snd (m w)) = _history w
    /\ _config (snd (m w)) = _config w
    /\ (Wx.pages (host w) <> [] -> Wx.pages (host (snd (m w))) <> [])
    /\ exists es, trace (snd (m w)) = trace w ++ es /\ forallb isForward es = true.

(** A run of [navigateTo] calls, one after the other, whatever their results. *)
Fixpoint opens (rs : list Route) (w : World) : World :=
  match rs with
  | [] => w
  | r :: rs' => opens rs' (snd (navigateTo r w))
  end.

(** ** Resetting the stack *)

(** Modelled from the spec: [wxPromise.reLaunch] and [wxPromise.switchTab]
    are made by [customWxPromisify], which is not among the sources; as for
    [wxPromise], a call the platform refuses rejects the promise with the
    platform's result.  The trace lists the calls that open, replace and
    close single pages; it has no event for these two, whose effect shows
    in the host. *)
Definition wxPromiseReset (api : Wx.Host -> Wx.WxRes * Wx.Host) : M Wx.WxRes :=
  fun w =>
    let (r, h) := api (host w) in
    (setHost h ;; if Wx.succeeded r then ret r else throw (Failure r)) w.

(** [reLaunch] and [switchTab] are the functions as they are written; their
    decorators stay outside, as those of [navigateTo] do. *)
Definition reLaunch (route : Route) : M Wx.WxRes :=
  setActiveUnload true ;;
  wxPromiseReset (Wx.reLaunch (url route)) ;;
  delay NAV_BUSY_REMAIN ;;
  ret {| Wx.succeeded := true; Wx.errMsg := "ok" |}.

Definition switchTab (route : Route) : M Wx.WxRes :=
  setActiveUnload true ;;
  wxPromiseReset (Wx.switchTab (url route)) ;;
  delay NAV_BUSY_REMAIN ;;
  ret {| Wx.succeeded := true; Wx.errMsg := "ok" |}.

(** ** Names for further statements *)

(** The depth of the physical stack. *)
Definition depth (w : World) : Z := Z.of_nat (List.length (Wx.pages (host w))).

(** The attempts to open a page that a trace holds. *)
Fixpoint attempts (es : list Event) : nat :=
  match es with
  | [] => 0
  | WxNavigateTo _ _ :: es' => S (attempts es')
  | _ :: es' => attempts es'
  end.

(** The events of opening the page at [u]: the attempts and the delays
    between and after them. *)
Definition isOpening (u : string) (e : Event) : bool :=
  match e with
  | WxNavigateTo u' _ => String.eqb u' u
  | Delay _ => true
  | _ => false
  end.

(** A computation that closes no page, opens at most [k] pages, keeps the
    private lock of [_finishActiveUnload] as it is and does not lower the
    flag of an active unload. *)
Definition Steady (k : Z) {A} (m : M A) : Prop :=
  forall w,
    finishLock (snd (m w)) = finishLock w
    /\ (_activeUnload w = true -> _activeUnload (snd (m w)) = true)
    /\ (Wx.pages (host w) <> [] ->
        (depth w <= depth (snd (m w)) <= depth w + k)%Z).

(** A call the application's code makes, and a run of such calls, one after
    the other, whatever their results. *)
Inductive Action :=
| Opening (route : Route)
| Replacing (route : Route)
| Backing (opts : BackOpts).

Definition perform (a : Action) : M Wx.WxRes :=
  match a with
  | Opening route => navigateTo route
  | Replacing route => redirectTo route
  | Backing opts => navigateBack opts
  end.

Fixpoint session (acts : list Action) (w : World) : World :=
  match acts with
  | [] => w
  | a :: acts' => session acts' (snd (perform a w))
  end.

End WithHistory.

Arguments World H : clear implicits.
Arguments M H A : clear implicits.

Declare Scope nav_scope.
Delimit Scope nav_scope with nav.
Notation "x <- m ;; k" := (bind m (fun x => k))
  (at level 61, m at next level, right associativity) : nav_scope.
Notation "m ;; k" := (bind m (fun _ => k))
  (at level 61, right associativity) : nav_scope.

End Navigator.

(* ################################################################# *)
(** * Part I.e  Concrete operations, hosts and histories *)

Module Examples.

Import History Navigator.
Local Open Scope string_scope.

(** ** For the decorators *)

(** An operation whose promise is rejected with 7, and one whose promise is
    fulfilled with the number of its caller. *)
Definition rejecting (c : NoConcurrent.Caller) : NoConcurrent.Res nat :=
  NoConcurrent.Promise (NoConcurrent.Rejected 7).

Definition answering (c : NoConcurrent.Caller) : NoConcurrent.Res nat :=
  NoConcurrent.Promise (NoConcurrent.Fulfilled c).

(** ** For the navigator *)

(** Paths are taken as they are; parameters are appended as a query. *)
Definition kit : OperationKit :=
  {| toAbsolutePath := fun url _ => url;
     appendUrlParam := fun url extraParams =>
       match extraParams with
       | None => url
       | Some ps =>
           fold_left (fun acc kv => acc ++ "&" ++ fst kv ++ "=" ++ snd kv) ps (url ++ "?")
       end |}.

(** The store of the specification with the correction level [MAX_LEVEL - 2]. *)
Definition store : Store Routes := RoutesStore 8.

Definition limitExceed : string := "navigateTo:fail page limit exceed".

Definition settings (handler : option (Route -> string -> HandlerResult))
  (taintedRestore : bool) : Config :=
  {| enableCurtain := true;
     curtainPage := "/pages/curtain/curtain";
     enableTaintedRestore := taintedRestore;
     pageRestoreHandler := handler;
     MAX_LEVEL := 10 |}.

(** A world with the given configuration, history, stack and failure script. *)
Definition world (cfg : Config) (h : Routes) (urls : list string)
  (script : list (option string)) : World Routes :=
  {| _config := cfg;
     _history := h;
     _activeUnload := false;
     host := {| Wx.pages := map Wx.pageOf urls; Wx.faults := script; Wx.os := Wx.ios |};
     finishLock := NoConcurrent.init;
     trace := [] |}.

(** The application just launched: the root entry and the first page. *)
Definition launched (script : list (option string)) : World Routes :=
  world (settings None true) initial ["/pages/index"] script.

Definition p (n : string) : Route := mkRoute ("/pages/p" ++ n).

(** Eight opens after the launch: nine pages on the stack. *)
Definition ninePages : World Routes :=
  opens (HS := store) (OK := kit)
    [p "1"; p "2"; p "3"; p "4"; p "5"; p "6"; p "7"; p "8"] (launched []).

(** Three entries on three pages; the middle entry may be marked tainted. *)
Definition listEntry (taintedMiddle : bool) : Route :=
  {| url := "/pages/list"; tainted := taintedMiddle; savedPage := None |}.

Definition threeDeep (cfg : Config) (taintedMiddle : bool)
  (script : list (option string)) : World Routes :=
  world cfg
    {| below := [mkRoute EmptyString; listEntry taintedMiddle];
       top := mkRoute "/pages/detail" |}
    ["/pages/index"; "/pages/list"; "/pages/detail"] script.

(** A restore handler whose promise is rejected, and one that reports that
    it could not restore the page. *)
Definition failingHandler (r : Route) (context : string) : HandlerResult :=
  ReturnsRejected "restore failed".

Definition decliningHandler (r : Route) (context : string) : HandlerResult :=
  Returns (Report false).

(** Ten pages on the stack. *)
Definition tenPages (script : list (option string)) : World Routes :=
  world (settings None true) initial
    ["/pages/index"; "/pages/p1"; "/pages/p2"; "/pages/p3"; "/pages/p4";
     "/pages/p5"; "/pages/p6"; "/pages/p7"; "/pages/p8"; "/pages/p9"] script.

Definition back1 : BackOpts := {| delta := 1 |}.

(** A world in which the flag of an active unload is up. *)
Definition unloading : World Routes :=
  withActiveUnload true (launched []).

(** ** For the further statements *)

(** A function that is not [async]: it returns twice the number of its
    caller. *)
Definition doubling (c : NoConcurrent.Caller) : NoConcurrent.Res nat :=
  NoConcurrent.NotPromise (2 * c).

(** A history of five entries over a stack of two pages. *)
Definition deepHistory (cfg : Config) (script : list (option string)) : World Routes :=
  world cfg
    {| below := [mkRoute EmptyString; p "1"; p "2"; p "3"]; top := p "4" |}
    ["/pages/index"; "/pages/p4"] script.

(** Three entries over two pages: the page of the middle entry is gone. *)
Definition threeEntriesTwoPages (cfg : Config) (script : list (option string))
  : World Routes :=
  world cfg
    {| below := [mkRoute EmptyString; listEntry false];
       top := mkRoute "/pages/detail" |}
    ["/pages/index"; "/pages/detail"] script.

(** A configuration with curtain mode switched off. *)
Definition withoutCurtain (cfg : Config) : Config :=
  {| enableCurtain := false;
     curtainPage := curtainPage cfg;
     enableTaintedRestore := enableTaintedRestore cfg;
     pageRestoreHandler := pageRestoreHandler cfg;
     MAX_LEVEL := MAX_LEVEL cfg |}.

(** Nine opens after the launch while curtain mode is off: ten pages, ten
    entries, and no curtain page on the stack. *)
Definition tenPlainPages : World Routes :=
  opens (HS := store) (OK := kit)
    [p "1"; p "2"; p "3"; p "4"; p "5"; p "6"; p "7"; p "8"; p "9"]
    (world (withoutCurtain (settings None true)) initial ["/pages/index"] []).

(** The same pages and entries once curtain mode has been switched on. *)
Definition curtainSwitchedOn : World Routes :=
  world (settings None true) (_history tenPlainPages)
    (map Wx.route (Wx.pages (host tenPlainPages))) [].

(** Ten opens after the launch: the ninth brings in the curtain, the tenth
    replaces the page on top of it.  Ten pages and eleven entries. *)
Definition beyondTheCap : World Routes :=
  opens (HS := store) (OK := kit)
    [p "1"; p "2"; p "3"; p "4"; p "5"; p "6"; p "7"; p "8"; p "9"; p "10"]
    (launched []).

Definition back2 : BackOpts := {| delta := 2 |}.

(** A world whose stack lists no page. *)
Definition noPage : World Routes :=
  world (settings None true) initial [] [].

(** Nine pages on the stack and a platform that follows the given script. *)
Definition ninePagesThen (script : list (option string)) : World Routes :=
  withHost {| Wx.pages := Wx.pages (host ninePages);
              Wx.faults := script;
              Wx.os := Wx.ios |} ninePages.

End Examples.

(* ################################################################# *)
(** * Part II.a  The decorator template: what holds and what does not *)

Module NoConcurrentFacts.

Import NoConcurrent.

Section Facts.

Variable value : Type.
Variables undefined discardRes : value.
Variable oriFunc : Caller -> Res value.

Local Abbreviation run := (run undefined discardRes oriFunc).
Local Abbreviation step := (step undefined discardRes oriFunc).
Local Abbreviation call := (call undefined discardRes oriFunc).
Local Abbreviation start := (start oriFunc).

Lemma run_app (a b : list Event) (st : State value) :
  run (a ++ b) st = run b (run a st).
Proof. apply fold_left_app. Qed.

Lemma run_cons (ev : Event) (evs : list Event) (st : State value) :
  run (ev :: evs) st = run evs (step st ev).
Proof. reflexivity. Qed.

(** While the lock is held, merge and wait callers only queue up. *)
Lemma calls_queue_up (b : bool) (ws : list Caller) :
  forall ls infl js l,
    run (map (Call (parking b)) ws)
        {| statusControl := {| running := true; listeners := ls |};
           inflight := infl; jobs := js; log := l |}
    = {| statusControl := {| running := true;
                             listeners := ls ++ map (parked b) ws |};
         inflight := infl; jobs := js; log := l |}.
Proof.
  induction ws as [|c ws IH]; intros ls infl js l.
  - cbn. now rewrite app_nil_r.
  - cbn [map]. rewrite run_cons.
    replace (step _ (Call (parking b) c))
      with {| statusControl := {| running := true;
                                  listeners := ls ++ [parked b c] |};
              inflight := infl; jobs := js; log := l |}
      by (destruct b; reflexivity).
    rewrite IH, <- app_assoc. reflexivity.
Qed.

(** A queue without blocking listeners is drained to the end and the lock is
    released. *)
Lemma drain_merged (r : bool) (ws : list Caller) :
  handleRunFinish_loop r (map (parked false) ws) = (map (parked false) ws, fresh).
Proof.
  induction ws as [|c ws IH]; cbn; [reflexivity|].
  now rewrite IH.
Qed.

(** A blocking listener at the head of the queue stops the drain. *)
Lemma drain_blocked (r : bool) (c : Caller) (ls : list Listener) :
  handleRunFinish_loop r (parked true c :: ls)
  = ([parked true c], {| running := r; listeners := ls |}).
Proof. reflexivity. Qed.

(** The continuations of merged callers only report the shared result. *)
Lemma ticks_settle_merged (s : Settled value) (ws : list Caller) :
  forall sc infl js l,
    run (repeat Tick (List.length ws))
        {| statusControl := sc; inflight := infl;
           jobs := map (fun c => (parked false c, s)) ws ++ js; log := l |}
    = {| statusControl := sc; inflight := infl; jobs := js;
         log := l ++ map (fun c => Settles c s) ws |}.
Proof.
  induction ws as [|c ws IH]; intros sc infl js l.
  - cbn. now rewrite app_nil_r.
  - cbn [List.length repeat map app]. rewrite run_cons.
    cbn [step tick jobs resume parked block handler say statusControl inflight log].
    unfold say; cbn [statusControl inflight jobs log]. rewrite IH, <- app_assoc. reflexivity.
Qed.

Lemma existsb_eqb_head (c : Caller) (l : list Caller) :
  existsb (Nat.eqb c) (c :: l) = true.
Proof. cbn. now rewrite Nat.eqb_refl. Qed.

Lemma invocations_app (l1 l2 : list (Obs value)) :
  invocations (l1 ++ l2) = invocations l1 ++ invocations l2.
Proof.
  induction l1 as [|o l1 IH]; [reflexivity|].
  destruct o; cbn; now rewrite IH.
Qed.

Lemma invocations_settles (f : Caller -> Settled value) (ws : list Caller) :
  invocations (map (fun c => Settles c (f c)) ws) = [].
Proof. induction ws; cbn; auto. Qed.

(** The first call finds the lock free and starts the operation. *)
Lemma first_call_starts (mode : Mode) (c0 : Caller) (s : Settled value) :
  oriFunc c0 = Promise s ->
  step init (Call mode c0)
  = {| statusControl := {| running := true; listeners := [] |};
       inflight := [c0]; jobs := []; log := [Invoked c0] |}.
Proof.
  intros Hres. cbn [step]. unfold NoConcurrent.call, NoConcurrent.start.
  cbn [init statusControl fresh running]. now rewrite Hres.
Qed.

(** The promise of the only invocation in flight settles. *)
Lemma settle_only (c0 : Caller) (s : Settled value) sc l :
  oriFunc c0 = Promise s ->
  step {| statusControl := sc; inflight := [c0]; jobs := []; log := l |} (Settle c0)
  = {| statusControl := snd (handleRunFinish sc);
       inflight := [];
       jobs := map (fun x => (x, s)) (fst (handleRunFinish sc));
       log := l ++ [Settles c0 s] |}.
Proof.
  intros Hres. cbn [step]. unfold settle. cbn [inflight].
  rewrite existsb_eqb_head, Hres. unfold finish.
  cbn [statusControl inflight jobs log remove_first app resolve].
  rewrite Nat.eqb_refl. now destruct (handleRunFinish sc).
Qed.

(** C1.  Merge mode: when [N] calls are made while one invocation is
    running (the first call [c0] runs it, the callers [ws] find the lock
    held), the wrapped operation is applied exactly once; once it settles,
    every waiting caller settles with the very result of that one
    invocation, a rejection included; and the lock is free again as soon as
    the queue has been drained. *)
Theorem merge_shares_one_invocation
  (c0 : Caller) (ws : list Caller) (s : Settled value) :
  oriFunc c0 = Promise s ->
  let drained := run (map (Call merge) (c0 :: ws) ++ [Settle c0]) init in
  let final := run (repeat Tick (List.length ws)) drained in
  invocations (log final) = [c0]
  /\ log final = [Invoked c0; Settles c0 s] ++ map (fun c => Settles c s) ws
  /\ statusControl drained = fresh
  /\ statusControl final = fresh
  /\ inflight final = [] /\ jobs final = [].
Proof.
  intros Hres drained final.
  assert (Hd : drained =
    {| statusControl := fresh; inflight := [];
       jobs := map (fun c => (parked false c, s)) ws ++ [];
       log := [Invoked c0; Settles c0 s] |}).
  { unfold drained. rewrite run_app. cbn [map].
    rewrite (run_cons (Call merge c0)), (first_call_starts merge Hres).
    rewrite (calls_queue_up false). cbn [app].
    rewrite (run_cons (Settle c0) []), (settle_only _ _ Hres).
    unfold handleRunFinish. cbn [running listeners].
    rewrite drain_merged. cbn [fst snd run fold_left app].
    now rewrite map_map, app_nil_r. }
  assert (Hf : final =
    {| statusControl := fresh; inflight := []; jobs := [];
       log := [Invoked c0; Settles c0 s] ++ map (fun c => Settles c s) ws |}).
  { unfold final. rewrite Hd. apply ticks_settle_merged. }
  rewrite Hf, Hd. cbn [log statusControl inflight jobs].
  repeat split.
  rewrite invocations_app, invocations_settles. reflexivity.
Qed.

(** ** Wait mode *)

Lemma orphaned_step (st : State value) (ev : Event) :
  Orphaned st ->
  Orphaned (step st ev) /\ invocations (log (step st ev)) = invocations (log st).
Proof.
  intros (Hr & Hi & Hj). destruct ev as [mode c|c|]; cbn [step].
  - unfold NoConcurrent.call. rewrite Hr.
    destruct mode; unfold say, push, Orphaned;
      cbn [statusControl running inflight jobs log];
      rewrite ?invocations_app; cbn [invocations]; rewrite ?app_nil_r; auto.
  - unfold settle. rewrite Hi. cbn [existsb]. unfold Orphaned. auto.
  - unfold tick. rewrite Hj. unfold Orphaned. auto.
Qed.

Lemma orphaned_run (evs : list Event) :
  forall st, Orphaned st ->
    Orphaned (run evs st) /\ invocations (log (run evs st)) = invocations (log st).
Proof.
  induction evs as [|ev evs IH]; intros st Hst; [now split|].
  rewrite run_cons. destruct (orphaned_step ev Hst) as [Hst' Hinv].
  destruct (IH _ Hst') as [Hfin Hinv']. split; [assumption|congruence].
Qed.

(** The handoff to a blocking listener when the finished invocation was
    fulfilled: the listener's caller starts the operation and holds the lock. *)
Lemma fulfilled_handoff (c0 c1 : Caller) (rest : list Listener)
  (v : value) (s1 : Settled value) (l : list (Obs value)) :
  oriFunc c0 = Promise (Fulfilled v) ->
  oriFunc c1 = Promise s1 ->
  run [Settle c0; Tick]
      {| statusControl := {| running := true; listeners := parked true c1 :: rest |};
         inflight := [c0]; jobs := []; log := l |}
  = {| statusControl := {| running := true; listeners := rest |};
       inflight := [c1]; jobs := [];
       log := l ++ [Settles c0 (Fulfilled v); Invoked c1] |}.
Proof.
  intros H0 H1. rewrite run_cons, (settle_only _ _ H0).
  unfold handleRunFinish. cbn [running listeners]. rewrite drain_blocked.
  cbn [fst snd map]. rewrite run_cons.
  cbn [run fold_left step tick jobs resume parked block handler].
  unfold NoConcurrent.start. rewrite H1.
  cbn [statusControl listeners inflight jobs log app].
  now rewrite <- app_assoc.
Qed.

(** The same handoff when the finished invocation was rejected. *)
Lemma rejected_handoff (c0 c1 : Caller) (rest : list Listener)
  (e : value) (l : list (Obs value)) :
  oriFunc c0 = Promise (Rejected e) ->
  run [Settle c0; Tick]
      {| statusControl := {| running := true; listeners := parked true c1 :: rest |};
         inflight := [c0]; jobs := []; log := l |}
  = {| statusControl := {| running := true; listeners := rest |};
       inflight := []; jobs := [];
       log := l ++ [Settles c0 (Rejected e); Settles c1 (Rejected e)] |}.
Proof.
  intros H0. rewrite run_cons, (settle_only _ _ H0).
  unfold handleRunFinish. cbn [running listeners]. rewrite drain_blocked.
  cbn [fst snd map]. rewrite run_cons.
  cbn [run fold_left step tick jobs resume parked block handler].
  unfold say. cbn [statusControl listeners inflight jobs log].
  now rewrite <- app_assoc.
Qed.

(** C2 at its failing input.  Wait mode: the callers [c0], [c1] and [ws]
    call while [c0]'s invocation is running, and that invocation rejects.
    The waiting caller [c1] is resolved with the rejected promise: it is
    rejected itself and never applies the operation.  From then on the lock
    stays held with nothing in flight, so whatever happens later the
    operation has been applied once, not once per call. *)
Theorem wait_rejection_starves_the_queue
  (c0 c1 : Caller) (ws : list Caller) (e : value) (later : list Event) :
  oriFunc c0 = Promise (Rejected e) ->
  let stuck := run (map (Call wait) (c0 :: c1 :: ws) ++ [Settle c0; Tick]) init in
  let final := run later stuck in
  log stuck = [Invoked c0; Settles c0 (Rejected e); Settles c1 (Rejected e)]
  /\ statusControl stuck = {| running := true; listeners := map (parked true) ws |}
  /\ invocations (log final) = [c0]
  /\ running (statusControl final) = true
  /\ inflight final = [].
Proof.
  intros H0 stuck final.
  assert (Hs : stuck =
    {| statusControl := {| running := true; listeners := map (parked true) ws |};
       inflight := []; jobs := [];
       log := [Invoked c0] ++ [Settles c0 (Rejected e); Settles c1 (Rejected e)] |}).
  { unfold stuck. rewrite run_app.
    change (map (Call wait) (c0 :: c1 :: ws))
      with (Call wait c0 :: map (Call (parking true)) (c1 :: ws)).
    rewrite (run_cons (Call wait c0)), (first_call_starts wait H0).
    rewrite (calls_queue_up true). cbn [app map].
    exact (rejected_handoff c1 (map (parked true) ws) [Invoked c0] H0). }
  assert (Ho : Orphaned stuck) by (rewrite Hs; repeat split).
  destruct (orphaned_run later Ho) as [(Hr & Hi & _) Hinv].
  fold final in Hr, Hi, Hinv. rewrite Hinv, Hs. cbn [log statusControl app].
  repeat split; assumption.
Qed.

(** C3 at its failing input.  The invocation in flight rejects while a
    blocking (wait mode) listener heads the queue.  The drain itself runs as
    in the success case and hands the lock to that listener, but the
    listener's caller is rejected with the same error instead of applying
    the operation: the lock is left held with nobody to release it, and no
    later event applies the operation again.  ([fulfilled_handoff] is the
    success case.) *)
Theorem rejection_leaves_the_lock_orphaned
  (c0 c1 : Caller) (rest : list Listener) (e : value)
  (l : list (Obs value)) (later : list Event) :
  oriFunc c0 = Promise (Rejected e) ->
  let before :=
    {| statusControl := {| running := true; listeners := parked true c1 :: rest |};
       inflight := [c0]; jobs := []; log := l |} in
  let after := run [Settle c0; Tick] before in
  log after = l ++ [Settles c0 (Rejected e); Settles c1 (Rejected e)]
  /\ statusControl after = {| running := true; listeners := rest |}
  /\ Orphaned after
  /\ invocations (log (run later after)) = invocations l.
Proof.
  intros H0 before after.
  assert (Ha : after = _) by (apply (rejected_handoff c1 rest l H0)).
  assert (Ho : Orphaned after) by (rewrite Ha; repeat split).
  destruct (orphaned_run later Ho) as [_ Hinv].
  rewrite Hinv, Ha. cbn [log statusControl].
  repeat split.
  rewrite invocations_app. cbn. now rewrite app_nil_r.
Qed.

(** ** What does hold in wait mode *)

(** When every invocation is fulfilled the queue is served in arrival order,
    one caller at a time. *)
Lemma wait_chain (ws : list Caller) :
  forall c l,
    (forall x, In x (c :: ws) -> exists v, oriFunc x = Promise (Fulfilled v)) ->
    let final :=
      run (flat_map (fun x => [Settle x; Tick]) (c :: ws))
          {| statusControl := {| running := true; listeners := map (parked true) ws |};
             inflight := [c]; jobs := []; log := l |} in
    statusControl final = fresh /\ inflight final = [] /\ jobs final = []
    /\ invocations (log final) = invocations l ++ ws.
Proof.
  induction ws as [|c1 ws IH]; intros c l Hall final; unfold final.
  - destruct (Hall c (or_introl eq_refl)) as [v Hv].
    cbn [flat_map app]. rewrite run_cons, (settle_only _ _ Hv).
    cbn. rewrite invocations_app. cbn. now rewrite !app_nil_r.
  - destruct (Hall c (or_introl eq_refl)) as [v Hv].
    destruct (Hall c1 (or_intror (or_introl eq_refl))) as [v1 Hv1].
    change (flat_map (fun x => [Settle x; Tick]) (c :: c1 :: ws))
      with ([Settle c; Tick] ++ flat_map (fun x => [Settle x; Tick]) (c1 :: ws)).
    rewrite run_app. cbn [map].
    rewrite (fulfilled_handoff (map (parked true) ws) l Hv Hv1).
    destruct (IH c1 (l ++ [Settles c (Fulfilled v); Invoked c1])%list) as (Hs & Hi & Hj & Hinv).
    { intros x Hx. apply Hall. now right. }
    repeat split; try assumption.
    rewrite Hinv, invocations_app. cbn. now rewrite <- app_assoc.
Qed.

(** X1.  Wait mode when nothing is rejected: the first call runs the
    operation and the calls [ws] made meanwhile are queued; as each
    invocation is fulfilled the lock passes to the caller at the head of the
    queue, which applies the operation in its turn.  The operation is
    applied once per call, in the order of the calls, and the lock is free
    when the last invocation has settled. *)
Lemma wait_serves_in_arrival_order (c0 : Caller) (ws : list Caller) :
  (forall x, In x (c0 :: ws) -> exists v, oriFunc x = Promise (Fulfilled v)) ->
  let final :=
    run (map (Call wait) (c0 :: ws)
         ++ flat_map (fun x => [Settle x; Tick]) (c0 :: ws)) init in
  invocations (log final) = c0 :: ws
  /\ statusControl final = fresh /\ inflight final = [] /\ jobs final = [].
Proof.
  intros Hall final. unfold final.
  destruct (Hall c0 (or_introl eq_refl)) as [v Hv].
  rewrite run_app.
  change (map (Call wait) (c0 :: ws))
    with (Call wait c0 :: map (Call (parking true)) ws).
  rewrite (run_cons (Call wait c0)), (first_call_starts wait Hv).
  rewrite (calls_queue_up true). cbn [app].
  destruct (@wait_chain ws c0 [Invoked c0] Hall) as (Hs & Hi & Hj & Hinv).
  repeat split; assumption.
Qed.

(** Whatever the modes and the schedule, the operation is never applied
    while an earlier application is still in flight. *)
Lemma blockingJobs_app (a b : list (Job value)) :
  blockingJobs (a ++ b) = blockingJobs a + blockingJobs b.
Proof.
  unfold blockingJobs, blocking. now rewrite map_app, filter_app, length_app.
Qed.

Lemma blockingJobs_resolved (s : Settled value) (called : list Listener) :
  blockingJobs (map (fun l => (l, s)) called) = blocking called.
Proof.
  unfold blockingJobs. rewrite map_map. cbn [fst]. now rewrite map_id.
Qed.

Lemma drain_spec (r : bool) (ls : list Listener) :
  (blocking (fst (handleRunFinish_loop r ls)) = 0
   /\ snd (handleRunFinish_loop r ls) = fresh)
  \/ (blocking (fst (handleRunFinish_loop r ls)) = 1
      /\ running (snd (handleRunFinish_loop r ls)) = r).
Proof.
  induction ls as [|x ls IH]; cbn [handleRunFinish_loop].
  - left. now split.
  - destruct (block x) eqn:Hx.
    + right. unfold blocking. cbn. now rewrite Hx.
    + destruct (handleRunFinish_loop r ls) as [called sc].
      unfold blocking in *. cbn [fst snd filter] in *. now rewrite Hx.
Qed.

Lemma finish_exclusive (res : Res value) (st : State value) :
  running (statusControl st) = true ->
  inflight st = [] ->
  blockingJobs (jobs st) = 0 ->
  Exclusive (finish res st).
Proof.
  intros Hr Hi Hj. unfold finish, handleRunFinish.
  destruct (drain_spec (running (statusControl st)) (listeners (statusControl st)))
    as [[Hb Hs]|[Hb Hs]];
    destruct (handleRunFinish_loop _ _) as [called sc]; cbn [fst snd] in Hb, Hs;
    unfold Exclusive; cbn [statusControl inflight jobs];
    rewrite blockingJobs_app, blockingJobs_resolved, Hb, Hj, Hi; cbn [List.length].
  - subst sc. split; [intros _; repeat split|]; lia.
  - rewrite Hs, Hr. split; [discriminate|lia].
Qed.

Lemma start_exclusive (c : Caller) (st : State value) :
  inflight st = [] ->
  blockingJobs (jobs st) = 0 ->
  Exclusive (start c st).
Proof.
  intros Hi Hj. unfold NoConcurrent.start. destruct (oriFunc c) as [s|v].
  - unfold Exclusive. cbn [statusControl running inflight jobs].
    rewrite Hi, Hj. cbn. split; [discriminate|lia].
  - now apply finish_exclusive.
Qed.

Lemma existsb_eqb_singleton (c x : Caller) :
  existsb (Nat.eqb c) [x] = true -> x = c.
Proof.
  cbn. rewrite orb_false_r. intros Heq. symmetry. now apply Nat.eqb_eq.
Qed.

Lemma exclusive_step (st : State value) (ev : Event) :
  Exclusive st -> Exclusive (step st ev).
Proof.
  intros [Hidle Hone]. destruct ev as [mode c|c|]; cbn [step].
  - unfold NoConcurrent.call. destruct (running (statusControl st)) eqn:Hr.
    + destruct mode; unfold say, push, Exclusive;
        cbn [statusControl running inflight jobs]; (split; [intros; congruence|assumption]).
    + destruct (Hidle eq_refl) as (_ & Hi & Hj). now apply start_exclusive.
  - unfold settle. destruct (existsb (Nat.eqb c) (inflight st)) eqn:Hex;
      [|now split].
    destruct (oriFunc c) as [s|v]; [|now split].
    destruct (inflight st) as [|x [|y rest]] eqn:Hi;
      [discriminate | | cbn [List.length] in Hone; lia].
    apply existsb_eqb_singleton in Hex. subst x.
    cbn [List.length] in Hone.
    apply finish_exclusive; cbn [statusControl inflight jobs remove_first].
    + destruct (running (statusControl st)); [reflexivity|].
      destruct (Hidle eq_refl) as (_ & Habs & _). discriminate.
    + now rewrite Nat.eqb_refl.
    + lia.
  - unfold tick. destruct (jobs st) as [|[l s] rest] eqn:Hj;
      [unfold Exclusive; rewrite Hj; now split|].
    unfold blockingJobs, blocking in Hone, Hidle.
    cbn [resume map fst filter] in *.
    destruct (block l) eqn:Hb; cbn [List.length] in *.
    + assert (Hi : inflight st = []) by (destruct (inflight st); [reflexivity|cbn in Hone; lia]).
      assert (Hrest : blockingJobs rest = 0) by (unfold blockingJobs, blocking; lia).
      destruct s as [v|e].
      * now apply start_exclusive.
      * unfold say, Exclusive. cbn [statusControl inflight jobs].
        rewrite Hi, Hrest. cbn [List.length]. split; [|lia].
        intros Hr. destruct (Hidle Hr) as (_ & _ & Habs). discriminate.
    + unfold say, Exclusive. cbn [statusControl inflight jobs].
      split; assumption.
Qed.

(** X2.  Mutual exclusion.  Whatever the schedule of calls, settlements and
    resumptions, whatever the modes of the calls and whatever the results of
    the operation, at most one invocation is in flight at any time: the
    operation is never applied while an earlier application has not
    settled. *)
Lemma never_two_in_flight (evs : list Event) :
  List.length (inflight (run evs init)) <= 1.
Proof.
  assert (H : forall st, Exclusive st -> Exclusive (run evs st)).
  { induction evs as [|ev evs IH]; intros st Hst; [assumption|].
    rewrite run_cons. apply IH. now apply exclusive_step. }
  destruct (H init) as [_ Hone].
  - split; [now repeat split|cbn; lia].
  - lia.
Qed.

Local Abbreviation turnedAway := (turnedAway undefined discardRes).

(** ** The drain *)

Lemma drain_prefix (r : bool) (ls : list Listener) :
  fst (handleRunFinish_loop r ls) ++ listeners (snd (handleRunFinish_loop r ls)) = ls.
Proof.
  induction ls as [|x ls IH]; cbn [handleRunFinish_loop]; [reflexivity|].
  destruct (block x); [reflexivity|].
  destruct (handleRunFinish_loop r ls) as [called sc]. cbn [fst snd app] in *.
  now rewrite IH.
Qed.

Lemma drain_passes_the_merged (r : bool) (ls : list Listener) :
  forallb (fun l => negb (block l)) (removelast (fst (handleRunFinish_loop r ls))) = true.
Proof.
  induction ls as [|x ls IH]; cbn [handleRunFinish_loop]; [reflexivity|].
  destruct (block x) eqn:Hx; [reflexivity|].
  destruct (handleRunFinish_loop r ls) as [called sc]. cbn [fst snd] in *.
  destruct called as [|y called]; [reflexivity|].
  cbn [removelast forallb] in *. now rewrite Hx.
Qed.

Lemma drain_releases (r : bool) (ls : list Listener) :
  existsb block ls = false ->
  handleRunFinish_loop r ls = (ls, fresh).
Proof.
  induction ls as [|x ls IH]; cbn [handleRunFinish_loop existsb]; [reflexivity|].
  intros Hex. apply orb_false_elim in Hex. destruct Hex as [Hx Hls].
  now rewrite Hx, (IH Hls).
Qed.

Lemma drain_hands_over (r : bool) (ls : list Listener) :
  existsb block ls = true ->
  running (snd (handleRunFinish_loop r ls)) = r
  /\ exists before l,
       fst (handleRunFinish_loop r ls) = before ++ [l] /\ block l = true.
Proof.
  induction ls as [|x ls IH]; cbn [handleRunFinish_loop existsb]; [discriminate|].
  destruct (block x) eqn:Hx.
  - intros _. split; [reflexivity|]. now exists [], x.
  - cbn [orb]. intros Hex. destruct (IH Hex) as (Hr & before & l & Hc & Hl).
    destruct (handleRunFinish_loop r ls) as [called sc]. cbn [fst snd] in *.
    split; [assumption|]. exists (x :: before), l. now rewrite Hc.
Qed.

(** X3.  [handleRunFinish] calls the handlers of a prefix of the queue, in queue
    order, and leaves the rest queued.  Every handler it calls but the last
    belongs to a listener that does not block.  With no blocking listener in
    the queue it calls them all and releases the lock; otherwise the last
    handler it calls is that of the first blocking listener, and [running]
    is left as it was. *)
Theorem drain_stops_at_the_first_blocking_listener (sc : StatusControl) :
  let called := fst (handleRunFinish sc) in
  let left := snd (handleRunFinish sc) in
  called ++ listeners left = listeners sc
  /\ forallb (fun l => negb (block l)) (removelast called) = true
  /\ (existsb block (listeners sc) = false ->
      called = listeners sc /\ left = fresh)
  /\ (existsb block (listeners sc) = true ->
      running left = running sc
      /\ exists before l, called = before ++ [l] /\ block l = true).
Proof.
  unfold handleRunFinish. cbn zeta. split; [apply drain_prefix|].
  split; [apply drain_passes_the_merged|]. split.
  - intros Hex. now rewrite (drain_releases _ _ Hex).
  - apply drain_hands_over.
Qed.

(** ** Calls that are turned away *)

Lemma calls_turned_away (mode : Mode) (ws : list Caller) :
  mode = discard \/ mode = unknown ->
  forall ls infl js l,
    run (map (Call mode) ws)
        {| statusControl := {| running := true; listeners := ls |};
           inflight := infl; jobs := js; log := l |}
    = {| statusControl := {| running := true; listeners := ls |};
         inflight := infl; jobs := js;
         log := l ++ map (fun c => Settles c (Fulfilled (turnedAway mode))) ws |}.
Proof.
  intros Hmode.
  induction ws as [|c ws IH]; intros ls infl js l.
  - cbn. now rewrite app_nil_r.
  - cbn [map]. rewrite run_cons.
    replace (step _ (Call mode c))
      with {| statusControl := {| running := true; listeners := ls |};
              inflight := infl; jobs := js;
              log := l ++ [Settles c (Fulfilled (turnedAway mode))] |}
      by (destruct Hmode; subst mode; reflexivity).
    rewrite IH, <- app_assoc. reflexivity.
Qed.

Lemma invocations_start (c : Caller) (st : State value) :
  invocations (log (start c st)) = invocations (log st) ++ [c].
Proof.
  unfold NoConcurrent.start. destruct (oriFunc c) as [s|v].
  - cbn [log]. now rewrite invocations_app.
  - unfold finish. destruct (handleRunFinish _) as [called sc].
    cbn [log]. now rewrite invocations_app.
Qed.

(** X4.  A call in [discard] mode, or in a mode the template does not know, that
    finds the lock held returns at once, with [discardRes] or with nothing:
    the operation is not applied for it and it leaves nothing in the queue.
    The call that found the lock free runs the operation whatever its mode.
    When that invocation settles, fulfilled or rejected, the lock is free,
    and the next call applies the operation again. *)
Theorem calls_on_a_held_lock_are_turned_away
  (m0 mode : Mode) (c0 c1 : Caller) (ws : list Caller) (s : Settled value) :
  mode = discard \/ mode = unknown ->
  oriFunc c0 = Promise s ->
  let busy := run (Call m0 c0 :: map (Call mode) ws) init in
  let released := run [Settle c0] busy in
  log busy = Invoked c0 :: map (fun c => Settles c (Fulfilled (turnedAway mode))) ws
  /\ statusControl busy = {| running := true; listeners := [] |}
  /\ inflight busy = [c0]
  /\ log released = log busy ++ [Settles c0 s]
  /\ statusControl released = fresh
  /\ inflight released = [] /\ jobs released = []
  /\ invocations (log (run [Call mode c1] released)) = [c0; c1].
Proof.
  intros Hmode Hres busy released.
  assert (Hb : busy =
    {| statusControl := {| running := true; listeners := [] |};
       inflight := [c0]; jobs := [];
       log := [Invoked c0]
              ++ map (fun c => Settles c (Fulfilled (turnedAway mode))) ws |}).
  { unfold busy. rewrite (run_cons (Call m0 c0)), (first_call_starts m0 Hres).
    now apply calls_turned_away. }
  assert (Hr : released =
    {| statusControl := fresh; inflight := []; jobs := [];
       log := log busy ++ [Settles c0 s] |}).
  { unfold released. rewrite Hb. rewrite (run_cons (Settle c0) []).
    rewrite (settle_only _ _ Hres). reflexivity. }
  rewrite Hr, Hb. cbn [log statusControl inflight jobs app].
  repeat split.
  rewrite (run_cons (Call mode c1) []). cbn [NoConcurrent.run fold_left NoConcurrent.step].
  unfold NoConcurrent.call. cbn [statusControl fresh running].
  rewrite invocations_start. cbn [log].
  change (Invoked c0 :: ?l ++ [Settles c0 s])
    with ([Invoked c0] ++ l ++ [Settles c0 s]).
  rewrite !invocations_app, invocations_settles. reflexivity.
Qed.

(** ** Sync usage *)

Lemma sync_step (f : Caller -> value) (st : State value) (ev : Event) :
  (forall c, oriFunc c = NotPromise (f c)) ->
  Idle st ->
  Idle (step st ev)
  /\ log (step st ev)
     = log st ++ flat_map (fun c => [Invoked c; SyncUsage c; Settles c (Fulfilled (f c))])
                  (callsOf [ev]).
Proof.
  intros Hsync (Hsc & Hi & Hj). destruct ev as [mode c|c|]; cbn [step callsOf flat_map app].
  - unfold NoConcurrent.call. rewrite Hsc. cbn [fresh running].
    unfold NoConcurrent.start. rewrite Hsync. unfold finish, handleRunFinish.
    cbn [statusControl running listeners]. rewrite Hsc. cbn [fresh listeners].
    cbn [handleRunFinish_loop map inflight jobs log]. unfold Idle.
    cbn [statusControl inflight jobs log]. rewrite Hi, Hj. repeat split.
  - unfold settle. rewrite Hi. cbn. rewrite app_nil_r. now repeat split.
  - unfold tick. rewrite Hj. cbn. rewrite app_nil_r. now repeat split.
Qed.

Lemma callsOf_cons (ev : Event) (evs : list Event) :
  callsOf (ev :: evs) = callsOf [ev] ++ callsOf evs.
Proof. unfold callsOf. cbn [flat_map]. now rewrite app_nil_r. Qed.

Lemma sync_run (f : Caller -> value) (evs : list Event) :
  (forall c, oriFunc c = NotPromise (f c)) ->
  forall st, Idle st ->
    Idle (run evs st)
    /\ log (run evs st)
       = log st ++ flat_map (fun c => [Invoked c; SyncUsage c; Settles c (Fulfilled (f c))])
                    (callsOf evs).
Proof.
  intros Hsync. induction evs as [|ev evs IH]; intros st Hst.
  - cbn. now rewrite app_nil_r.
  - rewrite run_cons. destruct (@sync_step f st ev Hsync Hst) as [Hst' Hlog].
    destruct (IH _ Hst') as [Hfin Hlog']. split; [assumption|].
    rewrite Hlog', Hlog, (callsOf_cons ev evs), flat_map_app, <- app_assoc. reflexivity.
Qed.

(** X5.  When the wrapped function is not [async] (it returns a plain value),
    the lock is released before the call returns: whatever the modes and
    the schedule, every call applies the function, reports the sync usage
    and is answered with the function's value, in the order of the calls,
    and the lock is never found held. *)
Theorem sync_usage_runs_every_call (f : Caller -> value) (evs : list Event) :
  (forall c, oriFunc c = NotPromise (f c)) ->
  let st := run evs init in
  statusControl st = fresh /\ inflight st = [] /\ jobs st = []
  /\ log st
     = flat_map (fun c => [Invoked c; SyncUsage c; Settles c (Fulfilled (f c))])
         (callsOf evs).
Proof.
  intros Hsync st.
  destruct (@sync_run f evs Hsync init) as [(H1 & H2 & H3) Hlog];
    [now repeat split|].
  now repeat split.
Qed.

(** ** Without [wait], no orphaned lock *)

Lemma blocking_app (a b : list Listener) : blocking (a ++ b) = blocking a + blocking b.
Proof. unfold blocking. now rewrite filter_app, length_app. Qed.

Lemma blocking_none (ls : list Listener) : blocking ls = 0 -> existsb block ls = false.
Proof.
  induction ls as [|x ls IH]; [reflexivity|]. unfold blocking in *. cbn.
  destruct (block x); cbn; [discriminate|auto].
Qed.

Local Abbreviation HeldWhileRunning := (HeldWhileRunning oriFunc).
Local Abbreviation Idle := (@Idle value).

Lemma held_finish (res : Res value) (st : State value) :
  blocking (listeners (statusControl st)) = 0 ->
  blockingJobs (jobs st) = 0 ->
  inflight st = [] ->
  HeldWhileRunning (finish res st).
Proof.
  intros Hl Hj Hi. unfold finish, handleRunFinish.
  rewrite (drain_releases _ _ (blocking_none _ Hl)).
  unfold NoConcurrent.HeldWhileRunning. cbn [statusControl inflight jobs fresh running listeners].
  rewrite blockingJobs_app, blockingJobs_resolved, Hj, Hl, Hi.
  repeat split; discriminate.
Qed.

Lemma held_start (c : Caller) (st : State value) :
  listeners (statusControl st) = [] ->
  blockingJobs (jobs st) = 0 ->
  inflight st = [] ->
  HeldWhileRunning (start c st).
Proof.
  intros Hl Hj Hi. unfold NoConcurrent.start. destruct (oriFunc c) as [s|v] eqn:Hres.
  - unfold NoConcurrent.HeldWhileRunning. cbn [statusControl inflight jobs running listeners].
    rewrite Hl, Hj, Hi. repeat split; try discriminate. intros _. now exists c, s.
  - apply held_finish; cbn [statusControl listeners jobs inflight]; try assumption.
    now rewrite Hl.
Qed.

Lemma held_step (st : State value) (ev : Event) :
  usesWait [ev] = false ->
  HeldWhileRunning st -> HeldWhileRunning (step st ev).
Proof.
  intros Hev Hst. pose proof Hst as (Hl & Hj & Hrun & Hfree).
  destruct ev as [mode c|c|]; cbn [step].
  - unfold NoConcurrent.call. destruct (running (statusControl st)) eqn:Hr.
    + destruct mode; try discriminate Hev;
        unfold say, push, NoConcurrent.HeldWhileRunning;
        cbn [statusControl running listeners inflight jobs];
        rewrite ?blocking_app, ?Hl;
        (split; [reflexivity|split; [assumption|split; [intros _; now apply Hrun|]]]);
        rewrite Hr; discriminate.
    + destruct (Hfree eq_refl) as [Hls Hi]. now apply held_start.
  - unfold settle. destruct (existsb (Nat.eqb c) (inflight st)) eqn:Hex;
      [|exact Hst].
    destruct (oriFunc c) as [s|v]; [|exact Hst].
    assert (Hi : inflight st = [c]).
    { destruct (running (statusControl st)).
      - destruct (Hrun eq_refl) as (c' & s' & Hc' & _). rewrite Hc' in Hex.
        apply existsb_eqb_singleton in Hex. now subst c'.
      - destruct (Hfree eq_refl) as [_ Hi]. rewrite Hi in Hex. discriminate. }
    apply held_finish; cbn [statusControl inflight jobs]; try assumption.
    rewrite Hi. cbn. now rewrite Nat.eqb_refl.
  - unfold tick. destruct (jobs st) as [|[l s] rest] eqn:Hjobs; [exact Hst|].
    unfold blockingJobs, blocking in Hj. cbn [map fst filter] in Hj.
    destruct (block l) eqn:Hb; [discriminate|].
    cbn [resume]. rewrite Hb. unfold say, NoConcurrent.HeldWhileRunning.
    cbn [statusControl inflight jobs].
    exact (conj Hl (conj Hj (conj Hrun Hfree))).
Qed.

Lemma usesWait_cons (ev : Event) (evs : list Event) :
  usesWait (ev :: evs) = usesWait [ev] || usesWait evs.
Proof. unfold usesWait. cbn. now rewrite orb_false_r. Qed.

Lemma held_run (evs : list Event) :
  usesWait evs = false ->
  forall st, HeldWhileRunning st -> HeldWhileRunning (run evs st).
Proof.
  induction evs as [|ev evs IH]; intros Hevs st Hst; [assumption|].
  rewrite usesWait_cons in Hevs. apply orb_false_elim in Hevs.
  destruct Hevs as [Hev Hevs]. rewrite run_cons. apply IH; [assumption|].
  now apply held_step.
Qed.

(** X6.  For a wrapped function that is [async], so that every application
    of it returns a promise and none throws, and a schedule without [wait]
    calls, the lock cannot be left behind: whenever it is held, exactly one
    invocation is in flight, whose settling releases it; and when it is
    free, nothing is queued and nothing is in flight.  This holds for
    promises that are rejected as for promises that are fulfilled.  (A
    function that throws when it is applied is another matter: the template
    has set [running] by then and has no [try] around the call.) *)
Theorem without_wait_a_held_lock_has_its_invocation (evs : list Event) :
  (forall c, exists s, oriFunc c = Promise s) ->
  usesWait evs = false ->
  let st := run evs init in
  (running (statusControl st) = true ->
   exists c, inflight st = [c]
             /\ statusControl (run [Settle c] st) = fresh
             /\ inflight (run [Settle c] st) = [])
  /\ (running (statusControl st) = false ->
      listeners (statusControl st) = [] /\ inflight st = [])
  /\ blocking (listeners (statusControl st)) = 0.
Proof.
  intros _ Hevs st.
  assert (Hst : HeldWhileRunning st).
  { apply held_run; [assumption|]. repeat split; discriminate. }
  destruct Hst as (Hl & Hj & Hrun & Hfree).
  split; [|split; assumption].
  intros Hr. destruct (Hrun Hr) as (c & s & Hc & Hres). exists c.
  split; [assumption|].
  rewrite (run_cons (Settle c) []). cbn [NoConcurrent.run fold_left NoConcurrent.step].
  unfold settle. rewrite Hc, existsb_eqb_head, Hres.
  unfold finish, handleRunFinish. cbn [statusControl].
  rewrite (drain_releases _ _ (blocking_none _ Hl)).
  cbn [statusControl inflight remove_first]. now rewrite Nat.eqb_refl.
Qed.

(** ** A queue of merged and waiting calls *)

Lemma drain_to_the_waiter (r : bool) (ms : list Caller) (c : Caller)
  (rest : list Listener) :
  handleRunFinish_loop r (map (parked false) ms ++ parked true c :: rest)
  = (map (parked false) ms ++ [parked true c], {| running := r; listeners := rest |}).
Proof.
  induction ms as [|m ms IH]; cbn; [reflexivity|]. now rewrite IH.
Qed.

(** X7.  Merged calls share the result of the invocation they were queued
    behind.  With the queue "merged calls [ms1], a waiting call [c1], merged
    calls [ms2]" behind a running invocation that is fulfilled: the calls
    [ms1] are answered with its result and the lock goes to [c1], which
    applies the operation while [ms2] stay queued; when that second
    invocation settles, fulfilled or rejected, the calls [ms2] are answered
    with its result, not with the first one, and the lock is released.  The
    operation has been applied twice. *)
Theorem merged_calls_behind_a_waiter_share_its_result
  (m0 : Mode) (c0 c1 : Caller) (ms1 ms2 : list Caller)
  (v : value) (s1 : Settled value) :
  oriFunc c0 = Promise (Fulfilled v) ->
  oriFunc c1 = Promise s1 ->
  let queued :=
    run (Call m0 c0 :: map (Call merge) ms1 ++ Call wait c1 :: map (Call merge) ms2)
        init in
  let handed := run (Settle c0 :: repeat Tick (S (List.length ms1))) queued in
  let final := run (Settle c1 :: repeat Tick (List.length ms2)) handed in
  listeners (statusControl queued)
  = map (parked false) ms1 ++ parked true c1 :: map (parked false) ms2
  /\ log handed
     = [Invoked c0; Settles c0 (Fulfilled v)]
         ++ map (fun c => Settles c (Fulfilled v)) ms1 ++ [Invoked c1]
  /\ statusControl handed = {| running := true; listeners := map (parked false) ms2 |}
  /\ inflight handed = [c1]
  /\ log final = log handed ++ Settles c1 s1 :: map (fun c => Settles c s1) ms2
  /\ invocations (log final) = [c0; c1]
  /\ statusControl final = fresh /\ inflight final = [] /\ jobs final = [].
Proof.
  intros H0 H1 queued handed final.
  assert (Hq : queued =
    {| statusControl :=
         {| running := true;
            listeners := map (parked false) ms1
                         ++ parked true c1 :: map (parked false) ms2 |};
       inflight := [c0]; jobs := []; log := [Invoked c0] |}).
  { unfold queued. rewrite (run_cons (Call m0 c0)), (first_call_starts m0 H0).
    rewrite run_app.
    change (map (Call merge) ms1) with (map (Call (parking false)) ms1).
    rewrite (calls_queue_up false). cbn [app].
    rewrite (run_cons (Call wait c1)).
    cbn [NoConcurrent.step NoConcurrent.call statusControl running].
    unfold push. cbn [statusControl running listeners inflight jobs log].
    change (map (Call merge) ms2) with (map (Call (parking false)) ms2).
    rewrite (calls_queue_up false), <- app_assoc. reflexivity. }
  assert (Hh : handed =
    {| statusControl := {| running := true; listeners := map (parked false) ms2 |};
       inflight := [c1]; jobs := [];
       log := ([Invoked c0; Settles c0 (Fulfilled v)]
               ++ map (fun c => Settles c (Fulfilled v)) ms1) ++ [Invoked c1] |}).
  { unfold handed. rewrite Hq.
    rewrite (run_cons (Settle c0)), (settle_only _ _ H0).
    unfold handleRunFinish. cbn [running listeners].
    rewrite drain_to_the_waiter. cbn [fst snd].
    rewrite map_app, map_map. cbn [map app].
    cbn [repeat]. rewrite repeat_cons, run_app, ticks_settle_merged.
    rewrite (run_cons Tick []).
    cbn [NoConcurrent.run fold_left NoConcurrent.step tick jobs resume parked block handler].
    unfold NoConcurrent.start. rewrite H1.
    cbn [statusControl listeners inflight jobs log app]. reflexivity. }
  assert (Hf : final =
    {| statusControl := fresh; inflight := []; jobs := [];
       log := (log handed ++ [Settles c1 s1]) ++ map (fun c => Settles c s1) ms2 |}).
  { unfold final. rewrite Hh.
    rewrite (run_cons (Settle c1)), (settle_only _ _ H1).
    unfold handleRunFinish. cbn [running listeners].
    rewrite drain_merged. cbn [fst snd log].
    rewrite map_map.
    rewrite <- (app_nil_r (map (fun x => (parked false x, s1)) ms2)).
    apply ticks_settle_merged. }
  rewrite Hf, Hh, Hq. cbn [log statusControl inflight jobs listeners].
  repeat split.
  - rewrite <- !app_assoc. reflexivity.
  - rewrite !invocations_app, !invocations_settles. reflexivity.
Qed.

End Facts.
End NoConcurrentFacts.

(* ################################################################# *)
(** * Part II.b  The navigator *)

Module NavigatorFacts.
Import History Navigator.
Local Open Scope nav_scope.

Section Facts.
Context {H : Type} {HS : Store H} {HL : Laws H} {OK : OperationKit}.

Implicit Types (w : World H) (route : Route) (ep : option ExtraParams).

(** ** The physical primitives, one call at a time *)

Lemma physical_fails api effect h msg :
  hd None (Wx.faults h) = Some msg ->
  Wx.physical api effect h = (Wx.failed msg, Wx.spent h).
Proof. intros Hf. unfold Wx.physical. now rewrite Hf. Qed.

Lemma physical_succeeds api effect h :
  hd None (Wx.faults h) = None ->
  Wx.physical api effect h = (Wx.ok api, Wx.moved effect h).
Proof. intros Hf. unfold Wx.physical. now rewrite Hf. Qed.

Lemma replace_fails route ep w msg :
  hd None (Wx.faults (host w)) = Some msg ->
  _secretReplace route ep w
  = (Throw (Failure (Wx.failed msg)),
     logging [WxRedirectTo (appendUrlParam (url route) ep) (Wx.failed msg)]
       (withHost (Wx.spent (host w)) (withActiveUnload true w))).
Proof.
  intros Hf. unfold _secretReplace, wxPromise, customWxPromisify, Wx.redirectTo.
  unfold bind at 1. cbn [setActiveUnload host withActiveUnload].
  unfold bind at 1. rewrite (physical_fails _ _ _ Hf). reflexivity.
Qed.

Lemma replace_succeeds route ep w :
  hd None (Wx.faults (host w)) = None ->
  _secretReplace route ep w
  = let u := appendUrlParam (url route) ep in
    (Ok tt,
     logging [Delay NAV_BUSY_REMAIN]
       (logging [WxRedirectTo u (Wx.ok "redirectTo")]
          (withHost (Wx.moved (Wx.swapped u) (host w)) (withActiveUnload true w)))).
Proof.
  intros Hf. unfold _secretReplace, wxPromise, customWxPromisify, Wx.redirectTo.
  unfold bind at 1. cbn [setActiveUnload host withActiveUnload].
  unfold bind at 1. rewrite (physical_succeeds _ _ _ Hf). reflexivity.
Qed.

Lemma back_fails (opts : BackOpts) w msg :
  hd None (Wx.faults (host w)) = Some msg ->
  _secretBack opts w
  = (Throw (Failure (Wx.failed msg)),
     logging [WxNavigateBack (delta opts) (Wx.failed msg)]
       (withHost (Wx.spent (host w)) (withActiveUnload true w))).
Proof.
  intros Hf. unfold _secretBack, wxPromise, customWxPromisify, Wx.navigateBack.
  unfold bind at 1. cbn [setActiveUnload host withActiveUnload].
  unfold bind at 1. rewrite (physical_fails _ _ _ Hf). reflexivity.
Qed.

Lemma back_succeeds (opts : BackOpts) w :
  hd None (Wx.faults (host w)) = None ->
  _secretBack opts w
  = (Ok tt,
     logging [Delay (match Wx.os (host w) with
                     | Wx.ios => NAV_BUSY_REMAIN * 3
                     | Wx.android => NAV_BUSY_REMAIN
                     end)]
       (logging [WxNavigateBack (delta opts) (Wx.ok "navigateBack")]
          (withHost (Wx.moved (Wx.popped (delta opts)) (host w))
             (withActiveUnload true w)))).
Proof.
  intros Hf. unfold _secretBack, wxPromise, customWxPromisify, Wx.navigateBack.
  unfold bind at 1. cbn [setActiveUnload host withActiveUnload].
  unfold bind at 1. rewrite (physical_succeeds _ _ _ Hf). reflexivity.
Qed.

Lemma open_attempt_fails fuel route ra rt ep w msg :
  hd None (Wx.faults (host w)) = Some msg ->
  _secretOpen_loop (S fuel) route ra rt ep w
  = let u := appendUrlParam (url route) ep in
    let w1 := logging [WxNavigateTo u (Wx.failed msg)] (withHost (Wx.spent (host w)) w) in
    if includes "limit exceed" msg then
      if (MAX_LEVEL (_config w) <=? Z.of_nat (List.length (Wx.pages (host w))))%Z then
        _secretReplace route ep w1
      else if (ra <? rt)%Z then
        _secretOpen_loop fuel route (ra * 2) rt ep (logging [Delay ra] w1)
      else (Throw (Failure (Wx.failed msg)), w1)
    else (Throw (Failure (Wx.failed msg)), w1).
Proof.
  intros Hf. cbn [_secretOpen_loop].
  unfold wxResolve, customWxPromisify, bind at 1, Wx.navigateTo.
  rewrite (physical_fails _ _ _ Hf).
  cbn -[includes _secretReplace _secretOpen_loop Z.leb Z.ltb Z.mul].
  destruct (includes "limit exceed" msg); [|reflexivity].
  unfold bind, getCurrentPages, config, delay, emit, throw.
  cbn [_config host logging withHost Wx.spent Wx.pages].
  destruct (_ <=? _)%Z; [reflexivity|].
  destruct (ra <? rt)%Z; reflexivity.
Qed.

Lemma open_attempt_succeeds fuel route ra rt ep w :
  hd None (Wx.faults (host w)) = None ->
  _secretOpen_loop (S fuel) route ra rt ep w
  = let u := appendUrlParam (url route) ep in
    (Ok tt,
     logging [Delay NAV_BUSY_REMAIN]
       (logging [WxNavigateTo u (Wx.ok "navigateTo")]
          (withHost (Wx.moved (Wx.pushed u) (host w)) w))).
Proof.
  intros Hf. cbn [_secretOpen_loop].
  unfold wxResolve, customWxPromisify, bind at 1, Wx.navigateTo.
  rewrite (physical_succeeds _ _ _ Hf). reflexivity.
Qed.

(** ** Forward computations *)

Lemma forward_pure A (a : Outcome A) : Forward (H:=H) (fun w => (a, w)).
Proof.
  intros w. cbn. repeat split; [auto|]. exists []. now rewrite app_nil_r.
Qed.

Lemma forward_ret A (a : A) : Forward (ret (H:=H) a).
Proof. apply forward_pure. Qed.

Lemma forward_throw A (e : Thrown) : Forward (throw (H:=H) (A:=A) e).
Proof. apply forward_pure. Qed.

Lemma forward_bind A B (m : M H A) (k : A -> M H B) :
  Forward m -> (forall a, Forward (k a)) -> Forward (bind m k).
Proof.
  intros Hm Hk w. unfold bind.
  destruct (Hm w) as (Hh & Hc & Hp & es & Ht & Hes).
  destruct (m w) as [[a|e] w1]; cbn [snd] in *.
  - destruct (Hk a w1) as (Hh' & Hc' & Hp' & es' & Ht' & Hes').
    repeat split; [congruence|congruence|auto|].
    exists (es ++ es'). rewrite Ht', Ht, app_assoc, forallb_app, Hes, Hes'.
    now split.
  - repeat split; [assumption|assumption|assumption|]. now exists es.
Qed.

Lemma forward_emit (e : Event) : isForward e = true -> Forward (emit (H:=H) e).
Proof.
  intros He w. cbn. repeat split; [auto|]. exists [e]. cbn. now rewrite He.
Qed.

Lemma forward_setActiveUnload (b : bool) : Forward (setActiveUnload (H:=H) b).
Proof.
  intros w. cbn. repeat split; [auto|]. exists []. now rewrite app_nil_r.
Qed.

Lemma forward_config : Forward (config (H:=H)).
Proof.
  intros w. cbn. repeat split; [auto|]. exists []. now rewrite app_nil_r.
Qed.

Lemma forward_getCurrentPages : Forward (getCurrentPages (H:=H)).
Proof.
  intros w. cbn. repeat split; [auto|]. exists []. now rewrite app_nil_r.
Qed.

(** Opening and replacing never leave the stack empty. *)
Lemma physical_keeps_a_page api effect h :
  (forall ps, effect ps <> []) ->
  Wx.pages h <> [] -> Wx.pages (snd (Wx.physical api effect h)) <> [].
Proof.
  intros He Hp. unfold Wx.physical.
  destruct (hd None (Wx.faults h)); cbn; auto.
Qed.

Lemma navigateTo_keeps_a_page u h :
  Wx.pages h <> [] -> Wx.pages (snd (Wx.navigateTo u h)) <> [].
Proof.
  apply physical_keeps_a_page. intros ps. unfold Wx.pushed.
  now destruct ps.
Qed.

Lemma redirectTo_keeps_a_page u h :
  Wx.pages h <> [] -> Wx.pages (snd (Wx.redirectTo u h)) <> [].
Proof.
  apply physical_keeps_a_page. intros ps. unfold Wx.swapped.
  now destruct (removelast ps).
Qed.

Lemma forward_customWxPromisify dealFail ev api :
  (forall r, isForward (ev r) = true) ->
  (forall h, Wx.pages h <> [] -> Wx.pages (snd (api h)) <> []) ->
  Forward (customWxPromisify (H:=H) dealFail ev api).
Proof.
  intros Hev Hapi w. unfold customWxPromisify.
  specialize (Hapi (host w)).
  destruct (api (host w)) as [r h]. unfold bind. cbn [setHost emit].
  destruct (Wx.succeeded r || dealFail); cbn; (repeat split; [auto|]);
    exists [ev r]; cbn; now rewrite Hev.
Qed.

Create HintDb forward.
#[local] Hint Resolve forward_ret forward_throw forward_bind forward_emit
  forward_setActiveUnload forward_config forward_getCurrentPages
  forward_customWxPromisify navigateTo_keeps_a_page redirectTo_keeps_a_page
  : forward.

Lemma forward_secretReplace route ep : Forward (H:=H) (_secretReplace route ep).
Proof. unfold _secretReplace, wxPromise, delay. auto 10 with forward. Qed.

#[local] Hint Resolve forward_secretReplace : forward.

Lemma forward_secretOpen_loop fuel :
  forall route ra rt ep, Forward (H:=H) (_secretOpen_loop fuel route ra rt ep).
Proof.
  induction fuel as [|fuel IH]; intros route ra rt ep; cbn [_secretOpen_loop].
  - auto with forward.
  - unfold wxResolve, delay. apply forward_bind; [auto with forward|].
    intros openRes. destruct (Wx.succeeded openRes); [auto with forward|].
    destruct (includes _ _); [|auto with forward].
    apply forward_bind; [auto with forward|]. intros curPages.
    apply forward_bind; [auto with forward|]. intros cfg.
    destruct (_ <=? _)%Z; [auto with forward|].
    destruct (_ <? _)%Z; auto with forward.
Qed.

Lemma forward_secretOpen route ra rt ep : Forward (H:=H) (_secretOpen route ra rt ep).
Proof. intros w. apply forward_secretOpen_loop. Qed.

#[local] Hint Resolve forward_secretOpen : forward.

Lemma forward_doLostRestore route : Forward (H:=H) (_doLostRestore route).
Proof.
  unfold _doLostRestore. apply forward_bind; [auto with forward|]. intros cfg.
  destruct (pageRestoreHandler cfg) as [handler|]; [|auto with forward].
  apply forward_bind; [auto with forward|]. intros _.
  destruct (handler route _); auto with forward.
Qed.

Lemma forward_doTaintedRestore route : Forward (H:=H) (_doTaintedRestore route).
Proof.
  unfold _doTaintedRestore. apply forward_bind; [auto with forward|]. intros cfg.
  apply forward_bind.
  - destruct (pageRestoreHandler cfg) as [handler|]; [|auto with forward].
    apply forward_bind; [auto with forward|]. intros _.
    destruct (handler route _); auto with forward.
  - intros res. destruct (reportsSuccess res); auto with forward.
Qed.

#[local] Hint Resolve forward_doLostRestore forward_doTaintedRestore : forward.

Lemma forward_no_pops (es : list Event) : forallb isForward es = true -> pops es = [].
Proof.
  induction es as [|e es IH]; [reflexivity|]. cbn [forallb].
  intros Hes. apply andb_prop in Hes. destruct Hes as [He Hes].
  destruct e; cbn in *; try discriminate; auto.
Qed.

Lemma pops_app (a b : list Event) : pops (a ++ b) = pops a ++ pops b.
Proof.
  induction a as [|e a IH]; [reflexivity|].
  destruct e; cbn; now rewrite ?IH.
Qed.

(** The retry loop does not run out of attempts: each failed attempt takes an
    entry off the script. *)
Lemma open_loop_total fuel :
  forall route ra rt ep w,
    (List.length (Wx.faults (host w)) < fuel)%nat ->
    fst (_secretOpen_loop fuel route ra rt ep w) <> Throw OutOfFuel.
Proof.
  induction fuel as [|fuel IH]; intros route ra rt ep w Hlen; [lia|].
  destruct (hd None (Wx.faults (host w))) as [msg|] eqn:Hf.
  - rewrite (open_attempt_fails _ _ _ _ _ _ Hf). cbn zeta.
    destruct (includes _ _); [|cbn; congruence].
    destruct (_ <=? _)%Z.
    + set (w1 := logging _ _).
      destruct (hd None (Wx.faults (host w1))) as [msg'|] eqn:Hf'.
      * rewrite (replace_fails _ _ _ Hf'). cbn. congruence.
      * rewrite (replace_succeeds _ _ _ Hf'). cbn. congruence.
    + destruct (ra <? rt)%Z; [|cbn; congruence].
      apply IH. cbn [host logging withHost Wx.spent Wx.faults].
      destruct (Wx.faults (host w)); cbn in *; [discriminate|lia].
  - rewrite (open_attempt_succeeds _ _ _ _ _ _ Hf). cbn. congruence.
Qed.

Lemma open_total route ra rt ep w :
  fst (_secretOpen route ra rt ep w) <> Throw OutOfFuel.
Proof. apply open_loop_total. lia. Qed.

(** ** The retry policy of [_secretOpen] *)

Lemma open_falls_back_to_replace route ep w msg ra rt :
  hd None (Wx.faults (host w)) = Some msg ->
  includes "limit exceed" msg = true ->
  (MAX_LEVEL (_config w) <= Z.of_nat (List.length (Wx.pages (host w))))%Z ->
  _secretOpen route ra rt ep w
  = _secretReplace route ep
      (logging [WxNavigateTo (appendUrlParam (url route) ep) (Wx.failed msg)]
         (withHost (Wx.spent (host w)) w)).
Proof.
  intros Hf Hinc Hcap. unfold _secretOpen.
  rewrite (open_attempt_fails _ _ _ _ _ _ Hf). cbn zeta. rewrite Hinc.
  now rewrite (proj2 (Z.leb_le _ _) Hcap).
Qed.

Lemma open_surfaces_other_failures route ep w msg ra rt :
  hd None (Wx.faults (host w)) = Some msg ->
  includes "limit exceed" msg = false ->
  _secretOpen route ra rt ep w
  = (Throw (Failure (Wx.failed msg)),
     logging [WxNavigateTo (appendUrlParam (url route) ep) (Wx.failed msg)]
       (withHost (Wx.spent (host w)) w)).
Proof.
  intros Hf Hinc. unfold _secretOpen.
  rewrite (open_attempt_fails _ _ _ _ _ _ Hf). cbn zeta. now rewrite Hinc.
Qed.

Lemma open_retries_then_gives_up route ep w m1 m2 m3 m4 rest :
  Wx.faults (host w) = Some m1 :: Some m2 :: Some m3 :: Some m4 :: rest ->
  includes "limit exceed" m1 = true ->
  includes "limit exceed" m2 = true ->
  includes "limit exceed" m3 = true ->
  includes "limit exceed" m4 = true ->
  (Z.of_nat (List.length (Wx.pages (host w))) < MAX_LEVEL (_config w))%Z ->
  let u := appendUrlParam (url route) ep in
  let r := _secretOpen route retryAfter_default retryTimeout_default ep w in
  fst r = Throw (Failure (Wx.failed m4))
  /\ trace (snd r)
     = trace w ++ [WxNavigateTo u (Wx.failed m1); Delay 300;
                   WxNavigateTo u (Wx.failed m2); Delay 600;
                   WxNavigateTo u (Wx.failed m3); Delay 1200;
                   WxNavigateTo u (Wx.failed m4)]
  /\ Wx.pages (host (snd r)) = Wx.pages (host w)
  /\ Wx.faults (host (snd r)) = rest.
Proof.
  intros Hf H1 H2 H3 H4 Hcap u r. unfold r, _secretOpen, u.
  destruct w as [cfg his au [ps fs o] lock tr]. cbn in Hf, Hcap. subst fs.
  apply Z.leb_gt in Hcap.
  cbn [host Wx.faults List.length].
  rewrite (@open_attempt_fails _ _ _ _ _ _ m1) by reflexivity.
  cbn [host _config withHost logging Wx.pages Wx.spent Wx.faults Wx.os tl trace
       _history _activeUnload finishLock].
  rewrite H1, Hcap.
  change (retryAfter_default <? retryTimeout_default)%Z with true.
  cbn iota.
  rewrite (@open_attempt_fails _ _ _ _ _ _ m2) by reflexivity.
  cbn [host _config withHost logging Wx.pages Wx.spent Wx.faults Wx.os tl trace
       _history _activeUnload finishLock].
  rewrite H2, Hcap.
  change (retryAfter_default * 2 <? retryTimeout_default)%Z with true.
  cbn iota.
  rewrite (@open_attempt_fails _ _ _ _ _ _ m3) by reflexivity.
  cbn [host _config withHost logging Wx.pages Wx.spent Wx.faults Wx.os tl trace
       _history _activeUnload finishLock].
  rewrite H3, Hcap.
  change (retryAfter_default * 2 * 2 <? retryTimeout_default)%Z with true.
  cbn iota.
  rewrite (@open_attempt_fails _ _ _ _ _ _ m4) by reflexivity.
  cbn [host _config withHost logging Wx.pages Wx.spent Wx.faults Wx.os tl trace
       _history _activeUnload finishLock].
  rewrite H4, Hcap.
  change (retryAfter_default * 2 * 2 * 2 <? retryTimeout_default)%Z with false.
  cbn. repeat split. now rewrite <- !app_assoc.
Qed.

(** The fallback at the cap, call by call: after the failed attempt comes one
    [wx.redirectTo] with the same url and nothing else.  When the platform
    accepts it, the target page has taken the place of the top page; when it
    refuses, the open is rejected with that refusal and the stack is as it
    was. *)
Lemma open_at_the_cap_replaces_the_top_page route ep w msg ra rt :
  hd None (Wx.faults (host w)) = Some msg ->
  includes "limit exceed" msg = true ->
  (MAX_LEVEL (_config w) <= Z.of_nat (List.length (Wx.pages (host w))))%Z ->
  let u := appendUrlParam (url route) ep in
  let r := _secretOpen route ra rt ep w in
  (hd None (tl (Wx.faults (host w))) = None ->
   fst r = Ok tt
   /\ trace (snd r)
      = trace w ++ [WxNavigateTo u (Wx.failed msg);
                    WxRedirectTo u (Wx.ok "redirectTo"); Delay 300]
   /\ Wx.pages (host (snd r)) = removelast (Wx.pages (host w)) ++ [Wx.pageOf u])
  /\ (forall msg',
        hd None (tl (Wx.faults (host w))) = Some msg' ->
        fst r = Throw (Failure (Wx.failed msg'))
        /\ trace (snd r)
           = trace w ++ [WxNavigateTo u (Wx.failed msg);
                         WxRedirectTo u (Wx.failed msg')]
        /\ Wx.pages (host (snd r)) = Wx.pages (host w)).
Proof.
  intros Hf Hinc Hcap u r. unfold r.
  rewrite (open_falls_back_to_replace _ _ _ _ _ Hf Hinc Hcap). fold u.
  set (w1 := logging _ _).
  assert (Hw1 : Wx.faults (host w1) = tl (Wx.faults (host w))) by reflexivity.
  split.
  - intros Hnext. rewrite <- Hw1 in Hnext.
    rewrite (replace_succeeds _ _ _ Hnext). cbn. fold u.
    repeat split. now rewrite <- !app_assoc.
  - intros msg' Hnext. rewrite <- Hw1 in Hnext.
    rewrite (replace_fails _ _ _ Hnext). cbn. fold u.
    repeat split. now rewrite <- !app_assoc.
Qed.

(** C4.  The retry policy of the physical open.  When the open fails with a
    "limit exceed" message and the observed stack has reached [MAX_LEVEL],
    the call becomes a physical replace of the top page: it returns what
    [_secretReplace] returns, which issues one [wx.redirectTo] with the same
    url and opens nothing more; when the platform accepts the replace the
    target has taken the place of the top page and the open resolves, and
    when it refuses the open is rejected with that refusal, the stack being
    as it was.  When the open keeps failing that way under the cap, the
    default call retries after 300, 600 and 1200 ms and, the next delay
    being 2400 ms, over the 2000 ms ceiling, throws the last failure.  A
    failure with any other message is thrown at once, after this single
    attempt. *)
Theorem open_retry_policy route ep w :
  let u := appendUrlParam (url route) ep in
  let attempted msg :=
    logging [WxNavigateTo u (Wx.failed msg)] (withHost (Wx.spent (host w)) w) in
  (forall msg ra rt,
      hd None (Wx.faults (host w)) = Some msg ->
      includes "limit exceed" msg = true ->
      (MAX_LEVEL (_config w) <= Z.of_nat (List.length (Wx.pages (host w))))%Z ->
      let r := _secretOpen route ra rt ep w in
      r = _secretReplace route ep (attempted msg)
      /\ (hd None (tl (Wx.faults (host w))) = None ->
          fst r = Ok tt
          /\ trace (snd r)
             = trace w ++ [WxNavigateTo u (Wx.failed msg);
                           WxRedirectTo u (Wx.ok "redirectTo"); Delay 300]
          /\ Wx.pages (host (snd r))
             = removelast (Wx.pages (host w)) ++ [Wx.pageOf u])
      /\ (forall msg',
            hd None (tl (Wx.faults (host w))) = Some msg' ->
            fst r = Throw (Failure (Wx.failed msg'))
            /\ trace (snd r)
               = trace w ++ [WxNavigateTo u (Wx.failed msg);
                             WxRedirectTo u (Wx.failed msg')]
            /\ Wx.pages (host (snd r)) = Wx.pages (host w)))
  /\ (forall m1 m2 m3 m4 rest,
        Wx.faults (host w) = Some m1 :: Some m2 :: Some m3 :: Some m4 :: rest ->
        includes "limit exceed" m1 = true ->
        includes "limit exceed" m2 = true ->
        includes "limit exceed" m3 = true ->
        includes "limit exceed" m4 = true ->
        (Z.of_nat (List.length (Wx.pages (host w))) < MAX_LEVEL (_config w))%Z ->
        let r := _secretOpen route retryAfter_default retryTimeout_default ep w in
        fst r = Throw (Failure (Wx.failed m4))
        /\ trace (snd r)
           = trace w ++ [WxNavigateTo u (Wx.failed m1); Delay 300;
                         WxNavigateTo u (Wx.failed m2); Delay 600;
                         WxNavigateTo u (Wx.failed m3); Delay 1200;
                         WxNavigateTo u (Wx.failed m4)]
        /\ Wx.pages (host (snd r)) = Wx.pages (host w)
        /\ Wx.faults (host (snd r)) = rest)
  /\ (forall msg ra rt,
        hd None (Wx.faults (host w)) = Some msg ->
        includes "limit exceed" msg = false ->
        _secretOpen route ra rt ep w = (Throw (Failure (Wx.failed msg)), attempted msg)).
Proof.
  intros u attempted. split; [|split].
  - intros msg ra rt Hf Hinc Hcap r. split.
    + now apply open_falls_back_to_replace.
    + exact (open_at_the_cap_replaces_the_top_page route ep w ra rt Hf Hinc Hcap).
  - intros m1 m2 m3 m4 rest. apply open_retries_then_gives_up.
  - intros msg ra rt. apply open_surfaces_other_failures.
Qed.

(** X8.  A retry that goes through ends the call.  When the first attempt
    fails with "limit exceed" while the stack is under the cap and the
    platform accepts the second, the default open waits 300 ms, opens the
    page and ends normally: one failed attempt, the delay, the successful
    attempt and the settle delay, and the page is on the stack. *)
Lemma open_retry_can_succeed route ep w msg rest :
  Wx.faults (host w) = Some msg :: None :: rest ->
  includes "limit exceed" msg = true ->
  (Z.of_nat (List.length (Wx.pages (host w))) < MAX_LEVEL (_config w))%Z ->
  let u := appendUrlParam (url route) ep in
  let r := _secretOpen route retryAfter_default retryTimeout_default ep w in
  fst r = Ok tt
  /\ trace (snd r)
     = trace w ++ [WxNavigateTo u (Wx.failed msg); Delay 300;
                   WxNavigateTo u (Wx.ok "navigateTo"); Delay 300]
  /\ Wx.pages (host (snd r)) = Wx.pushed u (Wx.pages (host w)).
Proof.
  intros Hf Hinc Hcap u r. unfold r, _secretOpen, u.
  destruct w as [cfg his au [ps fs o] lock tr]. cbn in Hf, Hcap. subst fs.
  apply Z.leb_gt in Hcap.
  cbn [host Wx.faults List.length].
  rewrite (@open_attempt_fails _ _ _ _ _ _ msg) by reflexivity.
  cbn [host _config withHost logging Wx.pages Wx.spent Wx.faults Wx.os tl trace
       _history _activeUnload finishLock].
  rewrite Hinc, Hcap.
  change (retryAfter_default <? retryTimeout_default)%Z with true.
  cbn iota.
  rewrite open_attempt_succeeds by reflexivity.
  cbn. repeat split. now rewrite <- !app_assoc.
Qed.

(** ** Opening *)

(** [navigateTo] up to the choice of the physical operation. *)
Lemma navigateTo_prefix route w below curPage :
  Wx.pages (host w) = below ++ [curPage] ->
  navigateTo route w
  = let w1 := withHistory (open (entry route curPage) (Wx.pages (host w)) (_history w))
                (logging [HistoryOpen (entry route curPage)] w) in
    let cfg := _config w in
    let n := Z.of_nat (List.length (Wx.pages (host w))) in
    let save := history_savePage (length (_history w1) - 2) curPage in
    ((if enableCurtain cfg && (n =? MAX_LEVEL cfg - 1)%Z then
        save ;; _secretReplace (mkRoute (curtainPage cfg)) None ;;
        _secretOpen route retryAfter_default retryTimeout_default None
      else if (n <? MAX_LEVEL cfg)%Z then
        _secretOpen route retryAfter_default retryTimeout_default None
      else
        save ;; _secretReplace route None) ;;
     ret {| Wx.succeeded := true; Wx.errMsg := "ok" |}) w1.
Proof.
  intros Hp.
  assert (Hcur : curPageRoute (H:=H) (Wx.pages (host w))
                 = ret (curPage, orElse (Wx.route curPage) (Wx.__route__ curPage))).
  { unfold curPageRoute. now rewrite Hp, rev_unit. }
  unfold navigateTo. unfold bind at 1. unfold getCurrentPages at 1.
  cbv beta iota. rewrite Hcur.
  cbv beta iota zeta delta [bind ret history_open history_length emit setHistory
                            config].
  cbn [_config _history withHistory logging].
  destruct (enableCurtain (_config w) && _); [|destruct (_ <? _)%Z]; reflexivity.
Qed.

Lemma savePage_run (i : Z) (p : Wx.Page) w :
  history_savePage i p w
  = (Ok tt, withHistory (savePage i p (_history w)) (logging [HistorySavePage i p] w)).
Proof. reflexivity. Qed.

(** An open under the cap does nothing but attempt to open the page and
    wait: it never falls back to a replace.  It resolves with the page on
    top of the stack, or is rejected with the stack as it was. *)
Lemma open_loop_under_the_cap fuel :
  forall route ra rt ep w,
    (depth w < MAX_LEVEL (_config w))%Z ->
    let u := appendUrlParam (url route) ep in
    let r := _secretOpen_loop fuel route ra rt ep w in
    (exists es, trace (snd r) = trace w ++ es /\ forallb (isOpening u) es = true)
    /\ match fst r with
       | Ok _ => Wx.pages (host (snd r)) = Wx.pages (host w) ++ [Wx.pageOf u]
       | Throw _ => Wx.pages (host (snd r)) = Wx.pages (host w)
       end.
Proof.
  induction fuel as [|fuel IH]; intros route ra rt ep w Hcap u r.
  - cbn. split; [|reflexivity]. exists []. now rewrite app_nil_r.
  - unfold r. destruct (hd None (Wx.faults (host w))) as [msg|] eqn:Hf.
    + rewrite (open_attempt_fails _ _ _ _ _ _ Hf). cbn zeta. fold u.
      set (w1 := logging _ _).
      assert (Hstop : forall e : Thrown,
                (exists es, trace w1 = trace w ++ es /\ forallb (isOpening u) es = true)
                /\ match fst (Throw (A:=unit) e, w1) with
                   | Ok _ => Wx.pages (host w1) = Wx.pages (host w) ++ [Wx.pageOf u]
                   | Throw _ => Wx.pages (host w1) = Wx.pages (host w)
                   end).
      { intros e. split; [|reflexivity].
        exists [WxNavigateTo u (Wx.failed msg)]. cbn. now rewrite String.eqb_refl. }
      destruct (includes _ _); [|apply Hstop].
      unfold depth in Hcap.
      rewrite (proj2 (Z.leb_gt _ _) Hcap).
      destruct (ra <? rt)%Z; [|apply Hstop].
      destruct (IH route (ra * 2)%Z rt ep (logging [Delay ra] w1) Hcap)
        as ((es & Ht & Hes) & Hpages).
      fold u in Ht, Hes, Hpages. split; [|exact Hpages].
      exists (WxNavigateTo u (Wx.failed msg) :: Delay ra :: es).
      rewrite Ht. cbn. rewrite String.eqb_refl, Hes, <- !app_assoc. now split.
    + rewrite (open_attempt_succeeds _ _ _ _ _ _ Hf). cbn. fold u.
      split; [|reflexivity].
      exists [WxNavigateTo u (Wx.ok "navigateTo"); Delay NAV_BUSY_REMAIN].
      cbn. rewrite String.eqb_refl, <- !app_assoc. now split.
Qed.

(** C5, as amended.  Curtain insertion.  With curtain mode on and
    [MAX_LEVEL - 1] pages on the stack, whatever the platform answers,
    [navigateTo] records the entry, saves the data of the page that is on
    top and issues the replace of that page, which is slot [MAX_LEVEL - 1] of
    [MAX_LEVEL] and so the second-to-last slot of the full stack, with the
    curtain page; all that follows is the attempts to open the target and
    their delays.  The history is one entry longer in every case: one more
    than the opens made when it held the root and one entry per open (see
    [opens_count]).  When the platform accepts the replace and the open, and
    whenever the call resolves, the stack ends with exactly [MAX_LEVEL]
    pages, the curtain right under the target.  When the platform refuses the
    replace nothing is opened: the call is rejected and the stack keeps its
    [MAX_LEVEL - 1] pages.  When the replace went through and the open is
    rejected, the curtain is left on top of [MAX_LEVEL - 1] pages. *)
Theorem curtain_is_inserted_before_the_last_open route w below curPage :
  enableCurtain (_config w) = true ->
  Wx.pages (host w) = below ++ [curPage] ->
  Z.of_nat (List.length (Wx.pages (host w))) = (MAX_LEVEL (_config w) - 1)%Z ->
  let opened := open (entry route curPage) (Wx.pages (host w)) (_history w) in
  let save := HistorySavePage (length opened - 2) curPage in
  let curtain := appendUrlParam (curtainPage (_config w)) None in
  let u := appendUrlParam (url route) None in
  let r := navigateTo route w in
  (exists res es,
      trace (snd r)
      = trace w ++ HistoryOpen (entry route curPage) :: save
          :: WxRedirectTo curtain res :: es
      /\ forallb (isOpening u) es = true)
  /\ _history (snd r) = savePage (length opened - 2) curPage opened
  /\ length (_history (snd r)) = (length (_history w) + 1)%Z
  /\ (hd None (Wx.faults (host w)) = None ->
      hd None (tl (Wx.faults (host w))) = None ->
      fst r = Ok {| Wx.succeeded := true; Wx.errMsg := "ok" |}
      /\ trace (snd r)
         = trace w ++ [HistoryOpen (entry route curPage); save;
                       WxRedirectTo curtain (Wx.ok "redirectTo"); Delay 300;
                       WxNavigateTo u (Wx.ok "navigateTo"); Delay 300])
  /\ (forall res,
        fst r = Ok res ->
        Wx.pages (host (snd r)) = below ++ [Wx.pageOf curtain; Wx.pageOf u]
        /\ Z.of_nat (List.length (Wx.pages (host (snd r)))) = MAX_LEVEL (_config w))
  /\ (forall msg,
        hd None (Wx.faults (host w)) = Some msg ->
        fst r = Throw (Failure (Wx.failed msg))
        /\ trace (snd r)
           = trace w ++ [HistoryOpen (entry route curPage); save;
                         WxRedirectTo curtain (Wx.failed msg)]
        /\ Wx.pages (host (snd r)) = below ++ [curPage])
  /\ (forall e,
        hd None (Wx.faults (host w)) = None ->
        fst r = Throw e ->
        Wx.pages (host (snd r)) = below ++ [Wx.pageOf curtain]).
Proof.
  intros Hc Hp Hn opened save curtain u r.
  assert (Hlen : length (savePage (length opened - 2) curPage opened)
                 = (length (_history w) + 1)%Z).
  { rewrite length_savePage. apply length_open. }
  assert (Hr : r = navigateTo route w) by reflexivity. clearbody r.
  rewrite (@navigateTo_prefix route w below curPage Hp) in Hr. cbn zeta in Hr.
  rewrite Hc, Hn, Z.eqb_refl in Hr. cbn [andb] in Hr.
  unfold bind at 1 in Hr. unfold bind at 1 in Hr. rewrite savePage_run in Hr.
  unfold bind at 1 in Hr.
  cbn [_history withHistory logging] in Hr. fold opened in Hr.
  set (w2 := withHistory _ _) in Hr.
  assert (Hw2 : trace w2 = trace w ++ [HistoryOpen (entry route curPage); save])
    by (unfold w2; cbn; now rewrite <- app_assoc).
  assert (Hhost2 : host w2 = host w) by reflexivity.
  assert (Hcfg2 : _config w2 = _config w) by reflexivity.
  assert (Hh2 : _history w2 = savePage (length opened - 2) curPage opened)
    by reflexivity.
  clearbody w2.
  destruct (hd None (Wx.faults (host w))) as [msg|] eqn:Hf.
  - rewrite <- Hhost2 in Hf. rewrite (@replace_fails _ None w2 msg Hf) in Hr. subst r.
    cbn [fst snd trace host _history logging withHost withActiveUnload Wx.spent
         Wx.pages url mkRoute].
    fold curtain. rewrite Hw2, Hh2, Hhost2.
    split; [|split; [reflexivity|split; [exact Hlen|]]].
    { exists (Wx.failed msg), []. rewrite <- app_assoc. now split. }
    split; [discriminate|]. split; [discriminate|]. split; [|discriminate].
    intros msg' Hmsg. injection Hmsg as <-.
    split; [reflexivity|]. split; [now rewrite <- app_assoc|exact Hp].
  - assert (Hf2 : hd None (Wx.faults (host w2)) = None) by now rewrite Hhost2.
    rewrite (@replace_succeeds _ None w2 Hf2) in Hr. cbn zeta in Hr.
    cbn [url mkRoute] in Hr. fold curtain in Hr.
    set (w3 := logging [Delay NAV_BUSY_REMAIN] _) in Hr.
    assert (Hw3 : trace w3
                  = trace w ++ [HistoryOpen (entry route curPage); save;
                                WxRedirectTo curtain (Wx.ok "redirectTo"); Delay 300]).
    { unfold w3. cbn [trace logging withHost withActiveUnload].
      rewrite Hw2, <- !app_assoc. reflexivity. }
    assert (Hpages3 : Wx.pages (host w3) = below ++ [Wx.pageOf curtain]).
    { unfold w3. cbn [host logging withHost withActiveUnload Wx.moved Wx.pages].
      rewrite Hhost2. unfold Wx.swapped. now rewrite Hp, removelast_last. }
    assert (Hfaults3 : Wx.faults (host w3) = tl (Wx.faults (host w))).
    { unfold w3. cbn [host logging withHost withActiveUnload Wx.moved Wx.faults].
      now rewrite Hhost2. }
    assert (Hcfg3 : _config w3 = _config w) by (unfold w3; cbn; exact Hcfg2).
    assert (Hh3 : _history w3 = savePage (length opened - 2) curPage opened)
      by (unfold w3; cbn; exact Hh2).
    assert (Hcap3 : (depth w3 < MAX_LEVEL (_config w3))%Z).
    { unfold depth. rewrite Hpages3, Hcfg3. rewrite Hp in Hn.
      rewrite length_app in *. cbn [List.length] in *. lia. }
    clearbody w3.
    unfold _secretOpen in Hr.
    destruct (@open_loop_under_the_cap
                (S (List.length (Wx.faults (host w3)))) route
                retryAfter_default retryTimeout_default None w3 Hcap3)
      as ((es & Ht & Hes) & Hend).
    destruct (forward_secretOpen_loop (S (List.length (Wx.faults (host w3)))) route
                retryAfter_default retryTimeout_default None w3) as (Hh & _).
    fold u in Ht, Hes, Hend.
    assert (Hfirst : hd None (tl (Wx.faults (host w))) = None ->
              _secretOpen_loop (S (List.length (Wx.faults (host w3)))) route
                retryAfter_default retryTimeout_default None w3
              = (Ok tt,
                 logging [Delay NAV_BUSY_REMAIN]
                   (logging [WxNavigateTo u (Wx.ok "navigateTo")]
                      (withHost (Wx.moved (Wx.pushed u) (host w3)) w3)))).
    { intros Hnext. apply open_attempt_succeeds. now rewrite Hfaults3. }
    assert (Htrace : exists res es0,
              trace (snd (_secretOpen_loop (S (List.length (Wx.faults (host w3)))) route
                            retryAfter_default retryTimeout_default None w3))
              = trace w ++ HistoryOpen (entry route curPage) :: save
                  :: WxRedirectTo curtain res :: es0
              /\ forallb (isOpening u) es0 = true).
    { exists (Wx.ok "redirectTo"), (Delay 300 :: es). rewrite Ht, Hw3.
      cbn [forallb isOpening]. rewrite Hes, <- !app_assoc. now split. }
    destruct (_secretOpen_loop _ route _ _ None w3) as [[[]|e] w4] eqn:Hopen;
      subst r; cbn [fst snd ret] in *.
    + split; [exact Htrace|]. split; [now rewrite Hh|].
      split; [now rewrite Hh, Hh3|].
      split.
      { intros _ Hnext. split; [reflexivity|]. specialize (Hfirst Hnext).
        injection Hfirst as ->. cbn [trace logging withHost].
        rewrite Hw3, <- !app_assoc. reflexivity. }
      split.
      { intros _ _. rewrite Hend, Hpages3, <- app_assoc. split; [reflexivity|].
        rewrite Hp in Hn. rewrite !length_app in *. cbn [List.length app] in *. lia. }
      split; [discriminate|]. discriminate.
    + split; [exact Htrace|]. split; [now rewrite Hh|].
      split; [now rewrite Hh, Hh3|].
      split.
      { intros _ Hnext. specialize (Hfirst Hnext). discriminate. }
      split; [discriminate|]. split; [discriminate|].
      intros e' _ _. now rewrite Hend.
Qed.

(** ** The history is written first and stays written *)

Lemma snd_then_ret A B (m : M H A) (b : B) w :
  snd ((m ;; ret b) w) = snd (m w).
Proof. unfold bind. now destruct (m w) as [[a|e] w']. Qed.

Lemma fst_then_ret_throw A B (m : M H A) (b : B) w e :
  fst (m w) = Throw e -> fst ((m ;; ret b) w) = Throw e.
Proof. unfold bind. destruct (m w) as [[a|e'] w']; cbn; congruence. Qed.

Lemma saved_then (i : Z) (p : Wx.Page) A (m : M H A) w :
  (history_savePage i p ;; m) w
  = m (withHistory (savePage i p (_history w)) (logging [HistorySavePage i p] w)).
Proof. reflexivity. Qed.

(** What [navigateTo] leaves behind, whatever its outcome. *)
Lemma navigateTo_writes_first route w below curPage :
  Wx.pages (host w) = below ++ [curPage] ->
  let opened := open (entry route curPage) (Wx.pages (host w)) (_history w) in
  let save := HistorySavePage (length opened - 2) curPage in
  let r := navigateTo route w in
  (exists saved es,
      trace (snd r) = trace w ++ HistoryOpen (entry route curPage) :: saved ++ es
      /\ (saved = [] \/ saved = [save])
      /\ forallb isForward es = true)
  /\ (_history (snd r) = opened
      \/ _history (snd r) = savePage (length opened - 2) curPage opened)
  /\ Wx.pages (host (snd r)) <> [].
Proof.
  intros Hp opened save r.
  assert (Hne : Wx.pages (host w) <> []) by (rewrite Hp; now destruct below).
  unfold r. rewrite (@navigateTo_prefix route w below curPage Hp). cbn zeta.
  rewrite snd_then_ret. fold opened.
  set (w1 := withHistory opened (logging [HistoryOpen (entry route curPage)] w)).
  destruct (enableCurtain (_config w) && _); [|destruct (_ <? _)%Z].
  - rewrite saved_then.
    set (w2 := withHistory _ _).
    destruct (@forward_bind _ _ (_secretReplace (mkRoute (curtainPage (_config w))) None)
                (fun _ => _secretOpen route retryAfter_default retryTimeout_default None)
                (forward_secretReplace _ _) (fun _ => forward_secretOpen _ _ _ _) w2)
      as (Hh & _ & Ha & es & Ht & Hes).
    split; [|split].
    + exists [save], es. rewrite Ht. cbn. rewrite <- !app_assoc. auto.
    + right. rewrite Hh. reflexivity.
    + apply Ha. exact Hne.
  - destruct (forward_secretOpen route retryAfter_default retryTimeout_default None w1)
      as (Hh & _ & Ha & es & Ht & Hes).
    split; [|split].
    + exists [], es. rewrite Ht. cbn. rewrite <- !app_assoc. auto.
    + left. rewrite Hh. reflexivity.
    + apply Ha. exact Hne.
  - rewrite saved_then.
    set (w2 := withHistory _ _).
    destruct (forward_secretReplace route None w2) as (Hh & _ & Ha & es & Ht & Hes).
    split; [|split].
    + exists [save], es. rewrite Ht. cbn. rewrite <- !app_assoc. auto.
    + right. rewrite Hh. reflexivity.
    + apply Ha. exact Hne.
Qed.

Lemma navigateTo_adds_one_entry route w below curPage :
  Wx.pages (host w) = below ++ [curPage] ->
  length (_history (snd (navigateTo route w))) = (length (_history w) + 1)%Z.
Proof.
  intros Hp. destruct (@navigateTo_writes_first route w below curPage Hp) as (_ & [Hh|Hh] & _);
    rewrite Hh, ?length_savePage; apply length_open.
Qed.

(** After any number of opens the history holds one entry more than the
    number of opens made. *)
Lemma opens_count (rs : list Route) :
  forall w, Wx.pages (host w) <> [] ->
    length (_history (opens rs w)) = (length (_history w) + Z.of_nat (List.length rs))%Z.
Proof.
  induction rs as [|r rs IH]; intros w Hne; cbn [opens List.length].
  - lia.
  - destruct (exists_last Hne) as (below & curPage & Hp).
    destruct (@navigateTo_writes_first r w below curPage Hp) as (_ & _ & Hne').
    rewrite IH by exact Hne'.
    rewrite (@navigateTo_adds_one_entry r w below curPage Hp). lia.
Qed.

Lemma redirectTo_prefix route w below curPage :
  Wx.pages (host w) = below ++ [curPage] ->
  redirectTo route w
  = (_secretReplace route None ;; ret {| Wx.succeeded := true; Wx.errMsg := "ok" |})
      (withHistory (replace (entry route curPage) (_history w))
         (logging [HistoryReplace (entry route curPage)] w)).
Proof.
  intros Hp.
  assert (Hcur : curPageRoute (H:=H) (Wx.pages (host w))
                 = ret (curPage, orElse (Wx.route curPage) (Wx.__route__ curPage))).
  { unfold curPageRoute. now rewrite Hp, rev_unit. }
  unfold redirectTo. unfold bind at 1. unfold getCurrentPages at 1.
  cbv beta iota. rewrite Hcur. reflexivity.
Qed.

(** C10.  For an open and for a replace, on a host with a page on top: the
    first thing the call does is the write to the history (the append, or the
    overwrite of the top entry), every physical call comes after it, and the
    write stays whatever the outcome of the call: the history is one entry
    longer after an open and as long as before after a replace.  This holds
    in particular when the open uses up its retries and throws, and when the
    platform refuses the replace: the call is rejected, the stack is as it
    was, and the history holds the entry of the navigation that did not
    happen. *)
Theorem history_is_written_first_and_kept route w below curPage :
  Wx.pages (host w) = below ++ [curPage] ->
  let opened := open (entry route curPage) (Wx.pages (host w)) (_history w) in
  let save := HistorySavePage (length opened - 2) curPage in
  let opening := navigateTo route w in
  let replacing := redirectTo route w in
  (exists saved es,
      trace (snd opening)
      = trace w ++ HistoryOpen (entry route curPage) :: saved ++ es
      /\ (saved = [] \/ saved = [save])
      /\ forallb isForward es = true)
  /\ length (_history (snd opening)) = (length (_history w) + 1)%Z
  /\ (forall m1 m2 m3 m4 rest,
        Wx.faults (host w) = Some m1 :: Some m2 :: Some m3 :: Some m4 :: rest ->
        includes "limit exceed" m1 = true ->
        includes "limit exceed" m2 = true ->
        includes "limit exceed" m3 = true ->
        includes "limit exceed" m4 = true ->
        (Z.of_nat (List.length (Wx.pages (host w))) < MAX_LEVEL (_config w) - 1)%Z ->
        fst opening = Throw (Failure (Wx.failed m4))
        /\ Wx.pages (host (snd opening)) = Wx.pages (host w)
        /\ _history (snd opening) = opened)
  /\ (exists es,
        trace (snd replacing)
        = trace w ++ HistoryReplace (entry route curPage) :: es
        /\ forallb isForward es = true)
  /\ _history (snd replacing) = replace (entry route curPage) (_history w)
  /\ length (_history (snd replacing)) = length (_history w)
  /\ (forall msg,
        hd None (Wx.faults (host w)) = Some msg ->
        fst replacing = Throw (Failure (Wx.failed msg))
        /\ Wx.pages (host (snd replacing)) = Wx.pages (host w)).
Proof.
  intros Hp opened save opening replacing.
  destruct (@navigateTo_writes_first route w below curPage Hp) as (Htrace & _ & _).
  split; [exact Htrace|].
  split; [exact (@navigateTo_adds_one_entry route w below curPage Hp)|].
  split.
  { intros m1 m2 m3 m4 rest Hf H1 H2 H3 H4 Hcap. unfold opening.
    rewrite (@navigateTo_prefix route w below curPage Hp). cbn zeta.
    replace (_ =? _)%Z with false by (symmetry; apply Z.eqb_neq; lia).
    rewrite andb_false_r.
    replace (_ <? _)%Z with true by (symmetry; apply Z.ltb_lt; lia).
    fold opened.
    set (w1 := withHistory opened (logging [HistoryOpen (entry route curPage)] w)).
    destruct (@open_retries_then_gives_up route None w1 m1 m2 m3 m4 rest)
      as (Hthrow & _ & Hpages & _); try assumption.
    { cbn. lia. }
    rewrite snd_then_ret. split; [|split].
    - now apply fst_then_ret_throw.
    - exact Hpages.
    - now destruct (forward_secretOpen route retryAfter_default retryTimeout_default None w1)
        as (Hh & _). }
  unfold replacing. rewrite (@redirectTo_prefix route w below curPage Hp).
  rewrite snd_then_ret.
  set (w1 := withHistory _ _).
  destruct (forward_secretReplace route None w1) as (Hh & _ & _ & es & Ht & Hes).
  split; [|split; [|split]].
  - exists es. rewrite Ht. cbn. rewrite <- app_assoc. auto.
  - rewrite Hh. reflexivity.
  - rewrite Hh. apply length_replace.
  - intros msg Hf. split.
    + apply fst_then_ret_throw. rewrite (@replace_fails route None w1 msg Hf).
      reflexivity.
    + rewrite (@replace_fails route None w1 msg Hf). reflexivity.
Qed.

(** ** Going back *)

(** [_doBack] once the history is popped. *)
Lemma doBack_prefix (opts : BackOpts) (sysBack : bool) w :
  _doBack opts sysBack w
  = let target := backTarget opts w in
    let L := logicalLength opts w in
    let P := physicalLength sysBack w in
    (if (L <? P)%Z then
       _secretBack {| delta := P - L |} ;;
       if targetCurtain opts w then
         _secretReplace target _forcedRefresh ;; _doLostRestore target
       else if targetTainted opts w then _doTaintedRestore target
       else ret tt
     else if (L =? P)%Z then
       if negb sysBack || targetCurtain opts w then
         _secretReplace target _forcedRefresh ;; _doLostRestore target
       else if targetTainted opts w then _doTaintedRestore target
       else ret tt
     else
       (if sysBack
        then _secretOpen target retryAfter_default retryTimeout_default _forcedRefresh
        else _secretReplace target _forcedRefresh) ;;
       _doLostRestore target) (afterHistoryBack opts w).
Proof.
  unfold _doBack, backTarget, logicalLength, physicalLength, targetCurtain,
    targetTainted, afterHistoryBack, backTarget, logicalLength.
  unfold bind at 1. unfold history_back.
  destruct (back opts (_history w)) as [target h].
  cbv beta iota zeta delta [bind ret emit setHistory getCurrentPages config
                            history_length fst snd].
  cbn [_config _history host withHistory logging].
  reflexivity.
Qed.

Lemma taintedRestore_run route w :
  _doTaintedRestore route w
  = match pageRestoreHandler (_config w) with
    | None => _secretReplace route _forcedRefresh w
    | Some handler =>
        let called := logging [PageRestoreHandler route "tainted"] w in
        match handler route "tainted"%string with
        | Returns report | ReturnsPromise report =>
            if reportsSuccess report then (Ok tt, called)
            else _secretReplace route _forcedRefresh called
        | ReturnsRejected e | Raises e => (Throw (HandlerError e), called)
        end
    end.
Proof.
  unfold _doTaintedRestore. unfold bind at 1. cbn [config].
  destruct (pageRestoreHandler (_config w)) as [handler|]; [|reflexivity].
  unfold bind at 1. unfold bind at 1. cbn [emit]. cbn zeta.
  destruct (handler route "tainted"%string) as [report|report|e|e]; cbn [ret throw];
    try reflexivity; destruct (reportsSuccess report); reflexivity.
Qed.

Lemma replace_starts_with_the_redirect route ep w :
  exists res es,
    trace (snd (_secretReplace route ep w))
    = trace w ++ WxRedirectTo (appendUrlParam (url route) ep) res :: es.
Proof.
  destruct (hd None (Wx.faults (host w))) as [msg|] eqn:Hf.
  - rewrite (replace_fails _ _ _ Hf). now exists (Wx.failed msg), [].
  - rewrite (replace_succeeds _ _ _ Hf). cbn.
    exists (Wx.ok "redirectTo"), [Delay NAV_BUSY_REMAIN].
    now rewrite <- app_assoc.
Qed.

Lemma lostRestore_run route w :
  _doLostRestore route w
  = match pageRestoreHandler (_config w) with
    | None => (Ok tt, w)
    | Some handler =>
        let called := logging [PageRestoreHandler route "unloaded"] w in
        match handler route "unloaded"%string with
        | Raises e => (Throw (HandlerError e), called)
        | _ => (Ok tt, called)
        end
    end.
Proof.
  unfold _doLostRestore. unfold bind at 1. cbn [config].
  destruct (pageRestoreHandler (_config w)) as [handler|]; [|reflexivity].
  unfold bind at 1. cbn [emit]. cbn zeta.
  destruct (handler route "unloaded"%string); reflexivity.
Qed.

(** The replace of the top page with the target of a back, and the
    lost-restore hook behind it. *)
Lemma replace_then_lost_restore route w :
  let u := appendUrlParam (url route) _forcedRefresh in
  let r := (_secretReplace route _forcedRefresh ;; _doLostRestore route) w in
  (hd None (Wx.faults (host w)) = None ->
   Wx.pages (host (snd r)) = removelast (Wx.pages (host w)) ++ [Wx.pageOf u]
   /\ match pageRestoreHandler (_config w) with
      | None =>
          fst r = Ok tt
          /\ trace (snd r)
             = trace w ++ [WxRedirectTo u (Wx.ok "redirectTo"); Delay 300]
      | Some handler =>
          trace (snd r)
          = trace w ++ [WxRedirectTo u (Wx.ok "redirectTo"); Delay 300;
                        PageRestoreHandler route "unloaded"]
          /\ fst r = match handler route "unloaded"%string with
                     | Raises e => Throw (HandlerError e)
                     | _ => Ok tt
                     end
      end)
  /\ (forall msg,
        hd None (Wx.faults (host w)) = Some msg ->
        fst r = Throw (Failure (Wx.failed msg))
        /\ trace (snd r) = trace w ++ [WxRedirectTo u (Wx.failed msg)]
        /\ Wx.pages (host (snd r)) = Wx.pages (host w)).
Proof.
  intros u r. unfold r, bind. split.
  - intros Hf. rewrite (replace_succeeds _ _ _ Hf). cbv beta iota zeta. fold u.
    rewrite lostRestore_run.
    cbn [_config logging withHost withActiveUnload].
    destruct (pageRestoreHandler (_config w)) as [handler|].
    + cbn zeta. destruct (handler route "unloaded"%string);
        cbn; (repeat split; now rewrite <- !app_assoc).
    + cbn. repeat split; now rewrite <- !app_assoc.
  - intros msg Hf. rewrite (replace_fails _ _ _ Hf). cbn. now repeat split.
Qed.

(** C6, as amended.  Back at equal depth: when the logical length after the
    pop equals the physical length (one less for a system back), then: if
    the back is made by code, or [targetCurtain] holds (curtain mode is on
    and the logical length is [MAX_LEVEL - 1]: the only test the resolver
    makes for a curtain page on top, the page itself is not looked at), the
    replace of the top page with the target carrying [_forcedRefresh] is
    issued.  When the platform accepts it, the lost-restore hook runs next:
    the handler, if one is configured, is called with context "unloaded",
    and only a handler that throws makes the back fail; for a back made by
    code the target has then taken the place of the top page.  When the
    platform refuses the replace, the back is rejected with that refusal,
    the stack is as it was and the hook does not run.  Otherwise, if tainted
    restore is enabled and the target is marked tainted, the tainted-restore
    hook runs: the handler is called with context "tainted", or, with no
    handler, the page is reloaded.  Otherwise nothing physical is done.
    (For a system back the platform is closing the top page by itself, which
    the host does not play; the stack is therefore given for a back made by
    code.) *)
Theorem back_at_equal_depth (opts : BackOpts) (sysBack : bool) w :
  logicalLength opts w = physicalLength sysBack w ->
  let target := backTarget opts w in
  let u := appendUrlParam (url target) _forcedRefresh in
  let w1 := afterHistoryBack opts w in
  let r := _doBack opts sysBack w in
  r = (if negb sysBack || targetCurtain opts w then
         (_secretReplace target _forcedRefresh ;; _doLostRestore target) w1
       else if targetTainted opts w then _doTaintedRestore target w1
       else (Ok tt, w1))
  /\ (negb sysBack || targetCurtain opts w = true ->
      (hd None (Wx.faults (host w)) = None ->
       (sysBack = false ->
        Wx.pages (host (snd r)) = removelast (Wx.pages (host w)) ++ [Wx.pageOf u])
       /\ match pageRestoreHandler (_config w) with
          | None =>
              fst r = Ok tt
              /\ trace (snd r)
                 = trace w ++ [HistoryBack opts;
                               WxRedirectTo u (Wx.ok "redirectTo"); Delay 300]
          | Some handler =>
              trace (snd r)
              = trace w ++ [HistoryBack opts;
                            WxRedirectTo u (Wx.ok "redirectTo"); Delay 300;
                            PageRestoreHandler target "unloaded"]
              /\ fst r = match handler target "unloaded"%string with
                         | Raises e => Throw (HandlerError e)
                         | _ => Ok tt
                         end
          end)
      /\ (forall msg,
            hd None (Wx.faults (host w)) = Some msg ->
            fst r = Throw (Failure (Wx.failed msg))
            /\ trace (snd r)
               = trace w ++ [HistoryBack opts; WxRedirectTo u (Wx.failed msg)]
            /\ Wx.pages (host (snd r)) = Wx.pages (host w)))
  /\ (negb sysBack || targetCurtain opts w = false ->
      targetTainted opts w = true ->
      match pageRestoreHandler (_config w) with
      | None =>
          exists res es,
            trace (snd r) = trace w ++ HistoryBack opts :: WxRedirectTo u res :: es
      | Some handler =>
          exists es,
            trace (snd r)
            = trace w ++ HistoryBack opts :: PageRestoreHandler target "tainted" :: es
      end)
  /\ (negb sysBack || targetCurtain opts w = false ->
      targetTainted opts w = false ->
      fst r = Ok tt
      /\ host (snd r) = host w
      /\ trace (snd r) = trace w ++ [HistoryBack opts]).
Proof.
  intros HLP target u w1 r.
  assert (Hr : r = (if negb sysBack || targetCurtain opts w then
                      (_secretReplace target _forcedRefresh ;; _doLostRestore target) w1
                    else if targetTainted opts w then _doTaintedRestore target w1
                    else (Ok tt, w1))).
  { unfold r. rewrite doBack_prefix. cbn zeta. rewrite HLP, Z.ltb_irrefl, Z.eqb_refl.
    fold target w1.
    destruct (negb sysBack || targetCurtain opts w); [reflexivity|].
    destruct (targetTainted opts w); reflexivity. }
  split; [exact Hr|]. clearbody r. subst r.
  assert (Hw1 : trace w1 = trace w ++ [HistoryBack opts]) by reflexivity.
  assert (Hhost1 : host w1 = host w) by reflexivity.
  assert (Hcfg1 : _config w1 = _config w) by reflexivity.
  clearbody w1.
  split; [|split].
  - intros Hc. rewrite Hc.
    destruct (replace_then_lost_restore target w1) as (Hok & Hfail).
    fold u in Hok, Hfail. rewrite Hhost1, Hcfg1, Hw1 in *. split.
    + intros Hf. destruct (Hok Hf) as (Hpages & Hhook).
      split; [intros _; exact Hpages|].
      destruct (pageRestoreHandler (_config w)) as [handler|].
      * destruct Hhook as (Ht & Hres). rewrite Ht, <- app_assoc. now split.
      * destruct Hhook as (Hres & Ht). rewrite Ht, <- app_assoc. now split.
    + intros msg Hf. destruct (Hfail msg Hf) as (Hres & Ht & Hpages).
      rewrite Ht, <- app_assoc. now repeat split.
  - intros Hc Ht. rewrite Hc, Ht. rewrite taintedRestore_run, Hcfg1.
    destruct (pageRestoreHandler (_config w)) as [handler|].
    + cbn zeta.
      assert (Hcalled : trace (logging [PageRestoreHandler target "tainted"] w1)
                        = trace w ++ [HistoryBack opts; PageRestoreHandler target "tainted"])
        by (cbn; now rewrite Hw1, <- app_assoc).
      assert (Hreload : exists es,
                trace (snd (_secretReplace target _forcedRefresh
                              (logging [PageRestoreHandler target "tainted"] w1)))
                = trace w ++ HistoryBack opts :: PageRestoreHandler target "tainted" :: es).
      { destruct (replace_starts_with_the_redirect target _forcedRefresh
                    (logging [PageRestoreHandler target "tainted"] w1))
          as (res & es & Hes).
        exists (WxRedirectTo u res :: es). rewrite Hes, Hcalled, <- app_assoc.
        reflexivity. }
      destruct (handler target "tainted"%string) as [report|report|e|e];
        try (exists []; exact Hcalled);
        (destruct (reportsSuccess report); [exists []; exact Hcalled|exact Hreload]).
    + destruct (replace_starts_with_the_redirect target _forcedRefresh w1)
        as (res & es & Hes).
      exists res, es. rewrite Hes, Hw1, <- app_assoc. reflexivity.
  - intros Hc Ht. rewrite Hc, Ht. cbn [fst snd]. now rewrite Hhost1, Hw1.
Qed.

(** With a deeper physical stack the pop is the first physical call and the
    only pop. *)
Lemma back_pop_comes_first (opts : BackOpts) (sysBack : bool) w :
  (logicalLength opts w < physicalLength sysBack w)%Z ->
  let d := (physicalLength sysBack w - logicalLength opts w)%Z in
  let r := _doBack opts sysBack w in
  exists res es,
    trace (snd r) = trace w ++ HistoryBack opts :: WxNavigateBack d res :: es
    /\ forallb isForward es = true
    /\ pops (trace (snd r)) = pops (trace w) ++ [d].
Proof.
  intros HLP d r. unfold r. rewrite doBack_prefix. cbn zeta.
  rewrite (proj2 (Z.ltb_lt _ _) HLP). fold d.
  set (w1 := afterHistoryBack opts w).
  set (rest := if targetCurtain opts w then _ else _).
  assert (Hrest : Forward rest).
  { unfold rest. destruct (targetCurtain opts w); [auto with forward|].
    destruct (targetTainted opts w); auto with forward. }
  assert (Hgoal : forall res es (W : World H),
             trace W = trace w ++ HistoryBack opts :: WxNavigateBack d res :: es ->
             forallb isForward es = true ->
             exists res es,
               trace W = trace w ++ HistoryBack opts :: WxNavigateBack d res :: es
               /\ forallb isForward es = true
               /\ pops (trace W) = pops (trace w) ++ [d]).
  { intros res es W Ht Hes. exists res, es. repeat split; try assumption.
    rewrite Ht, pops_app. cbn. now rewrite (forward_no_pops _ Hes). }
  unfold bind.
  destruct (hd None (Wx.faults (host w1))) as [msg|] eqn:Hf.
  - rewrite (back_fails _ _ Hf). cbn [snd delta].
    apply (Hgoal (Wx.failed msg) []); [|reflexivity].
    unfold w1, afterHistoryBack. cbn. now rewrite <- app_assoc.
  - rewrite (back_succeeds _ _ Hf). cbn [delta].
    set (w2 := logging [Delay _] _).
    destruct (Hrest w2) as (_ & _ & _ & es & Ht & Hes).
    apply (Hgoal (Wx.ok "navigateBack") (Delay (match Wx.os (host w1) with
                                                | Wx.ios => NAV_BUSY_REMAIN * 3
                                                | Wx.android => NAV_BUSY_REMAIN
                                                end) :: es)).
    + rewrite Ht. unfold w2, w1, afterHistoryBack. cbn. now rewrite <- !app_assoc.
    + cbn. exact Hes.
Qed.

(** What the pop of [d] pages leaves on the stack. *)
Lemma popped_pages (d : Z) (ps : list Wx.Page) :
  (0 < d)%Z ->
  (1 <= Z.of_nat (List.length ps) - d)%Z ->
  Wx.popped d ps = firstn (Z.to_nat (Z.of_nat (List.length ps) - d)) ps
  /\ Z.of_nat (List.length (Wx.popped d ps)) = (Z.of_nat (List.length ps) - d)%Z.
Proof.
  intros Hd Hleft. unfold Wx.popped.
  rewrite Z.max_r by assumption. split; [reflexivity|].
  rewrite length_firstn. lia.
Qed.

(** C7.  Back with a deeper physical stack: when the logical length [L]
    after the pop is below the physical length [P] (the observed stack
    length, minus one exactly for a system back), the first thing [_doBack]
    does after popping the history is one physical pop of [d = P - L] pages,
    and it is the only pop of the call.  When the platform accepts it, [d]
    pages have left the stack (the history not being empty) before anything
    else is done: the curtain replacement and the restore hooks run on the
    popped stack, which for a back made by code is the first [L] pages of
    the old one; in the curtain case the replace then puts the target in
    the place of the page the pop has uncovered.  When the platform refuses
    the pop, the back is rejected with that refusal, the stack is as it was
    and neither a replace nor a restore hook follows.  (For a system back
    the platform is closing the top page by itself, which the host does not
    play; the pages that remain are therefore given for a back made by
    code.) *)
Theorem back_pops_the_surplus_first (opts : BackOpts) (sysBack : bool) w :
  (logicalLength opts w < physicalLength sysBack w)%Z ->
  let target := backTarget opts w in
  let u := appendUrlParam (url target) _forcedRefresh in
  let d := (physicalLength sysBack w - logicalLength opts w)%Z in
  let r := _doBack opts sysBack w in
  let popped := snd (_secretBack {| delta := d |} (afterHistoryBack opts w)) in
  (exists res es,
      trace (snd r) = trace w ++ HistoryBack opts :: WxNavigateBack d res :: es
      /\ forallb isForward es = true
      /\ pops (trace (snd r)) = pops (trace w) ++ [d])
  /\ (hd None (Wx.faults (host w)) = None ->
      trace popped
      = trace w ++ [HistoryBack opts; WxNavigateBack d (Wx.ok "navigateBack");
                    Delay (match Wx.os (host w) with
                           | Wx.ios => 900
                           | Wx.android => 300
                           end)]
      /\ ((1 <= logicalLength opts w)%Z -> depth popped = (depth w - d)%Z)
      /\ (sysBack = false ->
          (1 <= logicalLength opts w)%Z ->
          Wx.pages (host popped)
          = firstn (Z.to_nat (logicalLength opts w)) (Wx.pages (host w)))
      /\ r = (if targetCurtain opts w then
                _secretReplace target _forcedRefresh ;; _doLostRestore target
              else if targetTainted opts w then _doTaintedRestore target
              else ret tt) popped
      /\ (targetCurtain opts w = true ->
          hd None (tl (Wx.faults (host w))) = None ->
          Wx.pages (host (snd r))
          = removelast (Wx.pages (host popped)) ++ [Wx.pageOf u]))
  /\ (forall msg,
        hd None (Wx.faults (host w)) = Some msg ->
        fst r = Throw (Failure (Wx.failed msg))
        /\ trace (snd r)
           = trace w ++ [HistoryBack opts; WxNavigateBack d (Wx.failed msg)]
        /\ Wx.pages (host (snd r)) = Wx.pages (host w)).
Proof.
  intros HLP target u d r popped.
  split; [exact (back_pop_comes_first opts sysBack w HLP)|].
  assert (Hr : r = (_secretBack {| delta := d |} ;;
                    if targetCurtain opts w then
                      _secretReplace target _forcedRefresh ;; _doLostRestore target
                    else if targetTainted opts w then _doTaintedRestore target
                    else ret tt) (afterHistoryBack opts w)).
  { unfold r. rewrite doBack_prefix. cbn zeta.
    now rewrite (proj2 (Z.ltb_lt _ _) HLP). }
  clearbody r. unfold popped. clear popped.
  set (w1 := afterHistoryBack opts w) in *.
  assert (Hw1 : trace w1 = trace w ++ [HistoryBack opts]) by reflexivity.
  assert (Hhost1 : host w1 = host w) by reflexivity.
  clearbody w1. unfold bind at 1 in Hr.
  split.
  - intros Hf. rewrite <- Hhost1 in Hf.
    rewrite (back_succeeds _ _ Hf) in *. cbn [snd delta] in *.
    set (w2 := logging [Delay _] _) in *.
    assert (Hpages2 : Wx.pages (host w2) = Wx.popped d (Wx.pages (host w))).
    { unfold w2. cbn [host logging withHost withActiveUnload Wx.moved Wx.pages].
      now rewrite Hhost1. }
    assert (Hfaults2 : Wx.faults (host w2) = tl (Wx.faults (host w))).
    { unfold w2. cbn [host logging withHost withActiveUnload Wx.moved Wx.faults].
      now rewrite Hhost1. }
    assert (Ht2 : trace w2
                  = trace w ++ [HistoryBack opts;
                                WxNavigateBack d (Wx.ok "navigateBack");
                                Delay (match Wx.os (host w) with
                                       | Wx.ios => 900
                                       | Wx.android => 300
                                       end)]).
    { unfold w2. cbn [trace logging withHost withActiveUnload].
      rewrite Hw1, Hhost1, <- !app_assoc. now destruct (Wx.os (host w)). }
    clearbody w2.
    assert (Hd : (0 < d)%Z) by (unfold d; lia).
    assert (Hleft : (1 <= logicalLength opts w)%Z ->
              (1 <= Z.of_nat (List.length (Wx.pages (host w))) - d)%Z).
    { unfold d, physicalLength. destruct sysBack; lia. }
    split; [exact Ht2|]. split; [|split; [|split]].
    + intros Hone. unfold depth. rewrite Hpages2.
      exact (proj2 (popped_pages (Wx.pages (host w)) Hd (Hleft Hone))).
    + intros -> Hone. rewrite Hpages2.
      rewrite (proj1 (popped_pages (Wx.pages (host w)) Hd (Hleft Hone))).
      f_equal. unfold d, physicalLength. f_equal. lia.
    + exact Hr.
    + intros Hc Hnext. rewrite Hr, Hc.
      rewrite <- Hfaults2 in Hnext.
      exact (proj1 (proj1 (replace_then_lost_restore target w2) Hnext)).
  - intros msg Hf. rewrite <- Hhost1 in Hf.
    rewrite (back_fails _ _ Hf) in Hr. subst r.
    cbn [fst snd delta trace host logging withHost withActiveUnload Wx.spent Wx.pages].
    rewrite Hw1, Hhost1, <- app_assoc. now repeat split.
Qed.

(** ** Restoring a tainted page *)

(** The tainted-restore hook, handler result by handler result.  When back
    lands on a target that is marked tainted, with tainted restore enabled
    and no curtain to replace, the hook is the last thing it runs, after the
    pop if the physical stack is deeper, and at equal depth for a system
    back; back ends the way the hook ends.  The hook calls the configured
    handler with context "tainted" and awaits its result if it is a promise.
    When the handler returns or resolves to a report, the hook ends at once
    if the report says [succeeded], and otherwise (as when no handler is
    configured) reloads the route with a physical replace carrying
    [_forcedRefresh]; the report itself goes no further.  When the handler
    throws or its promise is rejected, the hook is rejected with that
    error. *)
Lemma tainted_restore_falls_back_unless_the_handler_fails
  (opts : BackOpts) (sysBack : bool) w :
  targetCurtain opts w = false ->
  targetTainted opts w = true ->
  let target := backTarget opts w in
  let L := logicalLength opts w in
  let P := physicalLength sysBack w in
  let w1 := afterHistoryBack opts w in
  ((L < P)%Z ->
   _doBack opts sysBack w
   = (_secretBack {| delta := P - L |} ;; _doTaintedRestore target) w1)
  /\ (L = P -> sysBack = true ->
      _doBack opts sysBack w = _doTaintedRestore target w1)
  /\ (forall w',
        pageRestoreHandler (_config w') = None ->
        _doTaintedRestore target w' = _secretReplace target _forcedRefresh w')
  /\ (forall w' handler,
        pageRestoreHandler (_config w') = Some handler ->
        let called := logging [PageRestoreHandler target "tainted"] w' in
        let r := _doTaintedRestore target w' in
        match handler target "tainted"%string with
        | Returns report | ReturnsPromise report =>
            if reportsSuccess report
            then r = (Ok tt, called)
            else r = _secretReplace target _forcedRefresh called
                 /\ exists res es,
                      trace (snd r)
                      = trace called
                          ++ WxRedirectTo (appendUrlParam (url target) _forcedRefresh) res
                          :: es
        | ReturnsRejected e | Raises e =>
            r = (Throw (HandlerError e), called)
        end).
Proof.
  intros Hc Ht target L P w1. split; [|split; [|split]].
  - intros HLP. rewrite doBack_prefix. cbn zeta. fold L P target w1.
    now rewrite (proj2 (Z.ltb_lt _ _) HLP), Hc, Ht.
  - intros HLP Hsys. subst sysBack. rewrite doBack_prefix. cbn zeta.
    fold L P target w1.
    now rewrite HLP, Z.ltb_irrefl, Z.eqb_refl, Hc, Ht.
  - intros w' Hh. now rewrite taintedRestore_run, Hh.
  - intros w' handler Hh called r.
    assert (Hr : r = _) by exact (taintedRestore_run target w').
    rewrite Hh in Hr. cbn zeta in Hr. fold called in Hr. clearbody r.
    destruct (handler target "tainted"%string) as [report|report|e|e];
      try exact Hr.
    + destruct (reportsSuccess report); [exact Hr|split; [exact Hr|]].
      rewrite Hr. apply replace_starts_with_the_redirect.
    + destruct (reportsSuccess report); [exact Hr|split; [exact Hr|]].
      rewrite Hr. apply replace_starts_with_the_redirect.
Qed.

(** A back that runs the tainted-restore hook ends the way the hook ends:
    an error of the handler reaches the caller of [navigateBack]. *)
Lemma back_ends_as_the_tainted_restore_ends (opts : BackOpts) w e :
  hd None (Wx.faults (host w)) = None ->
  (logicalLength opts w < physicalLength false w)%Z ->
  targetCurtain opts w = false ->
  targetTainted opts w = true ->
  let popped :=
    snd (_secretBack {| delta := physicalLength false w - logicalLength opts w |}
           (afterHistoryBack opts w)) in
  fst (_doTaintedRestore (backTarget opts w) popped) = Throw e ->
  fst (navigateBack opts w) = Throw e.
Proof.
  intros Hf HLP Hc Ht popped He. unfold navigateBack.
  apply fst_then_ret_throw. rewrite doBack_prefix. cbn zeta.
  rewrite (proj2 (Z.ltb_lt _ _) HLP), Hc, Ht. unfold bind.
  unfold popped in He.
  rewrite back_succeeds in * by exact Hf. cbn [snd] in He.
  destruct (_doTaintedRestore _ _) as [[a|e'] w']; cbn in *; congruence.
Qed.

(** C8 at its failing input.  A back that lands on a target marked tainted,
    with tainted restore enabled, no curtain to replace and a restore
    handler that fails: it throws, or the promise it returns is rejected.
    [_doTaintedRestore] has no [try] around the call and the [await]: it is
    rejected with the handler's error right after the call of the handler,
    and the reload that is to make up for a failed restore is never issued.
    [_doBack], which awaits the hook, is rejected with the same error, after
    the pop when the physical stack is deeper and at once at equal depth for
    a system back, where the stack is left as the platform's back left it;
    and so is [navigateBack], which awaits [_doBack]: the failure of the
    restore reaches the caller of back. *)
Theorem a_failing_restore_handler_rejects_back_without_a_reload
  (opts : BackOpts) (sysBack : bool) w handler e :
  targetCurtain opts w = false ->
  targetTainted opts w = true ->
  pageRestoreHandler (_config w) = Some handler ->
  handler (backTarget opts w) "tainted"%string = ReturnsRejected e
  \/ handler (backTarget opts w) "tainted"%string = Raises e ->
  let target := backTarget opts w in
  let L := logicalLength opts w in
  let P := physicalLength sysBack w in
  let r := _doBack opts sysBack w in
  (forall w',
      pageRestoreHandler (_config w') = Some handler ->
      _doTaintedRestore target w'
      = (Throw (HandlerError e), logging [PageRestoreHandler target "tainted"] w'))
  /\ ((L < P)%Z ->
      hd None (Wx.faults (host w)) = None ->
      fst r = Throw (HandlerError e)
      /\ trace (snd r)
         = trace w ++ [HistoryBack opts;
                       WxNavigateBack (P - L) (Wx.ok "navigateBack");
                       Delay (match Wx.os (host w) with
                              | Wx.ios => 900
                              | Wx.android => 300
                              end);
                       PageRestoreHandler target "tainted"]
      /\ (sysBack = false -> fst (navigateBack opts w) = Throw (HandlerError e)))
  /\ (L = P ->
      sysBack = true ->
      fst r = Throw (HandlerError e)
      /\ trace (snd r)
         = trace w ++ [HistoryBack opts; PageRestoreHandler target "tainted"]
      /\ host (snd r) = host w).
Proof.
  intros Hc Ht Hh Hfail target L P r.
  assert (Hhook : forall w',
            pageRestoreHandler (_config w') = Some handler ->
            _doTaintedRestore target w'
            = (Throw (HandlerError e),
               logging [PageRestoreHandler target "tainted"] w')).
  { intros w' Hh'. rewrite taintedRestore_run, Hh'. cbn zeta. fold target in Hfail.
    destruct Hfail as [-> | ->]; reflexivity. }
  split; [exact Hhook|]. split.
  - intros HLP Hf.
    assert (Hr : r = (_secretBack {| delta := P - L |} ;; _doTaintedRestore target)
                       (afterHistoryBack opts w)).
    { unfold r. rewrite doBack_prefix. cbn zeta. fold target L P.
      now rewrite (proj2 (Z.ltb_lt _ _) HLP), Hc, Ht. }
    assert (Hthrow : fst r = Throw (HandlerError e)
                     /\ trace (snd r)
                        = trace w ++ [HistoryBack opts;
                                      WxNavigateBack (P - L) (Wx.ok "navigateBack");
                                      Delay (match Wx.os (host w) with
                                             | Wx.ios => 900
                                             | Wx.android => 300
                                             end);
                                      PageRestoreHandler target "tainted"]).
    { rewrite Hr. unfold bind.
      rewrite back_succeeds by exact Hf. rewrite Hhook by exact Hh.
      cbn [fst snd delta trace host logging withHost withActiveUnload afterHistoryBack
           withHistory].
      split; [reflexivity|]. rewrite <- !app_assoc.
      now destruct (Wx.os (host w)). }
    destruct Hthrow as [Hres Htrace]. split; [exact Hres|]. split; [exact Htrace|].
    intros ->. unfold navigateBack. now apply fst_then_ret_throw.
  - intros HLP ->.
    assert (Hr : r = _doTaintedRestore target (afterHistoryBack opts w)).
    { unfold r. rewrite doBack_prefix. cbn zeta. fold target L P.
      now rewrite HLP, Z.ltb_irrefl, Z.eqb_refl, Hc, Ht. }
    rewrite Hr, Hhook by exact Hh. cbn. rewrite <- app_assoc. now repeat split.
Qed.

(** ** Page teardown *)

Local Abbreviation lockCall := (NoConcurrent.call tt tt finishActiveUnload_oriFunc).

Lemma teardown_while_flagged w :
  _activeUnload w = true ->
  onPageUnload w
  = (Ok tt,
     withFinishLock
       (lockCall NoConcurrent.discard
          (List.length (NoConcurrent.log (finishLock w))) (finishLock w)) w).
Proof. intros Hf. unfold onPageUnload. now rewrite Hf. Qed.

(** Once a clear is scheduled, further notifications are discarded. *)
Lemma teardowns_discarded (n : nat) :
  forall w c,
    _activeUnload w = true ->
    NoConcurrent.running (NoConcurrent.statusControl (finishLock w)) = true ->
    scheduledClears w = [c] ->
    let w' := teardowns n w in
    scheduledClears w' = [c]
    /\ NoConcurrent.statusControl (finishLock w')
       = NoConcurrent.statusControl (finishLock w)
    /\ NoConcurrent.invocations (NoConcurrent.log (finishLock w'))
       = NoConcurrent.invocations (NoConcurrent.log (finishLock w))
    /\ _activeUnload w' = true
    /\ trace w' = trace w /\ _history w' = _history w /\ host w' = host w.
Proof.
  induction n as [|n IH]; intros w c Hflag Hrun Hsched; cbn [teardowns].
  - repeat split; assumption.
  - rewrite (teardown_while_flagged _ Hflag). cbn [snd].
    set (w1 := withFinishLock _ w).
    assert (Hlock : finishLock w1
                    = NoConcurrent.say
                        (NoConcurrent.Settles
                           (List.length (NoConcurrent.log (finishLock w)))
                           (NoConcurrent.Fulfilled tt)) (finishLock w)).
    { unfold w1. cbn [finishLock withFinishLock]. unfold NoConcurrent.call.
      now rewrite Hrun. }
    destruct (IH w1 c) as (H1 & H2 & H3 & H4 & H5 & H6 & H7).
    + exact Hflag.
    + rewrite Hlock. exact Hrun.
    + unfold scheduledClears. rewrite Hlock. exact Hsched.
    + cbn zeta in *. rewrite H1, H2, H3, H4, H5, H6, H7, Hlock.
      unfold NoConcurrent.say.
      cbn [NoConcurrent.statusControl NoConcurrent.log].
      rewrite NoConcurrentFacts.invocations_app. cbn. rewrite app_nil_r.
      repeat split.
Qed.

(** Every branch of [_doBack] starts by popping the history. *)
Lemma forward_appends A (m : M H A) :
  Forward m -> forall w, exists es, trace (snd (m w)) = trace w ++ es.
Proof. intros Hm w. destruct (Hm w) as (_ & _ & _ & es & Ht & _). now exists es. Qed.

Lemma secretBack_appends (opts : BackOpts) w :
  exists es, trace (snd (_secretBack opts w)) = trace w ++ es.
Proof.
  destruct (hd None (Wx.faults (host w))) as [msg|] eqn:Hf.
  - rewrite (back_fails _ _ Hf). cbn. eauto.
  - rewrite (back_succeeds _ _ Hf). cbn. rewrite <- app_assoc. eauto.
Qed.

Lemma bind_appends A B (m : M H A) (k : A -> M H B) :
  (forall w, exists es, trace (snd (m w)) = trace w ++ es) ->
  (forall a w, exists es, trace (snd (k a w)) = trace w ++ es) ->
  forall w, exists es, trace (snd (bind m k w)) = trace w ++ es.
Proof.
  intros Hm Hk w. unfold bind. destruct (Hm w) as [es Ht].
  destruct (m w) as [[a|e] w1]; cbn [snd] in *.
  - destruct (Hk a w1) as [es' Ht']. exists (es ++ es').
    now rewrite Ht', Ht, app_assoc.
  - now exists es.
Qed.

Lemma doBack_pops_the_history_first (opts : BackOpts) (sysBack : bool) w :
  exists es, trace (snd (_doBack opts sysBack w)) = trace w ++ HistoryBack opts :: es.
Proof.
  rewrite doBack_prefix. cbn zeta.
  set (w1 := afterHistoryBack opts w).
  match goal with
  | |- exists es, trace (snd (?m w1)) = _ =>
      assert (Hm : forall w', exists es, trace (snd (m w')) = trace w' ++ es)
  end.
  { destruct (_ <? _)%Z; [|destruct (_ =? _)%Z].
    - apply bind_appends; [apply secretBack_appends|]. intros _.
      apply forward_appends.
      destruct (targetCurtain opts w); [auto with forward|].
      destruct (targetTainted opts w); auto with forward.
    - apply forward_appends.
      destruct (negb sysBack || targetCurtain opts w); [auto with forward|].
      destruct (targetTainted opts w); auto with forward.
    - apply forward_appends. destruct sysBack; auto with forward. }
  destruct (Hm w1) as [es Ht]. exists es. rewrite Ht.
  unfold w1, afterHistoryBack. cbn. now rewrite <- app_assoc.
Qed.

(** C9.  Teardown routing.  While the active-unload flag is up, a teardown
    notification only calls the decorated [_finishActiveUnload]: it
    navigates nowhere and leaves history, stack and flag as they are.  A
    burst of notifications starts the delayed clear exactly once: the first
    one finds the lock free and starts it, the later ones (as all of them do
    when a clear is already scheduled) are discarded by the lock; the flag
    comes down and the lock is released when the delay has elapsed.  While
    the flag is down, a notification runs [_doBack] with [delta = 1] and
    [sysBack = true], and that is all it does. *)
Theorem teardown_routing w (n : nat) :
  (_activeUnload w = true ->
   let w' := snd (onPageUnload w) in
   fst (onPageUnload w) = Ok tt
   /\ trace w' = trace w /\ _history w' = _history w /\ host w' = host w
   /\ _activeUnload w' = true)
  /\ (_activeUnload w = true ->
      NoConcurrent.statusControl (finishLock w) = NoConcurrent.fresh ->
      NoConcurrent.inflight (finishLock w) = [] ->
      let c := List.length (NoConcurrent.log (finishLock w)) in
      let burst := teardowns (S n) w in
      let cleared := snd (delayElapsed c burst) in
      scheduledClears burst = [c]
      /\ NoConcurrent.invocations (NoConcurrent.log (finishLock burst))
         = NoConcurrent.invocations (NoConcurrent.log (finishLock w)) ++ [c]
      /\ _activeUnload burst = true
      /\ trace burst = trace w /\ _history burst = _history w /\ host burst = host w
      /\ _activeUnload cleared = false
      /\ scheduledClears cleared = []
      /\ NoConcurrent.statusControl (finishLock cleared) = NoConcurrent.fresh
      /\ trace cleared = trace w)
  /\ (forall c,
        _activeUnload w = true ->
        NoConcurrent.running (NoConcurrent.statusControl (finishLock w)) = true ->
        scheduledClears w = [c] ->
        let burst := teardowns n w in
        scheduledClears burst = [c]
        /\ NoConcurrent.invocations (NoConcurrent.log (finishLock burst))
           = NoConcurrent.invocations (NoConcurrent.log (finishLock w)))
  /\ (_activeUnload w = false ->
      onPageUnload w = (Ok tt, snd (_doBack {| delta := 1 |} true w))
      /\ exists es,
           trace (snd (onPageUnload w)) = trace w ++ HistoryBack {| delta := 1 |} :: es).
Proof.
  split; [|split; [|split]].
  - intros Hflag. rewrite (teardown_while_flagged _ Hflag). cbn. auto.
  - intros Hflag Hfresh Hidle c burst cleared.
    set (w1 := snd (onPageUnload w)).
    assert (Hlock : finishLock w1
                    = {| NoConcurrent.statusControl :=
                           {| NoConcurrent.running := true; NoConcurrent.listeners := [] |};
                         NoConcurrent.inflight := [c];
                         NoConcurrent.jobs := NoConcurrent.jobs (finishLock w);
                         NoConcurrent.log :=
                           NoConcurrent.log (finishLock w) ++ [NoConcurrent.Invoked c] |}).
    { unfold w1. rewrite (teardown_while_flagged _ Hflag).
      cbn [snd finishLock withFinishLock]. unfold NoConcurrent.call.
      rewrite Hfresh. cbn [NoConcurrent.running NoConcurrent.fresh].
      unfold NoConcurrent.start, finishActiveUnload_oriFunc.
      rewrite Hfresh, Hidle. reflexivity. }
    assert (Hrest : _activeUnload w1 = true /\ trace w1 = trace w
                    /\ _history w1 = _history w /\ host w1 = host w).
    { unfold w1. rewrite (teardown_while_flagged _ Hflag). cbn. auto. }
    destruct Hrest as (Hflag1 & Htr1 & Hh1 & Hhost1).
    destruct (@teardowns_discarded n w1 c) as (H1 & H2 & H3 & H4 & H5 & H6 & H7).
    + exact Hflag1.
    + now rewrite Hlock.
    + unfold scheduledClears. now rewrite Hlock.
    + change (teardowns n w1) with burst in *.
      assert (Hcleared : cleared
                = withFinishLock
                    (NoConcurrent.settle finishActiveUnload_oriFunc c (finishLock burst))
                    (withActiveUnload false burst)).
      { unfold cleared, delayElapsed. rewrite H1. cbn [existsb].
        rewrite Nat.eqb_refl. reflexivity. }
      assert (Hsettled :
                NoConcurrent.statusControl
                  (NoConcurrent.settle finishActiveUnload_oriFunc c (finishLock burst))
                = NoConcurrent.fresh
                /\ NoConcurrent.inflight
                     (NoConcurrent.settle finishActiveUnload_oriFunc c (finishLock burst))
                   = []).
      { unfold scheduledClears in H1. unfold NoConcurrent.settle. rewrite H1.
        cbn [existsb]. rewrite Nat.eqb_refl. cbn [orb finishActiveUnload_oriFunc].
        unfold NoConcurrent.finish, NoConcurrent.handleRunFinish.
        cbn [NoConcurrent.statusControl]. rewrite H2, Hlock.
        cbn. now rewrite Nat.eqb_refl. }
      destruct Hsettled as [Hs1 Hs2].
      rewrite Hcleared. unfold scheduledClears in *.
      cbn [finishLock _activeUnload trace withFinishLock withActiveUnload].
      rewrite H1, H3, H4, H5, H6, H7, Hlock, Hs1, Hs2, Htr1, Hh1, Hhost1.
      cbn [NoConcurrent.log]. rewrite NoConcurrentFacts.invocations_app. cbn.
      repeat split.
  - intros c Hflag Hrun Hsched burst.
    destruct (@teardowns_discarded n w c Hflag Hrun Hsched) as (H1 & _ & H3 & _).
    split; assumption.
  - intros Hflag. split.
    + unfold onPageUnload. now rewrite Hflag.
    + unfold onPageUnload. rewrite Hflag. unfold detached. cbn [snd].
      apply doBack_pops_the_history_first.
Qed.

(** ** Steady computations *)

Lemma depth_pos w : Wx.pages (host w) <> [] <-> (0 < depth w)%Z.
Proof.
  unfold depth. destruct (Wx.pages (host w)); cbn [List.length]; split;
    intros; try congruence; lia.
Qed.

Lemma steady_pure A (a : Outcome A) : Steady (H:=H) 0 (fun w => (a, w)).
Proof. intros w. cbn. repeat split; auto; lia. Qed.

Lemma steady_ret A (a : A) : Steady 0 (ret (H:=H) a).
Proof. apply steady_pure. Qed.

Lemma steady_throw A (e : Thrown) : Steady 0 (throw (H:=H) (A:=A) e).
Proof. apply steady_pure. Qed.

Lemma steady_weaken A (m : M H A) (k k' : Z) :
  (k <= k')%Z -> Steady k m -> Steady k' m.
Proof.
  intros Hk Hm w. destruct (Hm w) as (Hl & Hf & Hd).
  repeat split; auto; specialize (Hd H0); lia.
Qed.

Lemma steady_bind A B (m : M H A) (kont : A -> M H B) (k1 k2 : Z) :
  (0 <= k1)%Z -> (0 <= k2)%Z ->
  Steady k1 m -> (forall a, Steady k2 (kont a)) -> Steady (k1 + k2) (bind m kont).
Proof.
  intros H1 H2 Hm Hk w. unfold bind.
  destruct (Hm w) as (Hl & Hf & Hd).
  destruct (m w) as [[a|e] w1]; cbn [snd] in *.
  - destruct (Hk a w1) as (Hl' & Hf' & Hd').
    split; [congruence|]. split; [auto|]. intros Hne. specialize (Hd Hne).
    assert (Hne1 : Wx.pages (host w1) <> []).
    { apply depth_pos. apply depth_pos in Hne. lia. }
    specialize (Hd' Hne1). lia.
  - split; [assumption|]. split; [assumption|]. intros Hne. specialize (Hd Hne). lia.
Qed.

Lemma steady_then A B (m : M H A) (kont : A -> M H B) (k : Z) :
  (0 <= k)%Z ->
  Steady 0 m -> (forall a, Steady k (kont a)) -> Steady k (bind m kont).
Proof.
  intros Hk Hm Hkont. change k with (0 + k)%Z. apply steady_bind; auto; lia.
Qed.

Lemma steady_emit (e : Event) : Steady 0 (emit (H:=H) e).
Proof. intros w. cbn. repeat split; auto; unfold depth; cbn; lia. Qed.

Lemma steady_setActiveUnload : Steady 0 (setActiveUnload (H:=H) true).
Proof. intros w. cbn. repeat split; auto; unfold depth; cbn; lia. Qed.

Lemma steady_config : Steady 0 (config (H:=H)).
Proof. intros w. cbn. repeat split; auto; lia. Qed.

Lemma steady_getCurrentPages : Steady 0 (getCurrentPages (H:=H)).
Proof. intros w. cbn. repeat split; auto; lia. Qed.

Lemma steady_history_length : Steady 0 (history_length (H:=H)).
Proof. intros w. cbn. repeat split; auto; lia. Qed.

Lemma steady_history_savePage (i : Z) (p : Wx.Page) : Steady 0 (history_savePage (H:=H) i p).
Proof. intros w. cbn. repeat split; auto; unfold depth; cbn; lia. Qed.

Lemma steady_customWxPromisify dealFail ev api (k : Z) :
  (forall h, Wx.pages h <> [] ->
     (Z.of_nat (List.length (Wx.pages h))
      <= Z.of_nat (List.length (Wx.pages (snd (api h))))
      <= Z.of_nat (List.length (Wx.pages h)) + k)%Z) ->
  Steady k (customWxPromisify (H:=H) dealFail ev api).
Proof.
  intros Hapi w. unfold customWxPromisify. specialize (Hapi (host w)).
  destruct (api (host w)) as [r h]. unfold bind. cbn [setHost emit snd] in *.
  destruct (Wx.succeeded r || dealFail); cbn;
    (split; [reflexivity|split; [auto|intros Hne; now apply Hapi]]).
Qed.

Lemma swapped_length u (ps : list Wx.Page) :
  ps <> [] -> List.length (Wx.swapped u ps) = List.length ps.
Proof.
  intros Hne. destruct (exists_last Hne) as (below & p & ->).
  unfold Wx.swapped. rewrite removelast_last, !length_app. reflexivity.
Qed.

Lemma redirectTo_keeps_the_depth u h :
  Wx.pages h <> [] ->
  (Z.of_nat (List.length (Wx.pages h))
   <= Z.of_nat (List.length (Wx.pages (snd (Wx.redirectTo u h))))
   <= Z.of_nat (List.length (Wx.pages h)) + 0)%Z.
Proof.
  intros Hne. unfold Wx.redirectTo, Wx.physical.
  destruct (hd None (Wx.faults h)); cbn; rewrite ?(swapped_length _ Hne); lia.
Qed.

Lemma steady_secretReplace route ep : Steady (H:=H) 0 (_secretReplace route ep).
Proof.
  unfold _secretReplace, wxPromise, delay.
  apply steady_then; [lia|apply steady_setActiveUnload|]. intros _.
  apply steady_then; [lia| |intros _; apply steady_emit].
  apply steady_customWxPromisify. apply redirectTo_keeps_the_depth.
Qed.

Lemma steady_secretOpen_loop fuel :
  forall route ra rt ep, Steady (H:=H) 1 (_secretOpen_loop fuel route ra rt ep).
Proof.
  induction fuel as [|fuel IH]; intros route ra rt ep w.
  - cbn. repeat split; auto; lia.
  - destruct (hd None (Wx.faults (host w))) as [msg|] eqn:Hf.
    + rewrite (open_attempt_fails _ _ _ _ _ _ Hf). cbn zeta.
      set (w1 := logging _ _).
      assert (Hw1 : finishLock w1 = finishLock w
                    /\ _activeUnload w1 = _activeUnload w
                    /\ Wx.pages (host w1) = Wx.pages (host w)) by now repeat split.
      destruct Hw1 as (Hl1 & Hf1 & Hp1).
      assert (Hd1 : depth w1 = depth w) by (unfold depth; now rewrite Hp1).
      assert (Hstep : forall (m : M H unit), Steady 1 m ->
                finishLock (snd (m w1)) = finishLock w
                /\ (_activeUnload w = true -> _activeUnload (snd (m w1)) = true)
                /\ (Wx.pages (host w) <> [] ->
                    (depth w <= depth (snd (m w1)) <= depth w + 1)%Z)).
      { intros m Hm. destruct (Hm w1) as (Ha & Hb & Hc).
        rewrite Hl1, Hf1, Hp1, Hd1 in *. auto. }
      destruct (includes _ _); [|apply (Hstep (throw _)), (steady_weaken (k:=0)); [lia|apply steady_throw]].
      destruct (_ <=? _)%Z.
      * apply Hstep, (steady_weaken (k:=0)); [lia|apply steady_secretReplace].
      * destruct (ra <? rt)%Z.
        -- apply (Hstep (fun w' => _secretOpen_loop fuel route (ra * 2) rt ep
                                     (logging [Delay ra] w'))).
           intros w'. destruct (IH route (ra * 2)%Z rt ep (logging [Delay ra] w'))
             as (Ha & Hb & Hc). auto.
        -- apply (Hstep (throw _)), (steady_weaken (k:=0)); [lia|apply steady_throw].
    + rewrite (open_attempt_succeeds _ _ _ _ _ _ Hf). cbn zeta.
      cbn [snd finishLock _activeUnload logging withHost].
      repeat split; auto; unfold depth, Wx.pushed;
        cbn [host logging withHost Wx.moved Wx.pages];
        rewrite length_app; cbn [List.length]; lia.
Qed.

Lemma steady_secretOpen route ra rt ep : Steady (H:=H) 1 (_secretOpen route ra rt ep).
Proof. intros w. apply steady_secretOpen_loop. Qed.

Lemma steady_doLostRestore route : Steady (H:=H) 0 (_doLostRestore route).
Proof.
  unfold _doLostRestore. apply steady_then; [lia|apply steady_config|]. intros cfg.
  destruct (pageRestoreHandler cfg) as [handler|]; [|apply steady_ret].
  apply steady_then; [lia|apply steady_emit|]. intros _.
  destruct (handler route _); first [apply steady_ret|apply steady_throw].
Qed.

Lemma steady_doTaintedRestore route : Steady (H:=H) 0 (_doTaintedRestore route).
Proof.
  unfold _doTaintedRestore. apply steady_then; [lia|apply steady_config|]. intros cfg.
  apply steady_then; [lia| |].
  - destruct (pageRestoreHandler cfg) as [handler|]; [|apply steady_ret].
    apply steady_then; [lia|apply steady_emit|]. intros _.
    destruct (handler route _); first [apply steady_ret|apply steady_throw].
  - intros res. destruct (reportsSuccess res);
      [apply steady_ret|apply steady_secretReplace].
Qed.

(** ** The branches of [navigateTo] away from the curtain *)

(** X9.  Under the cap, and not in the curtain case (curtain mode is off, or the
    stack is not exactly one page short of the cap), on a platform that
    accepts the call: [navigateTo] records the entry, with the url resolved
    against the current page, and opens the page, with the url as it was
    given.  The stack gains that page, nothing is saved or replaced, and the
    flag of an active unload is not touched. *)
Theorem navigateTo_under_the_cap_opens_the_page route w below curPage :
  Wx.pages (host w) = below ++ [curPage] ->
  (depth w < MAX_LEVEL (_config w))%Z ->
  enableCurtain (_config w) = false \/ depth w <> (MAX_LEVEL (_config w) - 1)%Z ->
  hd None (Wx.faults (host w)) = None ->
  let e := entry route curPage in
  let u := appendUrlParam (url route) None in
  let r := navigateTo route w in
  fst r = Ok {| Wx.succeeded := true; Wx.errMsg := "ok" |}
  /\ trace (snd r)
     = trace w ++ [HistoryOpen e; WxNavigateTo u (Wx.ok "navigateTo");
                   Delay NAV_BUSY_REMAIN]
  /\ Wx.pages (host (snd r)) = Wx.pages (host w) ++ [Wx.pageOf u]
  /\ _history (snd r) = open e (Wx.pages (host w)) (_history w)
  /\ _activeUnload (snd r) = _activeUnload w.
Proof.
  intros Hp Hunder Hplain Hf e u r.
  assert (Hr : r = navigateTo route w) by reflexivity. clearbody r.
  rewrite (@navigateTo_prefix route w below curPage Hp) in Hr. cbn zeta in Hr.
  fold (depth w) in Hr.
  replace (enableCurtain (_config w) && (depth w =? MAX_LEVEL (_config w) - 1)%Z)
    with false in Hr
    by (destruct Hplain as [-> | Hneq]; [reflexivity|];
        apply Z.eqb_neq in Hneq; rewrite Hneq; now rewrite andb_false_r).
  rewrite (proj2 (Z.ltb_lt _ _) Hunder) in Hr.
  unfold bind at 1 in Hr. unfold _secretOpen in Hr.
  rewrite open_attempt_succeeds in Hr by exact Hf.
  subst r.
  cbn [ret fst snd trace host _history _activeUnload logging withHost withHistory
       Wx.moved Wx.pages].
  fold e u. unfold Wx.pushed. repeat split. now rewrite <- !app_assoc.
Qed.

(** X10.  On a stack that has reached the cap, on a platform that accepts the
    call: [navigateTo] records the entry, saves the page that is on top
    under the index of the entry before the new one, and replaces that page
    with the target.  The stack keeps its depth and the history gains its
    entry. *)
Theorem navigateTo_at_the_cap_replaces_the_top_page route w below curPage :
  Wx.pages (host w) = below ++ [curPage] ->
  (MAX_LEVEL (_config w) <= depth w)%Z ->
  hd None (Wx.faults (host w)) = None ->
  let e := entry route curPage in
  let opened := open e (Wx.pages (host w)) (_history w) in
  let u := appendUrlParam (url route) None in
  let r := navigateTo route w in
  fst r = Ok {| Wx.succeeded := true; Wx.errMsg := "ok" |}
  /\ trace (snd r)
     = trace w ++ [HistoryOpen e; HistorySavePage (length opened - 2) curPage;
                   WxRedirectTo u (Wx.ok "redirectTo"); Delay NAV_BUSY_REMAIN]
  /\ Wx.pages (host (snd r)) = below ++ [Wx.pageOf u]
  /\ depth (snd r) = depth w
  /\ _history (snd r) = savePage (length opened - 2) curPage opened
  /\ length (_history (snd r)) = (length (_history w) + 1)%Z.
Proof.
  intros Hp Hcap Hf e opened u r.
  assert (Hr : r = navigateTo route w) by reflexivity. clearbody r.
  rewrite (@navigateTo_prefix route w below curPage Hp) in Hr. cbn zeta in Hr.
  fold (depth w) in Hr.
  replace (depth w =? MAX_LEVEL (_config w) - 1)%Z with false in Hr
    by (symmetry; apply Z.eqb_neq; lia).
  rewrite andb_false_r in Hr.
  replace (depth w <? MAX_LEVEL (_config w))%Z with false in Hr
    by (symmetry; apply Z.ltb_ge; lia).
  unfold bind at 1 in Hr. unfold bind at 1 in Hr. rewrite savePage_run in Hr.
  rewrite replace_succeeds in Hr by exact Hf.
  subst r.
  cbn [ret fst snd trace host _history _activeUnload logging withHost withHistory
       withActiveUnload Wx.moved Wx.pages].
  fold e opened u.
  assert (Hpages : Wx.swapped u (Wx.pages (host w)) = below ++ [Wx.pageOf u]).
  { unfold Wx.swapped. now rewrite Hp, removelast_last. }
  unfold depth. cbn [host logging withHost withHistory withActiveUnload Wx.moved Wx.pages].
  rewrite Hpages. repeat split.
  - now rewrite <- !app_assoc.
  - rewrite Hp, !length_app. reflexivity.
  - rewrite length_savePage. apply length_open.
Qed.

(** ** A failed open behind the curtain *)

(** X11.  In the curtain case, when the platform accepts the replace with the
    curtain page and then refuses the open for a reason other than the page
    limit, [navigateTo] is rejected with that failure and nothing is undone:
    the curtain page stays on top of the stack in place of the page the call
    was made from, whose data has been saved, and the history holds the
    entry of the page that was not opened. *)
Theorem a_failed_open_leaves_the_curtain_on_top route w below curPage msg rest :
  enableCurtain (_config w) = true ->
  Wx.pages (host w) = below ++ [curPage] ->
  depth w = (MAX_LEVEL (_config w) - 1)%Z ->
  Wx.faults (host w) = None :: Some msg :: rest ->
  includes "limit exceed" msg = false ->
  let e := entry route curPage in
  let opened := open e (Wx.pages (host w)) (_history w) in
  let curtain := appendUrlParam (curtainPage (_config w)) None in
  let u := appendUrlParam (url route) None in
  let r := navigateTo route w in
  fst r = Throw (Failure (Wx.failed msg))
  /\ trace (snd r)
     = trace w ++ [HistoryOpen e; HistorySavePage (length opened - 2) curPage;
                   WxRedirectTo curtain (Wx.ok "redirectTo"); Delay NAV_BUSY_REMAIN;
                   WxNavigateTo u (Wx.failed msg)]
  /\ Wx.pages (host (snd r)) = below ++ [Wx.pageOf curtain]
  /\ _history (snd r) = savePage (length opened - 2) curPage opened.
Proof.
  intros Hc Hp Hn Hf Hinc e opened curtain u r.
  assert (Hr : r = navigateTo route w) by reflexivity. clearbody r.
  rewrite (@navigateTo_prefix route w below curPage Hp) in Hr. cbn zeta in Hr.
  fold (depth w) in Hr.
  rewrite Hc, Hn, Z.eqb_refl in Hr. cbn [andb] in Hr.
  unfold bind at 1 in Hr. unfold bind at 1 in Hr. rewrite savePage_run in Hr.
  unfold bind at 1 in Hr.
  rewrite replace_succeeds in Hr by (cbn; now rewrite Hf).
  cbv beta iota zeta in Hr.
  rewrite (@open_surfaces_other_failures route None _ msg) in Hr
    by (cbn; rewrite ?Hf; auto).
  subst r.
  cbn [ret fst snd trace host _history _activeUnload logging withHost withHistory
       withActiveUnload Wx.moved Wx.spent Wx.pages].
  cbn [url mkRoute]. fold e opened curtain u.
  assert (Hpages : Wx.swapped curtain (Wx.pages (host w)) = below ++ [Wx.pageOf curtain]).
  { unfold Wx.swapped. now rewrite Hp, removelast_last. }
  rewrite Hpages. repeat split. now rewrite <- !app_assoc.
Qed.

(** ** The attempts of an open *)

Lemma attempts_app (a b : list Event) : attempts (a ++ b) = attempts a + attempts b.
Proof.
  induction a as [|e a IH]; [reflexivity|].
  destruct e; cbn; now rewrite ?IH.
Qed.

Lemma replace_attempts_nothing route ep w :
  attempts (trace (snd (_secretReplace route ep w))) = attempts (trace w).
Proof.
  destruct (hd None (Wx.faults (host w))) as [msg|] eqn:Hf.
  - rewrite (replace_fails _ _ _ Hf). cbn. rewrite attempts_app. cbn. lia.
  - rewrite (replace_succeeds _ _ _ Hf). cbn. rewrite !attempts_app. cbn. lia.
Qed.

Lemma open_loop_attempts (k : nat) :
  forall fuel route ra rt ep w,
    (rt <= ra * 2 ^ Z.of_nat k)%Z ->
    attempts (trace (snd (_secretOpen_loop fuel route ra rt ep w)))
    <= attempts (trace w) + S k.
Proof.
  induction k as [|k IH]; intros fuel route ra rt ep w Hrt;
    (destruct fuel as [|fuel]; [cbn; lia|]);
    (destruct (hd None (Wx.faults (host w))) as [msg|] eqn:Hf;
     [rewrite (open_attempt_fails _ _ _ _ _ _ Hf); cbn zeta
     |rewrite (open_attempt_succeeds _ _ _ _ _ _ Hf); cbn;
      rewrite !attempts_app; cbn; lia]);
    set (w1 := logging _ _);
    assert (Hw1 : attempts (trace w1) = attempts (trace w) + 1)
      by (unfold w1; cbn; rewrite attempts_app; reflexivity);
    (destruct (includes _ _); [|cbn [snd]; lia]);
    (destruct (_ <=? _)%Z; [rewrite replace_attempts_nothing; lia|]);
    (destruct (ra <? rt)%Z eqn:Hlt; [|cbn [snd]; lia]).
  - apply Z.ltb_lt in Hlt. cbn in Hrt. lia.
  - assert (Hnext : (rt <= ra * 2 * 2 ^ Z.of_nat k)%Z).
    { rewrite Nat2Z.inj_succ, Z.pow_succ_r in Hrt by lia. lia. }
    specialize (IH fuel route (ra * 2)%Z rt ep (logging [Delay ra] w1) Hnext).
    cbn [trace logging] in IH. rewrite attempts_app in IH. cbn [attempts] in IH.
    lia.
Qed.

(** X12.  The retries of an open are bounded, whatever the platform answers: when
    [retryTimeout <= retryAfter * 2 ^ k], [_secretOpen] calls
    [wx.navigateTo] at most [k + 1] times.  With the defaults, 300 and 2000,
    that is at most four times. *)
Theorem open_gives_up_after_a_bounded_number_of_attempts route ep w :
  (forall (k : nat) (ra rt : Z),
      (rt <= ra * 2 ^ Z.of_nat k)%Z ->
      attempts (trace (snd (_secretOpen route ra rt ep w)))
      <= attempts (trace w) + S k)
  /\ attempts (trace (snd (_secretOpen route retryAfter_default retryTimeout_default
                             ep w)))
     <= attempts (trace w) + 4.
Proof.
  split.
  - intros k ra rt Hrt. unfold _secretOpen. now apply open_loop_attempts.
  - unfold _secretOpen. apply (open_loop_attempts 3).
    unfold retryAfter_default, retryTimeout_default, NAV_BUSY_REMAIN. cbn. lia.
Qed.

(** ** Without a page *)

(** X13.  With no live page, [navigateTo] and [redirectTo] fail on the read of
    the current page's route, before anything is written: the call is
    rejected with a [TypeError], and history, stack, flag and trace are as
    they were. *)
Theorem navigation_without_a_page_fails_before_anything_is_written route w :
  Wx.pages (host w) = [] ->
  navigateTo route w = (Throw TypeError, w)
  /\ redirectTo route w = (Throw TypeError, w).
Proof.
  intros Hp. unfold navigateTo, redirectTo, bind, getCurrentPages.
  rewrite Hp. split; reflexivity.
Qed.

(** ** Going back onto a page that is gone *)

Lemma replace_redirects_first route ep w :
  exists res es,
    trace (snd (_secretReplace route ep w))
    = trace w ++ WxRedirectTo (appendUrlParam (url route) ep) res :: es
    /\ forallb isForward es = true
    /\ _activeUnload (snd (_secretReplace route ep w)) = true.
Proof.
  destruct (hd None (Wx.faults (host w))) as [msg|] eqn:Hf.
  - rewrite (replace_fails _ _ _ Hf). now exists (Wx.failed msg), [].
  - rewrite (replace_succeeds _ _ _ Hf). cbn.
    exists (Wx.ok "redirectTo"), [Delay NAV_BUSY_REMAIN].
    now rewrite <- app_assoc.
Qed.

Lemma open_attempts_first route ra rt ep w :
  exists res es,
    trace (snd (_secretOpen route ra rt ep w))
    = trace w ++ WxNavigateTo (appendUrlParam (url route) ep) res :: es
    /\ forallb isForward es = true.
Proof.
  unfold _secretOpen. set (fuel := List.length _). clearbody fuel.
  destruct (hd None (Wx.faults (host w))) as [msg|] eqn:Hf.
  - rewrite (open_attempt_fails _ _ _ _ _ _ Hf). cbn zeta.
    set (w1 := logging _ _).
    assert (Hw1 : trace w1
                  = trace w ++ [WxNavigateTo (appendUrlParam (url route) ep) (Wx.failed msg)])
      by reflexivity.
    assert (Hrest : forall (m : M H unit), Forward m ->
              exists res es,
                trace (snd (m w1))
                = trace w ++ WxNavigateTo (appendUrlParam (url route) ep) res :: es
                /\ forallb isForward es = true).
    { intros m Hm. destruct (Hm w1) as (_ & _ & _ & es & Ht & Hes).
      exists (Wx.failed msg), es. rewrite Ht, Hw1, <- app_assoc. now split. }
    destruct (includes _ _); [|apply (Hrest (throw _)); auto with forward].
    destruct (_ <=? _)%Z; [apply Hrest; auto with forward|].
    destruct (ra <? rt)%Z; [|apply (Hrest (throw _)); auto with forward].
    apply (Hrest (delay ra ;; _secretOpen_loop fuel route (ra * 2) rt ep)).
    unfold delay. apply forward_bind; [now apply forward_emit|].
    intros _. apply forward_secretOpen_loop.
  - rewrite (open_attempt_succeeds _ _ _ _ _ _ Hf). cbn.
    exists (Wx.ok "navigateTo"), [Delay NAV_BUSY_REMAIN].
    now rewrite <- app_assoc.
Qed.


(** X15.  A back made by code when the history is at least as deep as the stack,
    on a platform that accepts the replace, with a restore handler
    configured: the top page is replaced with the target carrying
    [_forcedRefresh] and the handler is called once, with context
    "unloaded".  What the handler reports makes no difference: whether it
    says it failed, or returns a promise that is rejected, [navigateBack]
    resolves to success and nothing is reloaded; only a handler that throws
    makes [navigateBack] fail. *)
Theorem code_back_goes_through_whatever_the_lost_restore_reports
  (opts : BackOpts) w handler :
  (physicalLength false w <= logicalLength opts w)%Z ->
  hd None (Wx.faults (host w)) = None ->
  pageRestoreHandler (_config w) = Some handler ->
  let target := backTarget opts w in
  let u := appendUrlParam (url target) _forcedRefresh in
  let r := navigateBack opts w in
  trace (snd r)
  = trace w ++ [HistoryBack opts; WxRedirectTo u (Wx.ok "redirectTo");
                Delay NAV_BUSY_REMAIN; PageRestoreHandler target "unloaded"]
  /\ Wx.pages (host (snd r)) = Wx.swapped u (Wx.pages (host w))
  /\ match handler target "unloaded"%string with
     | Raises e => fst r = Throw (HandlerError e)
     | _ => fst r = Ok {| Wx.succeeded := true; Wx.errMsg := "ok" |}
     end.
Proof.
  intros HLP Hf Hh target u r.
  assert (Hr : r = ((_secretReplace target _forcedRefresh ;; _doLostRestore target) ;;
                    ret {| Wx.succeeded := true; Wx.errMsg := "ok" |})
                     (afterHistoryBack opts w)).
  { unfold r, navigateBack. unfold bind at 1. rewrite doBack_prefix. cbn zeta.
    replace (_ <? _)%Z with false by (symmetry; apply Z.ltb_ge; lia).
    cbn [negb orb].
    destruct (_ =? _)%Z; reflexivity. }
  clearbody r.
  unfold bind at 1 in Hr. unfold bind at 1 in Hr.
  rewrite replace_succeeds in Hr by exact Hf. cbn zeta in Hr. fold target u in Hr.
  unfold _doLostRestore, bind at 1 in Hr.
  cbn [config _config logging withHost withActiveUnload afterHistoryBack withHistory]
    in Hr.
  rewrite Hh in Hr. unfold bind at 1 in Hr. cbn [emit] in Hr.
  destruct (handler target "unloaded"%string); subst r;
    cbn; (repeat split; now rewrite <- !app_assoc).
Qed.

(** The first physical call of a back made by code. *)
Lemma code_back_first_call (opts : BackOpts) w :
  let target := backTarget opts w in
  let u := appendUrlParam (url target) _forcedRefresh in
  let L := logicalLength opts w in
  let P := physicalLength false w in
  exists res es,
    trace (snd (navigateBack opts w))
    = trace w ++ HistoryBack opts
        :: (if (L <? P)%Z then WxNavigateBack (P - L) res else WxRedirectTo u res)
        :: es.
Proof.
  intros target u L P. unfold navigateBack. rewrite snd_then_ret.
  rewrite doBack_prefix. cbn zeta. fold target u L P.
  set (w1 := afterHistoryBack opts w).
  assert (Hw1 : trace w1 = trace w ++ [HistoryBack opts]) by reflexivity.
  destruct (L <? P)%Z.
  - set (rest := if targetCurtain opts w then _ else _).
    assert (Hforward : Forward rest).
    { unfold rest. destruct (targetCurtain opts w); [auto with forward|].
      destruct (targetTainted opts w); auto with forward. }
    unfold bind.
    destruct (hd None (Wx.faults (host w1))) as [msg|] eqn:Hf.
    + rewrite (back_fails _ _ Hf). cbn [snd delta trace logging withHost withActiveUnload].
      exists (Wx.failed msg), []. now rewrite Hw1, <- app_assoc.
    + rewrite (back_succeeds _ _ Hf). cbn [delta].
      set (w2 := logging [Delay _] _).
      destruct (Hforward w2) as (_ & _ & _ & es & Ht & _).
      exists (Wx.ok "navigateBack"),
        (Delay (match Wx.os (host w1) with
                | Wx.ios => NAV_BUSY_REMAIN * 3
                | Wx.android => NAV_BUSY_REMAIN
                end) :: es).
      rewrite Ht. unfold w2. cbn [trace logging withHost withActiveUnload].
      rewrite Hw1, <- !app_assoc. reflexivity.
  - assert (Hboth : forall (m : M H unit),
              m = (_secretReplace target _forcedRefresh ;; _doLostRestore target) ->
              exists res es,
                trace (snd (m w1))
                = trace w ++ HistoryBack opts :: WxRedirectTo u res :: es).
    { intros m ->. unfold bind.
      destruct (replace_redirects_first target _forcedRefresh w1)
        as (res & es & Ht & _ & _).
      destruct (_secretReplace target _forcedRefresh w1) as [[[]|e] w2];
        cbn [snd] in *.
      - destruct (forward_doLostRestore target w2) as (_ & _ & _ & es' & Ht' & _).
        exists res, (es ++ es'). rewrite Ht', Ht, Hw1, <- !app_assoc. reflexivity.
      - exists res, es. now rewrite Ht, Hw1, <- app_assoc. }
    cbn [negb orb]. destruct (L =? P)%Z; now apply Hboth.
Qed.

(** X16.  A back made by code always acts on the stack: right after the pop of
    the history comes a physical pop of the surplus when the stack is
    deeper than the history, and a replace of the top page with the target
    otherwise; it never takes the branch that does nothing.  When the
    platform accepts that call, the pop leaves the stack as deep as the
    history is long (the history not being empty), whatever the replace or
    the restore hook behind it do, and the replace puts the target in the
    place of the top page.  When the platform refuses it, [navigateBack] is
    rejected with that refusal and the stack is as it was. *)
Theorem a_code_back_always_acts_on_the_stack (opts : BackOpts) w :
  let target := backTarget opts w in
  let u := appendUrlParam (url target) _forcedRefresh in
  let L := logicalLength opts w in
  let P := physicalLength false w in
  let r := navigateBack opts w in
  (exists res es,
      trace (snd r)
      = trace w ++ HistoryBack opts
          :: (if (L <? P)%Z then WxNavigateBack (P - L) res else WxRedirectTo u res)
          :: es)
  /\ (hd None (Wx.faults (host w)) = None ->
      ((L < P)%Z -> (1 <= L)%Z -> depth (snd r) = L)
      /\ ((P <= L)%Z ->
          Wx.pages (host (snd r))
          = removelast (Wx.pages (host w)) ++ [Wx.pageOf u]))
  /\ (forall msg,
        hd None (Wx.faults (host w)) = Some msg ->
        fst r = Throw (Failure (Wx.failed msg))
        /\ Wx.pages (host (snd r)) = Wx.pages (host w)).
Proof.
  intros target u L P r.
  split; [exact (code_back_first_call opts w)|].
  assert (Hdeeper : (L < P)%Z ->
            _doBack opts false w
            = (_secretBack {| delta := P - L |} ;;
               if targetCurtain opts w then
                 _secretReplace target _forcedRefresh ;; _doLostRestore target
               else if targetTainted opts w then _doTaintedRestore target
               else ret tt) (afterHistoryBack opts w)).
  { intros HLP. rewrite doBack_prefix. cbn zeta. fold target L P.
    now rewrite (proj2 (Z.ltb_lt _ _) HLP). }
  assert (Hreplace : (P <= L)%Z ->
            _doBack opts false w
            = (_secretReplace target _forcedRefresh ;; _doLostRestore target)
                (afterHistoryBack opts w)).
  { intros HLP. rewrite doBack_prefix. cbn zeta. fold target L P.
    rewrite (proj2 (Z.ltb_ge _ _) HLP). cbn [negb orb].
    now destruct (L =? P)%Z. }
  unfold r, navigateBack. rewrite snd_then_ret.
  set (w1 := afterHistoryBack opts w) in *.
  assert (Hhost1 : host w1 = host w) by reflexivity.
  clearbody w1.
  split.
  - intros Hf. rewrite <- Hhost1 in Hf. split.
    + intros HLP Hone. rewrite (Hdeeper HLP). unfold bind.
      rewrite (back_succeeds _ _ Hf). cbn [delta].
      set (w2 := logging [Delay _] _).
      set (rest := if targetCurtain opts w then _ else _).
      assert (Hsteady : Steady 0 rest).
      { unfold rest. destruct (targetCurtain opts w).
        - apply steady_then; [lia|apply steady_secretReplace|].
          intros _. apply steady_doLostRestore.
        - destruct (targetTainted opts w);
            first [apply steady_doTaintedRestore|apply steady_ret]. }
      assert (Hdepth2 : depth w2 = L).
      { unfold depth, w2.
        cbn [host logging withHost withActiveUnload Wx.moved Wx.pages].
        rewrite Hhost1.
        assert (Hd : (0 < P - L)%Z) by lia.
        assert (Hleft : (1 <= Z.of_nat (List.length (Wx.pages (host w))) - (P - L))%Z)
          by (unfold P, physicalLength in *; lia).
        rewrite (proj2 (popped_pages (Wx.pages (host w)) Hd Hleft)).
        unfold P, physicalLength. lia. }
      clearbody w2.
      destruct (Hsteady w2) as (_ & _ & Hkeep).
      assert (Hne : Wx.pages (host w2) <> []) by (apply depth_pos; lia).
      specialize (Hkeep Hne). lia.
    + intros HLP. rewrite (Hreplace HLP).
      rewrite (proj1 (proj1 (replace_then_lost_restore target w1) Hf)).
      now rewrite Hhost1.
  - intros msg Hf. rewrite <- Hhost1 in Hf.
    destruct (Z.lt_ge_cases L P) as [HLP|HLP].
    + rewrite (Hdeeper HLP).
      assert (Hr : (_secretBack {| delta := P - L |} ;;
                    if targetCurtain opts w then
                      _secretReplace target _forcedRefresh ;; _doLostRestore target
                    else if targetTainted opts w then _doTaintedRestore target
                    else ret tt) w1
                   = (Throw (Failure (Wx.failed msg)),
                      logging [WxNavigateBack (P - L) (Wx.failed msg)]
                        (withHost (Wx.spent (host w1)) (withActiveUnload true w1)))).
      { unfold bind. now rewrite (back_fails _ _ Hf). }
      split.
      * apply fst_then_ret_throw. now rewrite (Hdeeper HLP), Hr.
      * rewrite Hr. cbn. now rewrite Hhost1.
    + destruct (proj2 (replace_then_lost_restore target w1) msg Hf)
        as (Hres & _ & Hpages).
      rewrite (Hreplace HLP). split.
      * apply fst_then_ret_throw. rewrite (Hreplace HLP). exact Hres.
      * now rewrite Hpages, Hhost1.
Qed.

(** ** The flag of an active unload, from a replace to rest *)

Lemma redirectTo_frame route w below curPage :
  Wx.pages (host w) = below ++ [curPage] ->
  let w' := snd (redirectTo route w) in
  _activeUnload w' = true
  /\ finishLock w' = finishLock w
  /\ _history w' = replace (entry route curPage) (_history w)
  /\ depth w' = depth w
  /\ _config w' = _config w.
Proof.
  intros Hp w'. unfold w'.
  assert (Hne : Wx.pages (host w) <> []) by (rewrite Hp; now destruct below).
  rewrite (@redirectTo_prefix route w below curPage Hp), snd_then_ret.
  set (w1 := withHistory _ _).
  destruct (replace_redirects_first route None w1) as (_ & _ & _ & _ & Hflag).
  destruct (steady_secretReplace route None w1) as (Hlock & _ & Hd).
  destruct (forward_secretReplace route None w1) as (Hh & Hc & _).
  specialize (Hd Hne). change (depth w1) with (depth w) in Hd.
  repeat split; try assumption. lia.
Qed.

(** X17.  From a replace to rest.  [redirectTo] raises the flag of an active
    unload before it calls the platform.  Take a call that has run to its
    end with no teardown notification delivered meanwhile and no delayed
    clear pending.  The teardown notification handled next is not taken for
    a back: it changes neither the history nor the stack and performs no
    navigation; it starts the delayed clear.  When the delay has elapsed
    the flag is down and the lock of [_finishActiveUnload] is free again,
    with the history still holding the entry that [redirectTo] wrote.  This
    is so whatever the platform answered.  When it refused the replace, no
    page has been closed: the call is rejected, the stack is as it was and
    the flag is left up with no clear scheduled, so that the notification
    absorbed next is that of a page closed by something else. *)
Theorem the_unload_of_a_replaced_page_is_not_a_back route w below curPage :
  Wx.pages (host w) = below ++ [curPage] ->
  NoConcurrent.Idle (finishLock w) ->
  let replaced := snd (redirectTo route w) in
  let torn := snd (onPageUnload replaced) in
  let c := List.length (NoConcurrent.log (finishLock w)) in
  let rested := snd (delayElapsed c torn) in
  _history torn = _history replaced
  /\ trace torn = trace replaced
  /\ host torn = host replaced
  /\ scheduledClears torn = [c]
  /\ _activeUnload rested = false
  /\ NoConcurrent.Idle (finishLock rested)
  /\ _history rested = replace (entry route curPage) (_history w)
  /\ trace rested = trace replaced
  /\ host rested = host replaced
  /\ (forall msg,
        hd None (Wx.faults (host w)) = Some msg ->
        fst (redirectTo route w) = Throw (Failure (Wx.failed msg))
        /\ Wx.pages (host replaced) = Wx.pages (host w)
        /\ _activeUnload replaced = true
        /\ scheduledClears replaced = []).
Proof.
  intros Hp (Hsc & Hi & Hj) replaced torn c rested.
  assert (Hrefused : forall msg,
            hd None (Wx.faults (host w)) = Some msg ->
            fst (redirectTo route w) = Throw (Failure (Wx.failed msg))
            /\ Wx.pages (host replaced) = Wx.pages (host w)
            /\ _activeUnload replaced = true
            /\ scheduledClears replaced = []).
  { intros msg Hf. unfold replaced, scheduledClears.
    rewrite (@redirectTo_prefix route w below curPage Hp), snd_then_ret.
    set (w1 := withHistory _ _).
    assert (Hf1 : hd None (Wx.faults (host w1)) = Some msg) by exact Hf.
    split; [apply fst_then_ret_throw|]; rewrite (replace_fails _ _ _ Hf1);
      [reflexivity|]. cbn. now repeat split. }
  destruct (@redirectTo_frame route w below curPage Hp) as (Hflag & Hlock & Hh & _ & _).
  fold replaced in Hflag, Hlock, Hh.
  assert (Htorn : torn
            = withFinishLock
                {| NoConcurrent.statusControl :=
                     {| NoConcurrent.running := true; NoConcurrent.listeners := [] |};
                   NoConcurrent.inflight := [c];
                   NoConcurrent.jobs := [];
                   NoConcurrent.log :=
                     NoConcurrent.log (finishLock w) ++ [NoConcurrent.Invoked c] |}
                replaced).
  { unfold torn. rewrite (teardown_while_flagged _ Hflag). cbn [snd].
    rewrite Hlock. fold c. unfold NoConcurrent.call. rewrite Hsc.
    cbn [NoConcurrent.running NoConcurrent.fresh].
    unfold NoConcurrent.start, finishActiveUnload_oriFunc.
    now rewrite Hsc, Hi, Hj. }
  assert (Hrested : rested
            = withFinishLock
                {| NoConcurrent.statusControl := NoConcurrent.fresh;
                   NoConcurrent.inflight := [];
                   NoConcurrent.jobs := [];
                   NoConcurrent.log :=
                     (NoConcurrent.log (finishLock w) ++ [NoConcurrent.Invoked c])
                     ++ [NoConcurrent.Settles c (NoConcurrent.Fulfilled tt)] |}
                (withActiveUnload false torn)).
  { unfold rested, delayElapsed, scheduledClears. rewrite Htorn.
    cbn [finishLock withFinishLock NoConcurrent.inflight existsb].
    rewrite Nat.eqb_refl. cbn [orb]. unfold bind. cbn [setActiveUnload setFinishLock snd].
    cbn [finishLock withFinishLock withActiveUnload].
    unfold NoConcurrent.settle. cbn [NoConcurrent.inflight existsb].
    rewrite Nat.eqb_refl. cbn [orb finishActiveUnload_oriFunc].
    cbn. now rewrite Nat.eqb_refl. }
  rewrite Hrested, Htorn. unfold scheduledClears, NoConcurrent.Idle.
  cbn [finishLock withFinishLock withActiveUnload _activeUnload _history trace host
       NoConcurrent.statusControl NoConcurrent.inflight NoConcurrent.jobs].
  do 9 (split; [repeat split; first [reflexivity|assumption]|]).
  exact Hrefused.
Qed.

(** ** Resetting the stack *)

Lemma teardowns_while_flagged (n : nat) :
  forall w,
    _activeUnload w = true ->
    _activeUnload (teardowns n w) = true
    /\ trace (teardowns n w) = trace w
    /\ _history (teardowns n w) = _history w
    /\ host (teardowns n w) = host w.
Proof.
  induction n as [|n IH]; intros w Hflag; cbn [teardowns]; [now repeat split|].
  rewrite (teardown_while_flagged _ Hflag). cbn [snd].
  destruct (IH (withFinishLock
                  (lockCall NoConcurrent.discard
                     (List.length (NoConcurrent.log (finishLock w))) (finishLock w)) w)
              Hflag) as (H1 & H2 & H3 & H4).
  rewrite H1, H2, H3, H4. now repeat split.
Qed.

(** X18.  [reLaunch] and [switchTab] do not touch the history.  When the platform
    accepts the call, the stack is left with the one new page while the
    history holds every entry it held, and the flag of an active unload is
    up, so that the teardown notifications of the closed pages, however
    many arrive before the delayed clear has run, are not taken for backs
    and leave the history alone as well.  When the platform refuses, the
    call is rejected with the platform's result, the stack is as it was and
    the flag is up all the same. *)
Theorem resetting_the_stack_keeps_the_history route w (n : nat) :
  forall r, r = reLaunch route w \/ r = switchTab route w ->
    _history (snd r) = _history w
    /\ _activeUnload (snd r) = true
    /\ _history (teardowns n (snd r)) = _history w
    /\ trace (teardowns n (snd r)) = trace (snd r)
    /\ (hd None (Wx.faults (host w)) = None ->
        fst r = Ok {| Wx.succeeded := true; Wx.errMsg := "ok" |}
        /\ Wx.pages (host (snd r)) = [Wx.pageOf (url route)]
        /\ trace (snd r) = trace w ++ [Delay NAV_BUSY_REMAIN])
    /\ (forall msg,
          hd None (Wx.faults (host w)) = Some msg ->
          fst r = Throw (Failure (Wx.failed msg))
          /\ Wx.pages (host (snd r)) = Wx.pages (host w)
          /\ trace (snd r) = trace w).
Proof.
  intros r Hr.
  assert (Hrun : exists api,
            r = (setActiveUnload true ;;
                 wxPromiseReset (Wx.physical api (Wx.relaunched (url route))) ;;
                 delay NAV_BUSY_REMAIN ;;
                 ret {| Wx.succeeded := true; Wx.errMsg := "ok" |}) w).
  { destruct Hr as [-> | ->]; [now exists "reLaunch"%string|now exists "switchTab"%string]. }
  clear Hr. destruct Hrun as [api Hr].
  assert (Hend : forall (o : Outcome Wx.WxRes) (w2 : World H),
            r = (o, w2) -> _activeUnload w2 = true -> _history w2 = _history w ->
            _history (snd r) = _history w
            /\ _activeUnload (snd r) = true
            /\ _history (teardowns n (snd r)) = _history w
            /\ trace (teardowns n (snd r)) = trace (snd r)).
  { intros o w2 -> Hflag Hh. cbn [snd].
    destruct (@teardowns_while_flagged n w2 Hflag) as (_ & H2 & H3 & _).
    rewrite H2, H3. now repeat split. }
  destruct (hd None (Wx.faults (host w))) as [msg|] eqn:Hf.
  - assert (HR : r = (Throw (Failure (Wx.failed msg)),
                      withHost (Wx.spent (host w)) (withActiveUnload true w))).
    { rewrite Hr. unfold bind at 1. cbn [setActiveUnload].
      unfold bind at 1, wxPromiseReset. cbn [host withActiveUnload].
      now rewrite (physical_fails _ _ _ Hf). }
    destruct (Hend _ _ HR eq_refl eq_refl) as (H1 & H2 & H3 & H4).
    do 4 (split; [assumption|]). split; [discriminate|].
    intros msg' Hmsg. injection Hmsg as <-. rewrite HR. now repeat split.
  - assert (HR : r = (Ok {| Wx.succeeded := true; Wx.errMsg := "ok" |},
                      logging [Delay NAV_BUSY_REMAIN]
                        (withHost (Wx.moved (Wx.relaunched (url route)) (host w))
                           (withActiveUnload true w)))).
    { rewrite Hr. unfold bind at 1. cbn [setActiveUnload].
      unfold bind at 1, wxPromiseReset. cbn [host withActiveUnload].
      now rewrite (physical_succeeds _ _ _ Hf). }
    destruct (Hend _ _ HR eq_refl eq_refl) as (H1 & H2 & H3 & H4).
    do 4 (split; [assumption|]). split; [|discriminate].
    intros _. rewrite HR. now repeat split.
Qed.


(** ** The stack under the cap *)

Lemma navigateTo_frame route w below curPage :
  Wx.pages (host w) = below ++ [curPage] ->
  let w' := snd (navigateTo route w) in
  finishLock w' = finishLock w
  /\ _config w' = _config w
  /\ (_activeUnload w = true -> _activeUnload w' = true)
  /\ (depth w <= depth w' <= depth w + 1)%Z
  /\ ((MAX_LEVEL (_config w) <= depth w)%Z -> depth w' = depth w).
Proof.
  intros Hp w'. unfold w'.
  assert (Hne : Wx.pages (host w) <> []) by (rewrite Hp; now destruct below).
  rewrite (@navigateTo_prefix route w below curPage Hp). cbn zeta.
  rewrite snd_then_ret.
  set (w1 := withHistory _ (logging [HistoryOpen (entry route curPage)] w)).
  fold (depth w).
  assert (Hrun : forall (k : Z) (m : M H unit) (w2 : World H),
            finishLock w2 = finishLock w -> _config w2 = _config w ->
            _activeUnload w2 = _activeUnload w -> host w2 = host w ->
            Steady k m -> Forward m ->
            finishLock (snd (m w2)) = finishLock w
            /\ _config (snd (m w2)) = _config w
            /\ (_activeUnload w = true -> _activeUnload (snd (m w2)) = true)
            /\ (depth w <= depth (snd (m w2)) <= depth w + k)%Z).
  { intros k m w2 Hl Hc Hf Hh Hs Hfw.
    destruct (Hs w2) as (Ha & Hb & Hd). destruct (Hfw w2) as (_ & Hcfg & _).
    assert (Hd2 : depth w2 = depth w) by (unfold depth; now rewrite Hh).
    rewrite Hl, Hf, Hh, Hd2, Hc in *. auto. }
  destruct (enableCurtain (_config w) && _) eqn:Hcurtain;
    [|destruct (_ <? _)%Z eqn:Hunder].
  - rewrite saved_then.
    destruct (Hrun 1%Z
                (_secretReplace (mkRoute (curtainPage (_config w))) None ;;
                 _secretOpen route retryAfter_default retryTimeout_default None)
                (withHistory
                   (savePage (length (_history w1) - 2) curPage (_history w1))
                   (logging [HistorySavePage (length (_history w1) - 2) curPage] w1)))
      as (Ha & Hb & Hc & Hd); try reflexivity.
    + apply steady_then; [lia|apply steady_secretReplace|].
      intros _. apply steady_secretOpen.
    + auto with forward.
    + repeat split; try assumption; lia.
  - destruct (Hrun 1%Z
                (_secretOpen route retryAfter_default retryTimeout_default None) w1)
      as (Ha & Hb & Hc & Hd); try reflexivity.
    + apply steady_secretOpen.
    + auto with forward.
    + repeat split; try assumption; lia.
  - rewrite saved_then.
    destruct (Hrun 0%Z (_secretReplace route None)
                (withHistory
                   (savePage (length (_history w1) - 2) curPage (_history w1))
                   (logging [HistorySavePage (length (_history w1) - 2) curPage] w1)))
      as (Ha & Hb & Hc & Hd); try reflexivity.
    + apply steady_secretReplace.
    + auto with forward.
    + repeat split; try assumption; lia.
Qed.

(** X19.  One call of [navigateTo], whatever the platform answers: no page is
    closed and at most one is opened; on a stack that has reached
    [MAX_LEVEL] none is opened; so a stack within the cap stays within the
    cap.  The configuration is left as it is. *)
Theorem navigateTo_keeps_the_stack_within_the_cap route w below curPage :
  Wx.pages (host w) = below ++ [curPage] ->
  let w' := snd (navigateTo route w) in
  (depth w <= depth w' <= depth w + 1)%Z
  /\ ((MAX_LEVEL (_config w) <= depth w)%Z -> depth w' = depth w)
  /\ ((depth w <= MAX_LEVEL (_config w))%Z -> (depth w' <= MAX_LEVEL (_config w))%Z)
  /\ _config w' = _config w.
Proof.
  intros Hp w'.
  destruct (@navigateTo_frame route w below curPage Hp) as (_ & Hc & _ & Hd & Hcap).
  fold w' in Hc, Hd, Hcap. split; [exact Hd|]. split; [exact Hcap|].
  split; [|exact Hc].
  intros Hle. destruct (Z.eq_dec (depth w) (MAX_LEVEL (_config w))) as [Heq|Hneq].
  - rewrite Hcap; lia.
  - lia.
Qed.

(** X20.  Any number of [navigateTo] calls, whatever their outcomes, on a stack
    that starts within the cap: the stack never grows beyond [MAX_LEVEL]
    and never runs empty, while the history gains one entry per call. *)
Theorem the_history_grows_while_the_stack_stays_capped (rs : list Route) w :
  Wx.pages (host w) <> [] ->
  (depth w <= MAX_LEVEL (_config w))%Z ->
  let w' := opens rs w in
  (1 <= depth w' <= MAX_LEVEL (_config w))%Z
  /\ _config w' = _config w
  /\ length (_history w') = (length (_history w) + Z.of_nat (List.length rs))%Z.
Proof.
  intros Hne Hcap w'. split; [|split].
  - unfold w'. clear w'. revert w Hne Hcap.
    induction rs as [|r rs IH]; intros w Hne Hcap; cbn [opens].
    + apply depth_pos in Hne. lia.
    + destruct (exists_last Hne) as (below & curPage & Hp).
      destruct (@navigateTo_frame r w below curPage Hp) as (_ & Hc & _ & Hd & Hfull).
      cbn zeta in *. rewrite <- Hc. apply IH.
      * apply depth_pos. apply depth_pos in Hne. lia.
      * rewrite Hc.
        destruct (Z.eq_dec (depth w) (MAX_LEVEL (_config w))) as [Heq|Hneq];
          [rewrite Hfull; lia|lia].
  - unfold w'. clear w' Hcap. revert w Hne.
    induction rs as [|r rs IH]; intros w Hne; cbn [opens]; [reflexivity|].
    destruct (exists_last Hne) as (below & curPage & Hp).
    destruct (@navigateTo_frame r w below curPage Hp) as (_ & Hc & _ & Hd & _).
    cbn zeta in *. rewrite <- Hc. apply IH.
    apply depth_pos. apply depth_pos in Hne. lia.
  - apply opens_count. exact Hne.
Qed.

(** ** Navigation by code and the cap *)

Lemma popped_length (delta : Z) (ps : list Wx.Page) :
  ps <> [] ->
  1 <= List.length (Wx.popped delta ps) <= List.length ps.
Proof.
  intros Hne. unfold Wx.popped. rewrite length_firstn.
  destruct ps as [|x ps]; [congruence|]. cbn [List.length]. lia.
Qed.

Lemma secretBack_frame (opts : BackOpts) w :
  Wx.pages (host w) <> [] ->
  let w' := snd (_secretBack opts w) in
  (1 <= depth w' <= depth w)%Z /\ _config w' = _config w.
Proof.
  intros Hne w'. unfold w'. apply depth_pos in Hne as Hpos.
  destruct (hd None (Wx.faults (host w))) as [msg|] eqn:Hf.
  - rewrite (back_fails _ _ Hf). cbn [snd]. split; [|reflexivity].
    change (depth (logging _ _)) with (depth w). lia.
  - rewrite (back_succeeds _ _ Hf). cbn [snd]. split; [|reflexivity].
    unfold depth in *. cbn [host logging withHost Wx.moved Wx.pages].
    pose proof (popped_length (delta opts) Hne). lia.
Qed.

Lemma navigateBack_frame (opts : BackOpts) w :
  Wx.pages (host w) <> [] ->
  let w' := snd (navigateBack opts w) in
  (1 <= depth w' <= depth w)%Z /\ _config w' = _config w.
Proof.
  intros Hne w'. unfold w', navigateBack. rewrite snd_then_ret.
  rewrite doBack_prefix. cbn zeta.
  set (target := backTarget opts w).
  set (w1 := afterHistoryBack opts w).
  assert (Hne1 : Wx.pages (host w1) <> []) by exact Hne.
  apply depth_pos in Hne as Hpos.
  assert (Hrun : forall (m : M H unit) (w2 : World H),
            Steady 0 m -> Forward m ->
            Wx.pages (host w2) <> [] -> (1 <= depth w2 <= depth w)%Z ->
            _config w2 = _config w ->
            (1 <= depth (snd (m w2)) <= depth w)%Z /\ _config (snd (m w2)) = _config w).
  { intros m w2 Hs Hfw Hne2 Hd2 Hc2.
    destruct (Hs w2) as (_ & _ & Hd). destruct (Hfw w2) as (_ & Hc & _).
    specialize (Hd Hne2). split; [lia|congruence]. }
  assert (Hlost : Steady (H:=H) 0
                    (_secretReplace target _forcedRefresh ;; _doLostRestore target)
                  /\ Forward (H:=H)
                       (_secretReplace target _forcedRefresh ;; _doLostRestore target)).
  { split; [|auto with forward].
    apply steady_then; [lia|apply steady_secretReplace|].
    intros _. apply steady_doLostRestore. }
  destruct Hlost as [Hlost1 Hlost2].
  destruct (_ <? _)%Z.
  - set (rest := if targetCurtain opts w then _ else _).
    assert (Hrest : Steady 0 rest /\ Forward rest).
    { unfold rest. destruct (targetCurtain opts w); [now split|].
      destruct (targetTainted opts w); split; auto with forward;
        first [apply steady_doTaintedRestore|apply steady_ret]. }
    destruct Hrest as [Hsteady Hforward].
    destruct (@secretBack_frame
                {| delta := physicalLength false w - logicalLength opts w |} w1 Hne1)
      as (Hd & Hc).
    cbn zeta in Hd, Hc. unfold bind.
    destruct (_secretBack _ w1) as [[[]|e] w2]; cbn [snd] in *.
    + apply Hrun; try assumption. apply depth_pos. lia.
    + change (depth w1) with (depth w) in Hd. split; [lia|exact Hc].
  - cbn [negb orb]. destruct (_ =? _)%Z; apply Hrun; try assumption;
      try reflexivity; change (depth w1) with (depth w); lia.
Qed.

(** X21.  Navigation by code and the cap.  Any run of [navigateTo],
    [redirectTo] and [navigateBack] calls, whatever the platform answers
    to each physical call, on a stack that starts within the cap: the stack
    never grows beyond [MAX_LEVEL] and never runs empty, and the
    configuration is left as it is. *)
Theorem navigation_by_code_stays_within_the_cap (acts : list Action) w :
  Wx.pages (host w) <> [] ->
  (depth w <= MAX_LEVEL (_config w))%Z ->
  let w' := session acts w in
  (1 <= depth w' <= MAX_LEVEL (_config w))%Z /\ _config w' = _config w.
Proof.
  intros Hne Hcap w'. unfold w'. clear w'. revert w Hne Hcap.
  induction acts as [|a acts IH]; intros w Hne Hcap; cbn [session].
  - apply depth_pos in Hne. split; [lia|reflexivity].
  - assert (Hstep : (1 <= depth (snd (perform a w)) <= MAX_LEVEL (_config w))%Z
                    /\ _config (snd (perform a w)) = _config w).
    { apply depth_pos in Hne as Hpos.
      destruct (exists_last Hne) as (below & curPage & Hp).
      destruct a as [route|route|opts]; cbn [perform].
      - destruct (@navigateTo_frame route w below curPage Hp)
          as (_ & Hc & _ & Hd & Hfull).
        cbn zeta in *. split; [|exact Hc].
        destruct (Z.eq_dec (depth w) (MAX_LEVEL (_config w))) as [Heq|Hneq];
          [rewrite Hfull; lia|lia].
      - destruct (@redirectTo_frame route w below curPage Hp) as (_ & _ & _ & Hd & Hc).
        cbn zeta in *. split; [lia|exact Hc].
      - destruct (@navigateBack_frame opts w Hne) as (Hd & Hc).
        cbn zeta in *. split; [lia|exact Hc]. }
    destruct Hstep as [Hd Hc].
    destruct (IH (snd (perform a w))) as (Hd' & Hc').
    + apply depth_pos. lia.
    + rewrite Hc. lia.
    + rewrite Hc in Hd'. split; [exact Hd'|congruence].
Qed.

End Facts.
End NavigatorFacts.

(* ################################################################# *)
(** * Part II.c  The store of the specification *)

Module HistoryFacts.
Import History.

Lemma routes_not_empty (h : Routes) : routes h <> [].
Proof. unfold routes. now destruct (below h). Qed.

Lemma ofList_routes (l : list Route) (otherwise : Routes) :
  l <> [] -> routes (ofList l otherwise) = l.
Proof.
  intros Hl. unfold ofList.
  destruct (rev l) as [|t b] eqn:Hrev.
  - apply (f_equal (@rev Route)) in Hrev. rewrite rev_involutive in Hrev.
    now subst l.
  - unfold routes. cbn. apply (f_equal (@rev Route)) in Hrev.
    rewrite rev_involutive in Hrev. now subst l.
Qed.

Lemma saveAt_length (l : list Route) :
  forall i p, List.length (saveAt i p l) = List.length l.
Proof.
  induction l as [|r l IH]; intros i p; [reflexivity|].
  destruct i as [|i]; cbn.
  - now destruct (savedPage r).
  - now rewrite IH.
Qed.

Lemma routes_savePage_length (i : Z) (p : Wx.Page) (h : Routes) :
  routes_length (routes_savePage i p h) = routes_length h.
Proof.
  unfold routes_length, routes_savePage.
  destruct (i <? 0)%Z; [reflexivity|].
  rewrite ofList_routes.
  - now rewrite saveAt_length.
  - intros Habs. apply (f_equal (@List.length Route)) in Habs.
    rewrite saveAt_length in Habs. apply (routes_not_empty h).
    now apply length_zero_iff_nil.
Qed.

(** The store of the specification keeps the specification's promises. *)
Lemma routes_laws (correctLevel : Z) : Laws Routes (HS := RoutesStore correctLevel).
Proof.
  constructor; cbn [length open replace savePage RoutesStore].
  - intros r ps h. unfold routes_open, routes_length at 1, routes. cbn [below top].
    rewrite length_app. cbn [List.length].
    assert (Hsame : forall h', routes_length h' = routes_length h ->
              Z.of_nat (List.length (below h' ++ [top h']) + 1) = (routes_length h + 1)%Z).
    { intros h' Hh'. unfold routes_length, routes in *. lia. }
    destruct (_ <=? _)%Z; [|now apply Hsame].
    destruct (nth_error ps _); [|now apply Hsame].
    apply Hsame. apply routes_savePage_length.
  - intros r h. unfold routes_replace, routes_length, routes. cbn.
    now rewrite !length_app.
  - apply routes_savePage_length.
Qed.

End HistoryFacts.

(* ################################################################# *)
(** * Part II.d  The statements at concrete inputs *)

Module Witnesses.

Import History Navigator Examples.
Import NoConcurrent.
Local Open Scope string_scope.
Local Open Scope list_scope.

#[local] Existing Instance Examples.store.
#[local] Existing Instance Examples.kit.

(** Three merged calls on an operation that rejects: one invocation, the
    same rejection for all three. *)
Lemma merge_shares_one_invocation_witness :
  rejecting 0 = Promise (Rejected 7)
  /\ (let drained :=
        run 0 0 rejecting (map (Call merge) [0; 1; 2] ++ [Settle 0]) init in
      let final := run 0 0 rejecting (repeat Tick 2) drained in
      invocations (log final) = [0]
      /\ log final = [Invoked 0; Settles 0 (Rejected 7);
                      Settles 1 (Rejected 7); Settles 2 (Rejected 7)]
      /\ statusControl drained = fresh
      /\ statusControl final = fresh
      /\ inflight final = [] /\ jobs final = []).
Proof.
  split; [reflexivity|].
  exact (@NoConcurrentFacts.merge_shares_one_invocation
           nat 0 0 rejecting 0 [1; 2] (Rejected 7) eq_refl).
Defined.

(** Three waiting calls, the first of which rejects: whatever happens
    later, the operation is applied once and the lock stays held. *)
Lemma wait_rejection_starves_the_queue_witness :
  rejecting 0 = Promise (Rejected 7)
  /\ (let stuck :=
        run 0 0 rejecting (map (Call wait) [0; 1; 2] ++ [Settle 0; Tick]) init in
      let final :=
        run 0 0 rejecting [Tick; Settle 1; Settle 2; Call wait 3; Tick] stuck in
      log stuck = [Invoked 0; Settles 0 (Rejected 7); Settles 1 (Rejected 7)]
      /\ statusControl stuck = {| running := true; listeners := [parked true 2] |}
      /\ invocations (log final) = [0]
      /\ running (statusControl final) = true
      /\ inflight final = []).
Proof.
  split; [reflexivity|].
  exact (@NoConcurrentFacts.wait_rejection_starves_the_queue
           nat 0 0 rejecting 0 1 [2] 7
           [Tick; Settle 1; Settle 2; Call wait 3; Tick] eq_refl).
Defined.

(** The same three calls on an operation that is fulfilled: three
    invocations, in the order of the calls, and the lock is free at the end. *)
Lemma wait_serves_three_calls_in_order :
  let final :=
    run 0 0 answering
      (map (Call wait) [0; 1; 2]
       ++ [Settle 0; Tick; Settle 1; Tick; Settle 2; Tick]) init in
  invocations (log final) = [0; 1; 2]
  /\ statusControl final = fresh /\ inflight final = [] /\ jobs final = [].
Proof.
  exact (@NoConcurrentFacts.wait_serves_in_arrival_order
           nat 0 0 answering 0 [1; 2]
           (fun x _ => ex_intro _ x eq_refl)).
Defined.

(** The handoff to a waiting caller after a rejection. *)
Lemma rejection_leaves_the_lock_orphaned_witness :
  rejecting 0 = Promise (Rejected 7)
  /\ (let before :=
        {| statusControl := {| running := true; listeners := [parked true 1] |};
           inflight := [0]; jobs := []; log := [Invoked 0] |} in
      let after := run 0 0 rejecting [Settle 0; Tick] before in
      log after = [Invoked 0; Settles 0 (Rejected 7); Settles 1 (Rejected 7)]
      /\ statusControl after = {| running := true; listeners := [] |}
      /\ Orphaned after
      /\ invocations (log (run 0 0 rejecting [Tick; Call wait 2; Settle 1] after))
         = [0]).
Proof.
  split; [reflexivity|].
  exact (@NoConcurrentFacts.rejection_leaves_the_lock_orphaned
           nat 0 0 rejecting 0 1 [] 7 [Invoked 0]
           [Tick; Call wait 2; Settle 1] eq_refl).
Defined.

(** The three arms of the retry policy: a full stack, with a replace that
    goes through and with one the platform refuses; a stack that is not full
    and a platform that keeps refusing; and another failure. *)
Lemma open_retry_policy_witness :
  (let r := _secretOpen (p "10") 300 2000 None (tenPages [Some limitExceed]) in
   fst r = Ok tt
   /\ trace (snd r)
      = [WxNavigateTo "/pages/p10" (Wx.failed limitExceed);
         WxRedirectTo "/pages/p10" (Wx.ok "redirectTo"); Delay 300]
   /\ Wx.pages (host (snd r))
      = map Wx.pageOf ["/pages/index"; "/pages/p1"; "/pages/p2"; "/pages/p3";
                       "/pages/p4"; "/pages/p5"; "/pages/p6"; "/pages/p7";
                       "/pages/p8"; "/pages/p10"])
  /\ (let w := tenPages [Some limitExceed; Some "redirectTo:fail"] in
      let r := _secretOpen (p "10") 300 2000 None w in
      fst r = Throw (Failure (Wx.failed "redirectTo:fail"))
      /\ trace (snd r)
         = [WxNavigateTo "/pages/p10" (Wx.failed limitExceed);
            WxRedirectTo "/pages/p10" (Wx.failed "redirectTo:fail")]
      /\ Wx.pages (host (snd r)) = Wx.pages (host w))
  /\ (let w := launched [Some limitExceed; Some limitExceed;
                         Some limitExceed; Some limitExceed] in
      let r := _secretOpen (p "1") retryAfter_default retryTimeout_default None w in
      fst r = Throw (Failure (Wx.failed limitExceed))
      /\ trace (snd r)
         = [WxNavigateTo "/pages/p1" (Wx.failed limitExceed); Delay 300;
            WxNavigateTo "/pages/p1" (Wx.failed limitExceed); Delay 600;
            WxNavigateTo "/pages/p1" (Wx.failed limitExceed); Delay 1200;
            WxNavigateTo "/pages/p1" (Wx.failed limitExceed)]
      /\ Wx.pages (host (snd r)) = Wx.pages (host w)
      /\ Wx.faults (host (snd r)) = [])
  /\ _secretOpen (p "1") 300 2000 None (launched [Some "navigateTo:fail timeout"])
     = (Throw (Failure (Wx.failed "navigateTo:fail timeout")),
        logging [WxNavigateTo "/pages/p1" (Wx.failed "navigateTo:fail timeout")]
          (withHost (Wx.spent (host (launched [Some "navigateTo:fail timeout"])))
             (launched [Some "navigateTo:fail timeout"]))).
Proof.
  assert (Hcap : forall script,
             (MAX_LEVEL (_config (tenPages script))
              <= Z.of_nat (List.length (Wx.pages (host (tenPages script)))))%Z)
    by (intros script; vm_compute; discriminate).
  split; [|split; [|split]].
  - exact (proj1 (proj2 (proj1 (NavigatorFacts.open_retry_policy (p "10") None
                                  (tenPages [Some limitExceed]))
                           limitExceed 300%Z 2000%Z eq_refl eq_refl (Hcap _)))
             eq_refl).
  - exact (proj2 (proj2 (proj1 (NavigatorFacts.open_retry_policy (p "10") None
                                  (tenPages [Some limitExceed; Some "redirectTo:fail"]))
                           limitExceed 300%Z 2000%Z eq_refl eq_refl (Hcap _)))
             "redirectTo:fail" eq_refl).
  - exact (proj1 (proj2 (NavigatorFacts.open_retry_policy (p "1") None
                           (launched [Some limitExceed; Some limitExceed;
                                      Some limitExceed; Some limitExceed])))
             limitExceed limitExceed limitExceed limitExceed []
             eq_refl eq_refl eq_refl eq_refl eq_refl eq_refl).
  - exact (proj2 (proj2 (NavigatorFacts.open_retry_policy (p "1") None
                           (launched [Some "navigateTo:fail timeout"])))
             "navigateTo:fail timeout" 300%Z 2000%Z eq_refl eq_refl).
Defined.

(** The scenario of the specification: the cap is ten, nine pages are open,
    a tenth is opened. *)
Lemma curtain_is_inserted_before_the_last_open_witness :
  let r := navigateTo (p "9") ninePages in
  Z.of_nat (List.length (Wx.pages (host ninePages))) = 9%Z
  /\ fst r = Ok {| Wx.succeeded := true; Wx.errMsg := "ok" |}
  /\ trace (snd r)
     = trace ninePages
         ++ [HistoryOpen (mkRoute "/pages/p9");
             HistorySavePage 8 (Wx.pageOf "/pages/p8");
             WxRedirectTo "/pages/curtain/curtain" (Wx.ok "redirectTo"); Delay 300;
             WxNavigateTo "/pages/p9" (Wx.ok "navigateTo"); Delay 300]
  /\ Wx.pages (host (snd r))
     = map Wx.pageOf ["/pages/index"; "/pages/p1"; "/pages/p2"; "/pages/p3";
                      "/pages/p4"; "/pages/p5"; "/pages/p6"; "/pages/p7";
                      "/pages/curtain/curtain"; "/pages/p9"]
  /\ Z.of_nat (List.length (Wx.pages (host (snd r)))) = 10%Z
  /\ length (_history (snd r)) = (9 + 1)%Z.
Proof.
  cbv zeta. split; [reflexivity|].
  pose proof (@NavigatorFacts.curtain_is_inserted_before_the_last_open
                Routes store (HistoryFacts.routes_laws 8) kit (p "9") ninePages
                (map Wx.pageOf ["/pages/index"; "/pages/p1"; "/pages/p2"; "/pages/p3";
                                "/pages/p4"; "/pages/p5"; "/pages/p6"; "/pages/p7"])
                (Wx.pageOf "/pages/p8") eq_refl eq_refl eq_refl)
    as (_ & _ & Hlen & Haccepted & Hresolved & _).
  pose proof (Haccepted eq_refl eq_refl) as (Hok & Htrace).
  pose proof (Hresolved _ Hok) as (Hpages & Hcap).
  exact (conj Hok (conj Htrace (conj Hpages (conj Hcap Hlen)))).
Defined.

(** The same open on a platform that refuses the replace, and on one that
    accepts the replace and then refuses the open four times with a false
    limit alarm: the call is rejected and the stack does not reach the cap;
    it keeps its nine pages, with the curtain on top in the second case.  The
    history holds its tenth entry all the same. *)
Lemma curtain_open_on_a_platform_that_refuses :
  let refusedReplace := ninePagesThen [Some "redirectTo:fail"] in
  let r1 := navigateTo (p "9") refusedReplace in
  let refusedOpen :=
    ninePagesThen [None; Some limitExceed; Some limitExceed;
                   Some limitExceed; Some limitExceed] in
  let r2 := navigateTo (p "9") refusedOpen in
  enableCurtain (_config refusedReplace) = true
  /\ Z.of_nat (List.length (Wx.pages (host refusedReplace))) = (10 - 1)%Z
  /\ MAX_LEVEL (_config refusedReplace) = 10%Z
  /\ fst r1 = Throw (Failure (Wx.failed "redirectTo:fail"))
  /\ trace (snd r1)
     = trace refusedReplace
         ++ [HistoryOpen (mkRoute "/pages/p9");
             HistorySavePage 8 (Wx.pageOf "/pages/p8");
             WxRedirectTo "/pages/curtain/curtain" (Wx.failed "redirectTo:fail")]
  /\ Wx.pages (host (snd r1)) = Wx.pages (host refusedReplace)
  /\ Z.of_nat (List.length (Wx.pages (host (snd r1)))) = 9%Z
  /\ length (_history (snd r1)) = 10%Z
  /\ fst r2 = Throw (Failure (Wx.failed limitExceed))
  /\ Wx.pages (host (snd r2))
     = map Wx.pageOf ["/pages/index"; "/pages/p1"; "/pages/p2"; "/pages/p3";
                      "/pages/p4"; "/pages/p5"; "/pages/p6"; "/pages/p7";
                      "/pages/curtain/curtain"]
  /\ Z.of_nat (List.length (Wx.pages (host (snd r2)))) = 9%Z
  /\ length (_history (snd r2)) = 10%Z.
Proof. cbv zeta. repeat split. Qed.

(** A back made by code from the third entry, on two pages, with a restore
    handler: the top page is replaced and the handler is called.  A system
    back from the third page of three onto a tainted entry: the handler is
    called for it.  The same system back onto an entry that is not tainted:
    the platform has already shown the right page and nothing physical is
    done. *)
Lemma back_at_equal_depth_witness :
  (let w := threeEntriesTwoPages (settings (Some decliningHandler) true) [] in
   let u := appendUrlParam "/pages/list" _forcedRefresh in
   let r := _doBack back1 false w in
   logicalLength back1 w = physicalLength false w
   /\ Wx.pages (host (snd r)) = [Wx.pageOf "/pages/index"; Wx.pageOf u]
   /\ trace (snd r)
      = [HistoryBack back1; WxRedirectTo u (Wx.ok "redirectTo"); Delay 300;
         PageRestoreHandler (listEntry false) "unloaded"]
   /\ fst r = Ok tt)
  /\ (let w := threeDeep (settings (Some decliningHandler) true) true [] in
      let r := _doBack back1 true w in
      logicalLength back1 w = physicalLength true w
      /\ exists es,
           trace (snd r)
           = trace w ++ HistoryBack back1
               :: PageRestoreHandler (listEntry true) "tainted" :: es)
  /\ (let w := threeDeep (settings None true) false [] in
      let r := _doBack back1 true w in
      logicalLength back1 w = physicalLength true w
      /\ fst r = Ok tt
      /\ host (snd r) = host w
      /\ trace (snd r) = [HistoryBack back1]).
Proof.
  cbv zeta. split; [|split].
  - split; [reflexivity|].
    pose proof (proj1 (proj1 (proj2 (NavigatorFacts.back_at_equal_depth back1 false
                  (threeEntriesTwoPages (settings (Some decliningHandler) true) [])
                  eq_refl)) eq_refl) eq_refl) as (Hpages & Htrace & Hok).
    exact (conj (Hpages eq_refl) (conj Htrace Hok)).
  - split; [reflexivity|].
    exact (proj1 (proj2 (proj2 (NavigatorFacts.back_at_equal_depth back1 true
                    (threeDeep (settings (Some decliningHandler) true) true [])
                    eq_refl))) eq_refl eq_refl).
  - split; [reflexivity|].
    exact (proj2 (proj2 (proj2 (NavigatorFacts.back_at_equal_depth back1 true
                    (threeDeep (settings None true) false []) eq_refl)))
             eq_refl eq_refl).
Defined.

(** Three backs at equal depth.  A system back onto an entry that is marked
    tainted while tainted restore is switched off: the handler is there and
    is not called, nothing physical is done.  A system back on a stack of
    ten pages none of which is the curtain page, with curtain mode on: the
    logical length after the pop is [MAX_LEVEL - 1], and the top page is
    replaced.  A back made by code whose replace the platform refuses: the
    back is rejected and the handler is not called. *)
Lemma equal_depth_back_off_the_stated_rule :
  (let w := threeDeep (settings (Some decliningHandler) false) true [] in
   let r := _doBack back1 true w in
   logicalLength back1 w = physicalLength true w
   /\ targetCurtain back1 w = false
   /\ tainted (backTarget back1 w) = true
   /\ fst r = Ok tt
   /\ trace (snd r) = [HistoryBack back1]
   /\ host (snd r) = host w)
  /\ (let w := curtainSwitchedOn in
      let r := _doBack back1 true w in
      logicalLength back1 w = physicalLength true w
      /\ existsb (fun page => String.eqb (Wx.route page) (curtainPage (_config w)))
           (Wx.pages (host w)) = false
      /\ tainted (backTarget back1 w) = false
      /\ fst r = Ok tt
      /\ trace (snd r)
         = [HistoryBack back1;
            WxRedirectTo (appendUrlParam "/pages/p8" _forcedRefresh)
              (Wx.ok "redirectTo");
            Delay 300])
  /\ (let w := threeEntriesTwoPages (settings (Some decliningHandler) true)
                 [Some "redirectTo:fail"] in
      let r := navigateBack back1 w in
      logicalLength back1 w = physicalLength false w
      /\ fst r = Throw (Failure (Wx.failed "redirectTo:fail"))
      /\ trace (snd r)
         = [HistoryBack back1;
            WxRedirectTo (appendUrlParam "/pages/list" _forcedRefresh)
              (Wx.failed "redirectTo:fail")]
      /\ Wx.pages (host (snd r)) = Wx.pages (host w)).
Proof. cbv zeta. repeat split. Qed.

(** A back by two made by code from the eleventh entry, on ten pages with
    the curtain under the top page: one page is popped, which uncovers the
    curtain, and the curtain is replaced with the target.  And a back made
    by code from the third page of three whose pop the platform refuses. *)
Lemma back_pops_the_surplus_first_witness :
  (let w := beyondTheCap in
   let r := _doBack back2 false w in
   let popped := snd (_secretBack {| delta := 1 |} (afterHistoryBack back2 w)) in
   (logicalLength back2 w < physicalLength false w)%Z
   /\ Wx.pages (host w)
      = map Wx.pageOf ["/pages/index"; "/pages/p1"; "/pages/p2"; "/pages/p3";
                       "/pages/p4"; "/pages/p5"; "/pages/p6"; "/pages/p7";
                       "/pages/curtain/curtain"; "/pages/p10"]
   /\ targetCurtain back2 w = true
   /\ trace popped
      = trace w ++ [HistoryBack back2; WxNavigateBack 1 (Wx.ok "navigateBack");
                    Delay 900]
   /\ depth popped = 9%Z
   /\ Wx.pages (host popped)
      = map Wx.pageOf ["/pages/index"; "/pages/p1"; "/pages/p2"; "/pages/p3";
                       "/pages/p4"; "/pages/p5"; "/pages/p6"; "/pages/p7";
                       "/pages/curtain/curtain"]
   /\ Wx.pages (host (snd r))
      = map Wx.pageOf ["/pages/index"; "/pages/p1"; "/pages/p2"; "/pages/p3";
                       "/pages/p4"; "/pages/p5"; "/pages/p6"; "/pages/p7";
                       appendUrlParam "/pages/p8" _forcedRefresh]
   /\ pops (trace (snd r)) = pops (trace w) ++ [1%Z])
  /\ (let w := threeDeep (settings None true) false [Some "navigateBack:fail"] in
      let r := _doBack back1 false w in
      (logicalLength back1 w < physicalLength false w)%Z
      /\ fst r = Throw (Failure (Wx.failed "navigateBack:fail"))
      /\ trace (snd r)
         = [HistoryBack back1; WxNavigateBack 1 (Wx.failed "navigateBack:fail")]
      /\ Wx.pages (host (snd r)) = Wx.pages (host w)).
Proof.
  cbv zeta. split.
  - split; [reflexivity|]. split; [reflexivity|]. split; [reflexivity|].
    assert (Hone : (1 <= logicalLength back2 beyondTheCap)%Z)
      by (vm_compute; discriminate).
    pose proof (@NavigatorFacts.back_pops_the_surplus_first
                  Routes store kit back2 false beyondTheCap eq_refl)
      as (Hfirst & Haccepted & _).
    pose proof (Haccepted eq_refl) as (Htrace & Hdepth & Hpages & _ & Hcurtain).
    destruct Hfirst as (res & es & _ & _ & Hpops).
    exact (conj Htrace (conj (Hdepth Hone) (conj (Hpages eq_refl Hone)
             (conj (Hcurtain eq_refl eq_refl) Hpops)))).
  - split; [reflexivity|].
    exact (proj2 (proj2 (@NavigatorFacts.back_pops_the_surplus_first
                           Routes store kit back1 false
                           (threeDeep (settings None true) false
                              [Some "navigateBack:fail"]) eq_refl))
             "navigateBack:fail" eq_refl).
Defined.

(** A system back onto a tainted entry with a handler that reports failure:
    the hook is what back runs, and the page is reloaded. *)
Lemma tainted_restore_falls_back_witness :
  let w := threeDeep (settings (Some decliningHandler) true) true [] in
  let w1 := afterHistoryBack back1 w in
  let called := logging [PageRestoreHandler (listEntry true) "tainted"] w1 in
  targetCurtain back1 w = false
  /\ targetTainted back1 w = true
  /\ _doBack back1 true w = _doTaintedRestore (listEntry true) w1
  /\ _doTaintedRestore (listEntry true) w1
     = _secretReplace (listEntry true) _forcedRefresh called.
Proof.
  cbv zeta. split; [reflexivity|]. split; [reflexivity|].
  pose proof (@NavigatorFacts.tainted_restore_falls_back_unless_the_handler_fails
                Routes store kit back1 true
                (threeDeep (settings (Some decliningHandler) true) true [])
                eq_refl eq_refl) as (_ & Hback & _ & Hhook).
  split.
  - exact (Hback eq_refl eq_refl).
  - exact (proj1 (Hhook (afterHistoryBack back1
                           (threeDeep (settings (Some decliningHandler) true) true []))
                    decliningHandler eq_refl)).
Defined.

(** A handler whose promise is rejected.  A back made by code from the
    third page of three onto the tainted entry: [navigateBack] is rejected
    with the handler's error after the pop, and the page is not reloaded.
    The same back as a system back: rejected at once, the stack untouched. *)
Lemma a_failing_restore_handler_rejects_back_without_a_reload_witness :
  let w := threeDeep (settings (Some failingHandler) true) true [] in
  targetCurtain back1 w = false
  /\ targetTainted back1 w = true
  /\ failingHandler (listEntry true) "tainted" = ReturnsRejected "restore failed"
  /\ (logicalLength back1 w < physicalLength false w)%Z
  /\ fst (navigateBack back1 w) = Throw (HandlerError "restore failed")
  /\ trace (snd (_doBack back1 false w))
     = [HistoryBack back1; WxNavigateBack 1 (Wx.ok "navigateBack"); Delay 900;
        PageRestoreHandler (listEntry true) "tainted"]
  /\ logicalLength back1 w = physicalLength true w
  /\ fst (_doBack back1 true w) = Throw (HandlerError "restore failed")
  /\ trace (snd (_doBack back1 true w))
     = [HistoryBack back1; PageRestoreHandler (listEntry true) "tainted"]
  /\ host (snd (_doBack back1 true w)) = host w.
Proof.
  cbv zeta. do 4 (split; [reflexivity|]).
  pose proof (@NavigatorFacts.a_failing_restore_handler_rejects_back_without_a_reload
                Routes store kit back1 false
                (threeDeep (settings (Some failingHandler) true) true [])
                failingHandler "restore failed" eq_refl eq_refl eq_refl
                (or_introl eq_refl)) as (_ & Hdeeper & _).
  pose proof (Hdeeper eq_refl eq_refl) as (_ & Htrace & Hcaller).
  pose proof (@NavigatorFacts.a_failing_restore_handler_rejects_back_without_a_reload
                Routes store kit back1 true
                (threeDeep (settings (Some failingHandler) true) true [])
                failingHandler "restore failed" eq_refl eq_refl eq_refl
                (or_introl eq_refl)) as (_ & _ & Hequal).
  pose proof (Hequal eq_refl eq_refl) as (Hres & Htrace' & Hhost).
  exact (conj (Hcaller eq_refl) (conj Htrace (conj eq_refl
           (conj Hres (conj Htrace' Hhost))))).
Defined.

(** Three teardown notifications while the flag is up, then the delay. *)
Lemma teardown_routing_witness :
  let burst := teardowns 3 unloading in
  let cleared := snd (delayElapsed 0 burst) in
  _activeUnload unloading = true
  /\ scheduledClears burst = [0]
  /\ invocations (log (finishLock burst)) = [0]
  /\ _activeUnload burst = true
  /\ trace burst = [] /\ _history burst = initial /\ host burst = host unloading
  /\ _activeUnload cleared = false
  /\ scheduledClears cleared = []
  /\ statusControl (finishLock cleared) = fresh
  /\ trace cleared = [].
Proof.
  cbv zeta. split; [reflexivity|].
  exact (proj1 (proj2 (NavigatorFacts.teardown_routing unloading 2))
           eq_refl eq_refl eq_refl).
Defined.

(** An open whose retries are used up, and a replace the platform refuses:
    the history keeps the entry. *)
Lemma history_is_written_first_and_kept_witness :
  let w := launched [Some limitExceed; Some limitExceed;
                     Some limitExceed; Some limitExceed] in
  let opening := navigateTo (p "1") w in
  let replacing := redirectTo (p "1") w in
  Wx.pages (host w) = [] ++ [Wx.pageOf "/pages/index"]
  /\ length (_history (snd opening)) = (length (_history w) + 1)%Z
  /\ fst opening = Throw (Failure (Wx.failed limitExceed))
  /\ Wx.pages (host (snd opening)) = Wx.pages (host w)
  /\ _history (snd replacing) = replace (mkRoute "/pages/p1") (_history w)
  /\ fst replacing = Throw (Failure (Wx.failed limitExceed))
  /\ Wx.pages (host (snd replacing)) = Wx.pages (host w).
Proof.
  cbv zeta. split; [reflexivity|].
  pose proof (@NavigatorFacts.history_is_written_first_and_kept
                Routes store (HistoryFacts.routes_laws 8) kit (p "1")
                (launched [Some limitExceed; Some limitExceed;
                           Some limitExceed; Some limitExceed])
                [] (Wx.pageOf "/pages/index") eq_refl)
    as (_ & Hlen & Hopen & _ & Hkept & _ & Hreplace).
  destruct (Hopen limitExceed limitExceed limitExceed limitExceed []
              eq_refl eq_refl eq_refl eq_refl eq_refl eq_refl)
    as (Hthrow & Hpages & _).
  destruct (Hreplace limitExceed eq_refl) as (Hthrow' & Hpages').
  exact (conj Hlen (conj Hthrow (conj Hpages (conj Hkept (conj Hthrow' Hpages'))))).
Defined.

(** ** The further statements at concrete inputs *)

(** Two calls in [discard] mode while the first call's invocation runs, and
    a call after it has settled ([discardRes] is 9). *)
Lemma calls_on_a_held_lock_are_turned_away_witness :
  let busy := run 0 9 answering (Call discard 0 :: map (Call discard) [1; 2]) init in
  let released := run 0 9 answering [Settle 0] busy in
  answering 0 = Promise (Fulfilled 0)
  /\ log busy = [Invoked 0; Settles 1 (Fulfilled 9); Settles 2 (Fulfilled 9)]
  /\ statusControl busy = {| running := true; listeners := [] |}
  /\ inflight busy = [0]
  /\ log released = log busy ++ [Settles 0 (Fulfilled 0)]
  /\ statusControl released = fresh
  /\ inflight released = [] /\ jobs released = []
  /\ invocations (log (run 0 9 answering [Call discard 3] released)) = [0; 3].
Proof.
  cbv zeta. split; [reflexivity|].
  exact (@NoConcurrentFacts.calls_on_a_held_lock_are_turned_away
           nat 0 9 answering discard discard 0 3 [1; 2] (Fulfilled 0)
           (or_introl eq_refl) eq_refl).
Defined.

(** Three calls, in three modes, of a function that is not [async]. *)
Lemma sync_usage_runs_every_call_witness :
  let st :=
    run 0 0 doubling [Call wait 1; Call merge 2; Tick; Call discard 3; Settle 1] init in
  statusControl st = fresh /\ inflight st = [] /\ jobs st = []
  /\ log st = [Invoked 1; SyncUsage 1; Settles 1 (Fulfilled 2);
               Invoked 2; SyncUsage 2; Settles 2 (Fulfilled 4);
               Invoked 3; SyncUsage 3; Settles 3 (Fulfilled 6)].
Proof.
  exact (@NoConcurrentFacts.sync_usage_runs_every_call
           nat 0 0 doubling (fun c => 2 * c)
           [Call wait 1; Call merge 2; Tick; Call discard 3; Settle 1]
           (fun c => eq_refl)).
Defined.

(** Merged and discarded calls on an operation that is rejected: the lock
    is held by the one invocation in flight, whose settling releases it. *)
Lemma without_wait_a_held_lock_has_its_invocation_witness :
  let evs := [Call merge 0; Call discard 1; Call merge 2] in
  let st := run 0 0 rejecting evs init in
  usesWait evs = false
  /\ running (statusControl st) = true
  /\ exists c, inflight st = [c]
               /\ statusControl (run 0 0 rejecting [Settle c] st) = fresh
               /\ inflight (run 0 0 rejecting [Settle c] st) = [].
Proof.
  cbv zeta. split; [reflexivity|]. split; [reflexivity|].
  exact (proj1 (@NoConcurrentFacts.without_wait_a_held_lock_has_its_invocation
                  nat 0 0 rejecting [Call merge 0; Call discard 1; Call merge 2]
                  (fun c => ex_intro _ (Rejected 7) eq_refl)
                  eq_refl) eq_refl).
Defined.

(** Two merged calls, a waiting call and two more merged calls behind a
    running invocation. *)
Lemma merged_calls_behind_a_waiter_share_its_result_witness :
  let queued :=
    run 0 0 answering
      (Call merge 0 :: map (Call merge) [1; 2] ++ Call wait 3 :: map (Call merge) [4; 5])
      init in
  let handed := run 0 0 answering (Settle 0 :: repeat Tick 3) queued in
  let final := run 0 0 answering (Settle 3 :: repeat Tick 2) handed in
  answering 0 = Promise (Fulfilled 0)
  /\ answering 3 = Promise (Fulfilled 3)
  /\ log handed = [Invoked 0; Settles 0 (Fulfilled 0); Settles 1 (Fulfilled 0);
                   Settles 2 (Fulfilled 0); Invoked 3]
  /\ log final = log handed ++ [Settles 3 (Fulfilled 3); Settles 4 (Fulfilled 3);
                                Settles 5 (Fulfilled 3)]
  /\ invocations (log final) = [0; 3]
  /\ statusControl final = fresh.
Proof.
  cbv zeta. split; [reflexivity|]. split; [reflexivity|].
  pose proof (@NoConcurrentFacts.merged_calls_behind_a_waiter_share_its_result
                nat 0 0 answering merge 0 3 [1; 2] [4; 5] 0 (Fulfilled 3)
                eq_refl eq_refl) as (_ & Hh & _ & _ & Hf & Hinv & Hsc & _).
  exact (conj Hh (conj Hf (conj Hinv Hsc))).
Defined.

(** A false limit alarm, then an open that goes through. *)
Lemma open_retry_can_succeed_witness :
  let w := launched [Some limitExceed; None] in
  let r := _secretOpen (p "1") retryAfter_default retryTimeout_default None w in
  includes "limit exceed" limitExceed = true
  /\ fst r = Ok tt
  /\ trace (snd r)
     = [WxNavigateTo "/pages/p1" (Wx.failed limitExceed); Delay 300;
        WxNavigateTo "/pages/p1" (Wx.ok "navigateTo"); Delay 300]
  /\ Wx.pages (host (snd r)) = map Wx.pageOf ["/pages/index"; "/pages/p1"].
Proof.
  cbv zeta. split; [reflexivity|].
  exact (@NavigatorFacts.open_retry_can_succeed
           Routes kit (p "1") None (launched [Some limitExceed; None])
           limitExceed [] eq_refl eq_refl eq_refl).
Defined.

(** The first open after the launch. *)
Lemma navigateTo_under_the_cap_opens_the_page_witness :
  let w := launched [] in
  let r := navigateTo (p "1") w in
  (depth w < MAX_LEVEL (_config w))%Z
  /\ fst r = Ok {| Wx.succeeded := true; Wx.errMsg := "ok" |}
  /\ trace (snd r)
     = [HistoryOpen (mkRoute "/pages/p1");
        WxNavigateTo "/pages/p1" (Wx.ok "navigateTo"); Delay 300]
  /\ Wx.pages (host (snd r)) = map Wx.pageOf ["/pages/index"; "/pages/p1"]
  /\ _activeUnload (snd r) = false.
Proof.
  cbv zeta. split; [reflexivity|].
  assert (Hplain : enableCurtain (_config (launched [])) = false
                   \/ depth (launched []) <> (MAX_LEVEL (_config (launched [])) - 1)%Z)
    by (right; vm_compute; discriminate).
  pose proof (@NavigatorFacts.navigateTo_under_the_cap_opens_the_page
                Routes store kit (p "1") (launched []) [] (Wx.pageOf "/pages/index")
                eq_refl eq_refl Hplain eq_refl)
    as (Hok & Htrace & Hpages & _ & Hflag).
  exact (conj Hok (conj Htrace (conj Hpages Hflag))).
Defined.

(** An open on a stack of ten pages, the cap. *)
Lemma navigateTo_at_the_cap_replaces_the_top_page_witness :
  let w := tenPages [] in
  let r := navigateTo (p "10") w in
  (MAX_LEVEL (_config w) <= depth w)%Z
  /\ fst r = Ok {| Wx.succeeded := true; Wx.errMsg := "ok" |}
  /\ trace (snd r)
     = [HistoryOpen (mkRoute "/pages/p10");
        HistorySavePage 0 (Wx.pageOf "/pages/p9");
        WxRedirectTo "/pages/p10" (Wx.ok "redirectTo"); Delay 300]
  /\ Wx.pages (host (snd r))
     = map Wx.pageOf ["/pages/index"; "/pages/p1"; "/pages/p2"; "/pages/p3";
                      "/pages/p4"; "/pages/p5"; "/pages/p6"; "/pages/p7";
                      "/pages/p8"; "/pages/p10"]
  /\ depth (snd r) = 10%Z
  /\ length (_history (snd r)) = 2%Z.
Proof.
  cbv zeta.
  assert (Hcap : (MAX_LEVEL (_config (tenPages [])) <= depth (tenPages []))%Z)
    by (vm_compute; discriminate).
  split; [exact Hcap|].
  pose proof (@NavigatorFacts.navigateTo_at_the_cap_replaces_the_top_page
                Routes store (HistoryFacts.routes_laws 8) kit (p "10") (tenPages [])
                (map Wx.pageOf ["/pages/index"; "/pages/p1"; "/pages/p2"; "/pages/p3";
                                "/pages/p4"; "/pages/p5"; "/pages/p6"; "/pages/p7";
                                "/pages/p8"])
                (Wx.pageOf "/pages/p9") eq_refl Hcap eq_refl)
    as (Hok & Htrace & Hpages & Hdepth & _ & Hlen).
  exact (conj Hok (conj Htrace (conj Hpages (conj Hdepth Hlen)))).
Defined.

(** Nine pages, a replace that goes through and an open that times out. *)
Lemma a_failed_open_leaves_the_curtain_on_top_witness :
  let w := ninePagesThen [None; Some "navigateTo:fail timeout"] in
  let r := navigateTo (p "9") w in
  depth w = (MAX_LEVEL (_config w) - 1)%Z
  /\ fst r = Throw (Failure (Wx.failed "navigateTo:fail timeout"))
  /\ Wx.pages (host (snd r))
     = map Wx.pageOf ["/pages/index"; "/pages/p1"; "/pages/p2"; "/pages/p3";
                      "/pages/p4"; "/pages/p5"; "/pages/p6"; "/pages/p7";
                      "/pages/curtain/curtain"]
  /\ length (_history (snd r)) = 10%Z.
Proof.
  cbv zeta. split; [reflexivity|].
  pose proof (@NavigatorFacts.a_failed_open_leaves_the_curtain_on_top
                Routes store kit (p "9")
                (ninePagesThen [None; Some "navigateTo:fail timeout"])
                (map Wx.pageOf ["/pages/index"; "/pages/p1"; "/pages/p2"; "/pages/p3";
                                "/pages/p4"; "/pages/p5"; "/pages/p6"; "/pages/p7"])
                (Wx.pageOf "/pages/p8") "navigateTo:fail timeout" []
                eq_refl eq_refl eq_refl eq_refl eq_refl)
    as (Hthrow & _ & Hpages & Hhistory).
  exact (conj Hthrow (conj Hpages (f_equal length Hhistory))).
Defined.

(** A platform that refuses six opens in a row: the default open gives up
    after four. *)
Lemma open_gives_up_after_a_bounded_number_of_attempts_witness :
  let w := launched [Some limitExceed; Some limitExceed; Some limitExceed;
                     Some limitExceed; Some limitExceed; Some limitExceed] in
  (2000 <= 300 * 2 ^ Z.of_nat 3)%Z
  /\ attempts (trace (snd (_secretOpen (p "1") 300 2000 None w))) <= 0 + 4.
Proof.
  cbv zeta.
  assert (Hrt : (2000 <= 300 * 2 ^ Z.of_nat 3)%Z) by (vm_compute; discriminate).
  split; [exact Hrt|].
  exact (proj1 (@NavigatorFacts.open_gives_up_after_a_bounded_number_of_attempts
                  Routes kit (p "1") None
                  (launched [Some limitExceed; Some limitExceed; Some limitExceed;
                             Some limitExceed; Some limitExceed; Some limitExceed]))
           3 300%Z 2000%Z Hrt).
Defined.

(** No page on the stack. *)
Lemma navigation_without_a_page_fails_before_anything_is_written_witness :
  Wx.pages (host noPage) = []
  /\ navigateTo (p "1") noPage = (Throw TypeError, noPage)
  /\ redirectTo (p "1") noPage = (Throw TypeError, noPage).
Proof.
  split; [reflexivity|].
  exact (@NavigatorFacts.navigation_without_a_page_fails_before_anything_is_written
           Routes store kit (p "1") noPage eq_refl).
Defined.


(** The same back with a restore handler whose promise is rejected. *)
Lemma code_back_goes_through_whatever_the_lost_restore_reports_witness :
  let w := deepHistory (settings (Some failingHandler) true) [] in
  let u := appendUrlParam (url (p "3")) _forcedRefresh in
  let r := navigateBack back1 w in
  (physicalLength false w <= logicalLength back1 w)%Z
  /\ trace (snd r)
     = [HistoryBack back1; WxRedirectTo u (Wx.ok "redirectTo"); Delay 300;
        PageRestoreHandler (p "3") "unloaded"]
  /\ Wx.pages (host (snd r)) = [Wx.pageOf "/pages/index"; Wx.pageOf u]
  /\ fst r = Ok {| Wx.succeeded := true; Wx.errMsg := "ok" |}.
Proof.
  cbv zeta.
  assert (HLP : (physicalLength false (deepHistory (settings (Some failingHandler) true) [])
                 <= logicalLength back1
                      (deepHistory (settings (Some failingHandler) true) []))%Z)
    by (vm_compute; discriminate).
  split; [exact HLP|].
  exact (@NavigatorFacts.code_back_goes_through_whatever_the_lost_restore_reports
           Routes store kit back1 (deepHistory (settings (Some failingHandler) true) [])
           failingHandler HLP eq_refl eq_refl).
Defined.

(** A back by two made by code on ten pages and eleven entries: the stack
    is left nine deep, as long as the history.  A back by one on two pages
    and three entries: the top page is replaced.  A back by one on three
    pages whose pop the platform refuses. *)
Lemma a_code_back_always_acts_on_the_stack_witness :
  logicalLength back2 beyondTheCap = 9%Z
  /\ depth beyondTheCap = 10%Z
  /\ depth (snd (navigateBack back2 beyondTheCap)) = 9%Z
  /\ Wx.pages (host (snd (navigateBack back1
                            (threeEntriesTwoPages (settings None true) []))))
     = [Wx.pageOf "/pages/index";
        Wx.pageOf (appendUrlParam "/pages/list" _forcedRefresh)]
  /\ (let w := threeDeep (settings None true) false [Some "navigateBack:fail"] in
      fst (navigateBack back1 w) = Throw (Failure (Wx.failed "navigateBack:fail"))
      /\ Wx.pages (host (snd (navigateBack back1 w))) = Wx.pages (host w)).
Proof.
  cbv zeta. split; [reflexivity|]. split; [reflexivity|].
  assert (Hone : (1 <= logicalLength back2 beyondTheCap)%Z)
    by (vm_compute; discriminate).
  assert (Hdeep : (physicalLength false (threeEntriesTwoPages (settings None true) [])
                   <= logicalLength back1
                        (threeEntriesTwoPages (settings None true) []))%Z)
    by (vm_compute; discriminate).
  split; [|split].
  - exact (proj1 (proj1 (proj2 (@NavigatorFacts.a_code_back_always_acts_on_the_stack
                                  Routes store kit back2 beyondTheCap)) eq_refl)
             eq_refl Hone).
  - exact (proj2 (proj1 (proj2 (@NavigatorFacts.a_code_back_always_acts_on_the_stack
                                  Routes store kit back1
                                  (threeEntriesTwoPages (settings None true) [])))
                    eq_refl) Hdeep).
  - exact (proj2 (proj2 (@NavigatorFacts.a_code_back_always_acts_on_the_stack
                           Routes store kit back1
                           (threeDeep (settings None true) false
                              [Some "navigateBack:fail"])))
             "navigateBack:fail" eq_refl).
Defined.

(** A replace right after the launch that the platform refuses, the next
    teardown notification, and the delay. *)
Lemma the_unload_of_a_replaced_page_is_not_a_back_witness :
  let w := launched [Some "redirectTo:fail"] in
  let replaced := snd (redirectTo (p "1") w) in
  let torn := snd (onPageUnload replaced) in
  let rested := snd (delayElapsed 0 torn) in
  Idle (finishLock w)
  /\ _history torn = _history replaced
  /\ trace torn = trace replaced
  /\ scheduledClears torn = [0]
  /\ _activeUnload rested = false
  /\ Idle (finishLock rested)
  /\ _history rested = replace (mkRoute "/pages/p1") initial
  /\ fst (redirectTo (p "1") w) = Throw (Failure (Wx.failed "redirectTo:fail"))
  /\ Wx.pages (host replaced) = Wx.pages (host w)
  /\ _activeUnload replaced = true.
Proof.
  cbv zeta.
  assert (Hidle : Idle (finishLock (launched [Some "redirectTo:fail"])))
    by (repeat split).
  split; [exact Hidle|].
  pose proof (@NavigatorFacts.the_unload_of_a_replaced_page_is_not_a_back
                Routes store kit (p "1") (launched [Some "redirectTo:fail"]) []
                (Wx.pageOf "/pages/index") eq_refl Hidle)
    as (H1 & H2 & _ & H4 & H5 & H6 & H7 & _ & _ & Hrefused).
  pose proof (Hrefused "redirectTo:fail" eq_refl) as (H8 & H9 & H10 & _).
  exact (conj H1 (conj H2 (conj H4 (conj H5 (conj H6 (conj H7
           (conj H8 (conj H9 H10)))))))).
Defined.

(** A [reLaunch] from the third of three pages, and the three teardowns. *)
Lemma resetting_the_stack_keeps_the_history_witness :
  let w := threeDeep (settings None true) false [] in
  let r := reLaunch (p "1") w in
  fst r = Ok {| Wx.succeeded := true; Wx.errMsg := "ok" |}
  /\ Wx.pages (host (snd r)) = [Wx.pageOf "/pages/p1"]
  /\ _history (snd r) = _history w
  /\ length (_history (teardowns 3 (snd r))) = 3%Z
  /\ _activeUnload (snd r) = true.
Proof.
  cbv zeta.
  pose proof (@NavigatorFacts.resetting_the_stack_keeps_the_history
                Routes store kit (p "1") (threeDeep (settings None true) false []) 3
                _ (or_introl eq_refl))
    as (Hh & Hflag & Htorn & _ & Hok & _).
  destruct (Hok eq_refl) as (Hres & Hpages & _).
  exact (conj Hres (conj Hpages (conj Hh (conj (f_equal length Htorn) Hflag)))).
Defined.

(** The tenth open on nine pages takes the stack to the cap; an open on ten
    pages leaves it there. *)
Lemma navigateTo_keeps_the_stack_within_the_cap_witness :
  (depth (snd (navigateTo (p "9") ninePages)) <= MAX_LEVEL (_config ninePages))%Z
  /\ depth (snd (navigateTo (p "10") (tenPages []))) = depth (tenPages []).
Proof.
  split.
  - refine (proj1 (proj2 (proj2
              (@NavigatorFacts.navigateTo_keeps_the_stack_within_the_cap
                 Routes store kit (p "9") ninePages
                 (map Wx.pageOf ["/pages/index"; "/pages/p1"; "/pages/p2";
                                 "/pages/p3"; "/pages/p4"; "/pages/p5";
                                 "/pages/p6"; "/pages/p7"])
                 (Wx.pageOf "/pages/p8") eq_refl))) _).
    vm_compute. discriminate.
  - refine (proj1 (proj2
              (@NavigatorFacts.navigateTo_keeps_the_stack_within_the_cap
                 Routes store kit (p "10") (tenPages [])
                 (map Wx.pageOf ["/pages/index"; "/pages/p1"; "/pages/p2";
                                 "/pages/p3"; "/pages/p4"; "/pages/p5";
                                 "/pages/p6"; "/pages/p7"; "/pages/p8"])
                 (Wx.pageOf "/pages/p9") eq_refl)) _).
    vm_compute. discriminate.
Defined.

(** Twelve opens after the launch: ten pages at most, thirteen entries. *)
Lemma the_history_grows_while_the_stack_stays_capped_witness :
  let rs := [p "1"; p "2"; p "3"; p "4"; p "5"; p "6";
             p "7"; p "8"; p "9"; p "10"; p "11"; p "12"] in
  let w' := opens rs (launched []) in
  (1 <= depth w' <= 10)%Z /\ length (_history w') = (1 + 12)%Z.
Proof.
  cbv zeta.
  assert (Hne : Wx.pages (host (launched [])) <> []) by discriminate.
  assert (Hcap : (depth (launched []) <= MAX_LEVEL (_config (launched [])))%Z)
    by (vm_compute; discriminate).
  pose proof (@NavigatorFacts.the_history_grows_while_the_stack_stays_capped
                Routes store (HistoryFacts.routes_laws 8) kit
                [p "1"; p "2"; p "3"; p "4"; p "5"; p "6";
                 p "7"; p "8"; p "9"; p "10"; p "11"; p "12"]
                (launched []) Hne Hcap) as (Hd & _ & Hl).
  exact (conj Hd Hl).
Defined.

(** Opens up to and beyond the cap, a replace and two backs, on a platform
    that refuses some of the calls. *)
Lemma navigation_by_code_stays_within_the_cap_witness :
  let acts := [Opening (p "1"); Opening (p "2"); Opening (p "3"); Opening (p "4");
               Opening (p "5"); Opening (p "6"); Opening (p "7"); Opening (p "8");
               Opening (p "9"); Opening (p "10"); Replacing (p "11");
               Backing back1; Opening (p "12"); Backing {| delta := 20 |}] in
  let w := launched [None; Some limitExceed; None; Some "navigateTo:fail timeout"] in
  (1 <= depth (session acts w) <= 10)%Z.
Proof.
  cbv zeta.
  assert (Hne : Wx.pages
                  (host (launched [None; Some limitExceed; None;
                                   Some "navigateTo:fail timeout"])) <> [])
    by discriminate.
  assert (Hcap : (depth (launched [None; Some limitExceed; None;
                                   Some "navigateTo:fail timeout"])
                  <= MAX_LEVEL (_config (launched [None; Some limitExceed; None;
                                                   Some "navigateTo:fail timeout"])))%Z)
    by (vm_compute; discriminate).
  exact (proj1 (@NavigatorFacts.navigation_by_code_stays_within_the_cap
                  Routes store kit
                  [Opening (p "1"); Opening (p "2"); Opening (p "3"); Opening (p "4");
                   Opening (p "5"); Opening (p "6"); Opening (p "7"); Opening (p "8");
                   Opening (p "9"); Opening (p "10"); Replacing (p "11");
                   Backing back1; Opening (p "12"); Backing {| delta := 20 |}]
                  (launched [None; Some limitExceed; None;
                             Some "navigateTo:fail timeout"]) Hne Hcap)).
Defined.

End Witnesses.
